(** * Autoregressive forecasting and tiered accuracy assessment

    A shallow embedding of [PredictionUseCase]
    (src/application/use_cases/prediction_use_case.py) and the properties
    its specification states about it.

    Python [float] and numpy [float64] are IEEE-754 binary64 numbers: they
    are embedded as Rocq's primitive [float], whose operations are the
    binary64 ones, so that every definition below evaluates to the value the
    Python code computes.  Python [int] is [Z]; a Python list of floats is
    [list float]; an exception is a value of [exn] returned on the left of a
    sum. *)

From Stdlib Require Import ZArith List Bool Lia String.
From Stdlib Require Import Floats Uint63.
From stdpp Require Import base option list gmap.

Set Warnings "-inexact-float".
#[local] Open Scope Z_scope.

(** ** Python values and exceptions *)

(** The [ValueError]s this module can raise, told apart by their message. *)
Inductive value_error : Set :=
  | InputLength        (* predict_single: 入力シーケンスの長さは...である必要があります *)
  | InitialLength      (* predict_sequence: 初期シーケンスの長さは...である必要があります *)
  | StartIndexTooLarge (* predict_from_csv: 開始インデックスが大きすぎます *)
  | ZeroSizeReduction. (* numpy: zero-size array to reduction operation *)

Inductive exn : Set :=
  | ValueError (msg : value_error).

Definition result (A : Type) : Type := (exn + A)%type.

Definition Ok {A : Type} (a : A) : result A := inr a.
Definition Raise {A : Type} (e : exn) : result A := inl e.

(** [len(l)] as a Python integer. *)
Definition len {A : Type} (l : list A) : Z := Z.of_nat (length l).

(** A slice bound as Python resolves it against a sequence of length [n]:
    a negative bound counts from the end, and every bound is clamped to
    [0..n]. *)
Definition slice_bound (n i : Z) : Z :=
  if i <? 0 then Z.max (i + n) 0 else Z.min i n.

(** [l[lo:hi]] *)
Definition py_slice {A : Type} (l : list A) (lo hi : Z) : list A :=
  let lo' := slice_bound (len l) lo in
  let hi' := slice_bound (len l) hi in
  take (Z.to_nat (hi' - lo')) (drop (Z.to_nat lo') l).

(** [l[lo:]] and [l[:hi]] *)
Definition py_slice_from {A : Type} (l : list A) (lo : Z) : list A :=
  py_slice l lo (len l).
Definition py_slice_to {A : Type} (l : list A) (hi : Z) : list A :=
  py_slice l 0 hi.

(** ** Configuration and the step predictor *)

(** [ModelConfig]; of its fields the use case reads [input_size] (and the
    torch device, which has no bearing on the values computed). *)
Record ModelConfig : Set := { input_size : Z }.

(** The trained network in evaluation mode under [torch.no_grad()]: a
    function from the window it is called with to the scalar it returns. *)
Definition Model : Type := list float -> float.

(** ** The forecaster, with the calls to the model recorded

    The only effect of [predict_single] besides raising is the call of the
    model.  The state threaded through the forecaster is the sequence of
    windows the model has been called with so far, oldest first. *)

Definition call_log : Type := list (list float).

Definition M (A : Type) : Type := call_log -> result A * call_log.

#[global] Instance M_ret : MRet M := fun A a log => (Ok a, log).

#[global] Instance M_bind : MBind M := fun A B k m log =>
  match m log with
  | (inl e, log') => (Raise e, log')
  | (inr a, log') => k a log'
  end.

Definition raise {A : Type} (e : exn) : M A := fun log => (Raise e, log).

Definition call_model (model : Model) (w : list float) : M float :=
  fun log => (Ok (model w), log ++ [w]).

Definition predict_single (model : Model) (config : ModelConfig)
    (input_sequence : list float) : M float :=
  if negb (len input_sequence =? input_size config)
  then raise (ValueError InputLength)
  else call_model model input_sequence.

(** The body of [for _ in range(steps)], run [n] more times with the
    current bindings of [current_sequence] and [predictions]. *)
Fixpoint predict_loop (model : Model) (config : ModelConfig) (n : nat)
    (current_sequence predictions : list float) : M (list float) :=
  match n with
  | O => mret predictions
  | S n' =>
      next_pred ← predict_single model config current_sequence;
      predict_loop model config n'
        (py_slice_from current_sequence 1 ++ [next_pred])
        (predictions ++ [next_pred])
  end.

Definition predict_sequence (model : Model) (config : ModelConfig)
    (initial_sequence : list float) (steps : Z) : M (list float) :=
  if negb (len initial_sequence =? input_size config)
  then raise (ValueError InitialLength)
  else predict_loop model config (Z.to_nat steps) initial_sequence [].

(** The dictionary [predict_from_csv] returns. *)
Module Forecast.
Record t : Type := {
  initial_sequence : list float;
  predictions : list float;
  actual_values : list float;
  start_index : Z;
  prediction_steps : Z;
  input_size : Z
}.
End Forecast.

(** [predict_from_csv] after [data = self._load_csv_data(csv_file)]: the
    series read from the file is the argument [data]. *)
Definition predict_from_csv (model : Model) (config : ModelConfig)
    (data : list float) (start_index prediction_steps : Z) : M Forecast.t :=
  if len data <=? start_index + input_size config
  then raise (ValueError StartIndexTooLarge)
  else
    let initial_sequence :=
      py_slice data start_index (start_index + input_size config) in
    predictions ← predict_sequence model config initial_sequence prediction_steps;
    let actual_end :=
      Z.min (start_index + input_size config + prediction_steps) (len data) in
    let actual_values :=
      py_slice data (start_index + input_size config) actual_end in
    mret {| Forecast.initial_sequence := initial_sequence;
            Forecast.predictions := predictions;
            Forecast.actual_values := actual_values;
            Forecast.start_index := start_index;
            Forecast.prediction_steps := len predictions;
            Forecast.input_size := input_size config |}.

(** Running a computation from an empty call log. *)
Definition run {A : Type} (m : M A) : result A * call_log := m [].
Definition returned {A : Type} (m : M A) : result A := fst (run m).
Definition calls {A : Type} (m : M A) : call_log := snd (run m).

(** ** The forecaster on the Python heap

    A Python list is a mutable object; a variable holds a reference to it.
    To state what [predict_sequence] does to the list its caller passes, the
    same function is also embedded over a store of list objects, with every
    allocation, in-place update and rebinding of the source written out.
    It returns what [predict_sequence] above computes on the values (see
    [heap_predict_sequence_spec]). *)
Module HeapModel.

Definition loc : Set := positive.
Abbreviation store := (gmap loc (list float)).

Definition H (A : Type) : Type := store -> result A * store.

#[global] Instance H_ret : MRet H := fun A a σ => (Ok a, σ).

#[global] Instance H_bind : MBind H := fun A B k m σ =>
  match m σ with
  | (inl e, σ') => (Raise e, σ')
  | (inr a, σ') => k a σ'
  end.

Definition raise {A : Type} (e : exn) : H A := fun σ => (Raise e, σ).

(** A new list object; its reference is one no object has yet. *)
Definition alloc (v : list float) : H loc :=
  fun σ => let l := fresh (dom σ) in (Ok l, <[l := v]> σ).

(** The elements of the list [l] refers to.  A Python reference always
    denotes a live object; the total lookup only makes [load] a function. *)
Definition load (l : loc) : H (list float) :=
  fun σ => (Ok (σ !!! l), σ).

(** [l.append(x)]: the object is updated in place. *)
Definition list_append (l : loc) (x : float) : H unit :=
  fun σ => (Ok tt, <[l := (σ !!! l) ++ [x]]> σ).

(** [l.copy()], [l[lo:]] and [l1 + l2] each build a new list. *)
Definition list_copy (l : loc) : H loc :=
  v ← load l; alloc v.
Definition list_slice_from (l : loc) (lo : Z) : H loc :=
  v ← load l; alloc (py_slice_from v lo).
Definition list_concat (l1 l2 : loc) : H loc :=
  v1 ← load l1; v2 ← load l2; alloc (v1 ++ v2).

(** [torch.tensor(input_sequence, ...)] copies the elements into a new
    tensor, so the model sees the values only. *)
Definition predict_single (model : Model) (config : ModelConfig)
    (input_sequence : loc) : H float :=
  v ← load input_sequence;
  if negb (len v =? input_size config)
  then raise (ValueError InputLength)
  else mret (model v).

Fixpoint predict_loop (model : Model) (config : ModelConfig) (n : nat)
    (current_sequence predictions : loc) : H unit :=
  match n with
  | O => mret tt
  | S n' =>
      next_pred ← predict_single model config current_sequence;
      _ ← list_append predictions next_pred;
      rest ← list_slice_from current_sequence 1;
      single ← alloc [next_pred];
      current_sequence' ← list_concat rest single;
      predict_loop model config n' current_sequence' predictions
  end.

Definition predict_sequence (model : Model) (config : ModelConfig)
    (initial_sequence : loc) (steps : Z) : H loc :=
  v ← load initial_sequence;
  if negb (len v =? input_size config)
  then raise (ValueError InitialLength)
  else
    predictions ← alloc [];
    current_sequence ← list_copy initial_sequence;
    _ ← predict_loop model config (Z.to_nat steps) current_sequence predictions;
    mret predictions.

End HeapModel.

(** ** numpy on one-dimensional float64 arrays

    An array is the list of its elements.  Arithmetic between arrays is
    elementwise binary64 arithmetic. *)

(** The element count as numpy divides by it: the machine integer
    converted to binary64 (a Python list has fewer than [2 ^ 63]
    elements). *)
Definition count (n : nat) : float := of_uint63 (Uint63.of_Z (Z.of_nat n)).

(** [np.sum], in the order numpy adds ([pairwise_sum] of its
    [add.reduce]): fewer than eight elements are added from left to right;
    up to 128 elements are added into eight accumulators, element [i] into
    accumulator [i mod 8], as long as whole groups of eight remain, the
    accumulators are added in pairs and the rest is added to their sum from
    left to right; a longer array is cut at the multiple of eight below its
    middle and the sums of the two parts are added. *)
Definition sum_accumulators (r : list float) : float :=
  match r with
  | [r0; r1; r2; r3; r4; r5; r6; r7] =>
      (((r0 + r1) + (r2 + r3)) + ((r4 + r5) + (r6 + r7)))%float
  | _ => 0%float
  end.

(** [groups] more groups of eight, taken from [a], added to the
    accumulators [r]; with them, what is left of [a]. *)
Fixpoint accumulate (groups : nat) (r a : list float)
    : list float * list float :=
  match groups with
  | O => (r, a)
  | S groups' =>
      accumulate groups' (zip_with PrimFloat.add r (take 8 a)) (drop 8 a)
  end.

(** The recursion halves the array, so [fuel = length a] is more than it
    uses. *)
Fixpoint pairwise_sum (fuel : nat) (a : list float) : float :=
  let n := length a in
  if (n <? 8)%nat then fold_left PrimFloat.add a 0%float
  else if (n <=? 128)%nat then
    let '(r, rest) := accumulate (n / 8 - 1) (take 8 a) (drop 8 a) in
    fold_left PrimFloat.add rest (sum_accumulators r)
  else
    match fuel with
    | O => 0%float
    | S fuel' =>
        let n2 := (n / 2 - (n / 2) mod 8)%nat in
        (pairwise_sum fuel' (take n2 a) + pairwise_sum fuel' (drop n2 a))%float
    end.

(** The reduction starts from the identity of addition. *)
Definition np_sum (a : list float) : float :=
  (0 + pairwise_sum (length a) a)%float.

Definition np_mean (a : list float) : float :=
  (np_sum a / count (length a))%float.

(** One step of the [maximum] and [minimum] reductions; a NaN met once is
    kept. *)
Definition np_maximum (io1 in2 : float) : float :=
  if (in2 <=? io1)%float || is_nan io1 then io1 else in2.
Definition np_minimum (io1 in2 : float) : float :=
  if (io1 <=? in2)%float || is_nan io1 then io1 else in2.

(** [np.max] and [np.min]; they raise on an empty array. *)
Definition np_max (a : list float) : result float :=
  match a with
  | [] => Raise (ValueError ZeroSizeReduction)
  | x :: a' => Ok (fold_left np_maximum a' x)
  end.
Definition np_min (a : list float) : result float :=
  match a with
  | [] => Raise (ValueError ZeroSizeReduction)
  | x :: a' => Ok (fold_left np_minimum a' x)
  end.

(** [a - b] for arrays of one shape, [a - c] for a scalar [c], [np.abs(a)]
    and [a ** 2]. *)
Definition np_sub (a b : list float) : list float := zip_with PrimFloat.sub a b.
Definition np_sub_scalar (a : list float) (c : float) : list float :=
  map (fun x => x - c)%float a.
Definition np_abs (a : list float) : list float := map PrimFloat.abs a.
Definition np_square (a : list float) : list float := map (fun x => x * x)%float a.

(** The numpy statistics whose algorithms are numpy's own: they are
    parameters of the evaluation.  [np_corrcoef x y] is
    [np.corrcoef(x, y)[0, 1]]; its algorithm is [corrcoef] below, up to
    the matrix product of the linear algebra library. *)
Record numpy_stats : Type := {
  np_std : list float -> float;
  np_var : list float -> float;
  np_percentile : list float -> float -> float;
  np_median : list float -> float;
  np_corrcoef : list float -> list float -> float
}.

(** [np.clip(x, lo, hi)] *)
Definition np_clip (x lo hi : float) : float :=
  np_minimum (np_maximum x lo) hi.

(** [np.corrcoef(x, y)[0, 1]] as numpy (1.10 and later) computes it, for
    two arrays of one length: the rows are centred on their means, the
    covariance matrix is the product of the centred rows with their
    transpose, scaled by [1 / (n - 1)], its entry is divided by the square
    roots of the two diagonal entries, one after the other, and the result
    is clipped to [-1 .. 1].  The matrix product is BLAS's: [dot u v] is
    the entry it computes from the rows [u] and [v]. *)
Definition corrcoef (dot : list float -> list float -> float)
    (x y : list float) : float :=
  let dx := np_sub_scalar x (np_mean x) in
  let dy := np_sub_scalar y (np_mean y) in
  let fact := count (length x - 1) in
  let c00 := (dot dx dx * (1 / fact))%float in
  let c01 := (dot dx dy * (1 / fact))%float in
  let c11 := (dot dy dy * (1 / fact))%float in
  np_clip (c01 / PrimFloat.sqrt c00 / PrimFloat.sqrt c11)%float (-1)%float 1%float.

(** The dot product that adds the products from left to right. *)
Definition dot_product (u v : list float) : float :=
  fold_left PrimFloat.add (zip_with PrimFloat.mul u v) 0%float.

(** ** The accuracy assessment *)

(** A threshold dictionary of [_assess_accuracy]. *)
Module Thresholds.
Record t : Set := {
  correlation : float;
  r_squared : float;
  normalized_rmse : float;
  mae_ratio : float
}.
End Thresholds.

Definition excellent_thresholds : Thresholds.t :=
  {| Thresholds.correlation := 0.95;
     Thresholds.r_squared := 0.90;
     Thresholds.normalized_rmse := 0.05;
     Thresholds.mae_ratio := 0.02 |}.

Definition good_thresholds : Thresholds.t :=
  {| Thresholds.correlation := 0.80;
     Thresholds.r_squared := 0.70;
     Thresholds.normalized_rmse := 0.10;
     Thresholds.mae_ratio := 0.05 |}.

Definition acceptable_thresholds : Thresholds.t :=
  {| Thresholds.correlation := 0.60;
     Thresholds.r_squared := 0.50;
     Thresholds.normalized_rmse := 0.20;
     Thresholds.mae_ratio := 0.10 |}.

(** The four levels, as the strings the source assigns to [level]. *)
Definition Excellent : string := "優秀".
Definition Good : string := "良好".
Definition Acceptable : string := "許容可能".
Definition Insufficient : string := "不十分".

Definition recommendation_excellent : string :=
  "予測精度は非常に優秀です。実用レベルに達しています。".
Definition recommendation_good : string :=
  "予測精度は良好です。実用に適していますが、さらなる改善の余地があります。".
Definition recommendation_acceptable : string :=
  "予測精度は最低限許容可能ですが、実用には注意が必要です。改善を推奨します。".
Definition recommendation_insufficient : string :=
  "予測精度が不十分です。モデルの大幅な改善が必要です。".

(** The dictionary [_assess_accuracy] returns. *)
Module Assessment.
Record t : Set := {
  level : string;
  acceptable : bool;
  overall_score : Z;
  correlation_score : Z;
  r_squared_score : Z;
  normalized_rmse_score : Z;
  mae_ratio_score : Z;
  mae_ratio : float;
  recommendation : string
}.
End Assessment.

(** [value >= threshold] on floats is [threshold <=? value]. *)
Definition _get_metric_score (value excellent good acceptable : float) : Z :=
  if (excellent <=? value)%float then 3
  else if (good <=? value)%float then 2
  else if (acceptable <=? value)%float then 1
  else 0.

(** The [if]/[elif] chain on [overall_score]: level, acceptable,
    recommendation. *)
Definition verdict (overall_score : Z) : string * bool * string :=
  if 3 <=? overall_score then (Excellent, true, recommendation_excellent)
  else if 2 <=? overall_score then (Good, true, recommendation_good)
  else if 1 <=? overall_score then (Acceptable, true, recommendation_acceptable)
  else (Insufficient, false, recommendation_insufficient).

Definition _assess_accuracy
    (correlation r_squared normalized_rmse mae data_range : float) : Assessment.t :=
  let mae_ratio :=
    if negb (data_range =? 0)%float then (mae / data_range)%float else infinity in
  let correlation_score :=
    _get_metric_score (PrimFloat.abs correlation)
      (Thresholds.correlation excellent_thresholds)
      (Thresholds.correlation good_thresholds)
      (Thresholds.correlation acceptable_thresholds) in
  let r_squared_score :=
    _get_metric_score r_squared
      (Thresholds.r_squared excellent_thresholds)
      (Thresholds.r_squared good_thresholds)
      (Thresholds.r_squared acceptable_thresholds) in
  let normalized_rmse_score :=
    _get_metric_score (1 - normalized_rmse)%float
      (1 - Thresholds.normalized_rmse excellent_thresholds)%float
      (1 - Thresholds.normalized_rmse good_thresholds)%float
      (1 - Thresholds.normalized_rmse acceptable_thresholds)%float in
  let mae_ratio_score :=
    _get_metric_score (1 - mae_ratio)%float
      (1 - Thresholds.mae_ratio excellent_thresholds)%float
      (1 - Thresholds.mae_ratio good_thresholds)%float
      (1 - Thresholds.mae_ratio acceptable_thresholds)%float in
  let overall_score :=
    Z.min (Z.min (Z.min correlation_score r_squared_score)
                 normalized_rmse_score) mae_ratio_score in
  let '(level, acceptable, recommendation) := verdict overall_score in
  {| Assessment.level := level;
     Assessment.acceptable := acceptable;
     Assessment.overall_score := overall_score;
     Assessment.correlation_score := correlation_score;
     Assessment.r_squared_score := r_squared_score;
     Assessment.normalized_rmse_score := normalized_rmse_score;
     Assessment.mae_ratio_score := mae_ratio_score;
     Assessment.mae_ratio := mae_ratio;
     Assessment.recommendation := recommendation |}.

(** ** The metrics *)

(** The dictionary [evaluate_predictions] returns. *)
Module Metrics.
Record t : Set := {
  mse : float;
  mae : float;
  rmse : float;
  correlation : float;
  r_squared : float;
  error_std : float;
  error_var : float;
  max_error : float;
  min_error : float;
  error_95th_percentile : float;
  error_75th_percentile : float;
  error_median : float;
  normalized_rmse : float;
  data_range : float;
  samples : Z;
  accuracy_assessment : Assessment.t
}.
End Metrics.

(** Sequencing of calls that may raise. *)
Definition and_then {A B : Type} (r : result A) (k : A -> result B) : result B :=
  match r with
  | inl e => Raise e
  | inr a => k a
  end.

Notation "'let?' x ':=' r 'in' k" := (and_then r (fun x => k))
  (at level 10, x name, r at level 100, k at level 200).

(** The sum of squared deviations of the ground truth from its mean, the
    denominator of R². *)
Definition ss_tot_of (actual : list float) : float :=
  np_sum (np_square (np_sub_scalar actual (np_mean actual))).

Definition evaluate_predictions (np : numpy_stats)
    (predictions actual_values : list float) : result Metrics.t :=
  let min_length := Z.min (len predictions) (len actual_values) in
  let pred := py_slice_to predictions min_length in
  let actual := py_slice_to actual_values min_length in
  let errors := np_sub pred actual in
  let abs_errors := np_abs errors in
  let mse := np_mean (np_square errors) in
  let mae := np_mean abs_errors in
  let rmse := PrimFloat.sqrt mse in
  let error_std := np_std np errors in
  let error_var := np_var np errors in
  let? max_error := np_max abs_errors in
  let? min_error := np_min abs_errors in
  let error_95th := np_percentile np abs_errors 95 in
  let error_75th := np_percentile np abs_errors 75 in
  let error_median := np_median np abs_errors in
  let correlation :=
    if 1 <? min_length then np_corrcoef np pred actual else 0%float in
  let ss_res := np_sum (np_square errors) in
  let ss_tot := ss_tot_of actual in
  let r_squared :=
    if negb (ss_tot =? 0)%float then (1 - ss_res / ss_tot)%float else 0%float in
  let? actual_max := np_max actual in
  let? actual_min := np_min actual in
  let data_range := (actual_max - actual_min)%float in
  let normalized_rmse :=
    if negb (data_range =? 0)%float then (rmse / data_range)%float else infinity in
  let accuracy_assessment :=
    _assess_accuracy correlation r_squared normalized_rmse mae data_range in
  Ok {| Metrics.mse := mse;
        Metrics.mae := mae;
        Metrics.rmse := rmse;
        Metrics.correlation := correlation;
        Metrics.r_squared := r_squared;
        Metrics.error_std := error_std;
        Metrics.error_var := error_var;
        Metrics.max_error := max_error;
        Metrics.min_error := min_error;
        Metrics.error_95th_percentile := error_95th;
        Metrics.error_75th_percentile := error_75th;
        Metrics.error_median := error_median;
        Metrics.normalized_rmse := normalized_rmse;
        Metrics.data_range := data_range;
        Metrics.samples := min_length;
        Metrics.accuracy_assessment := accuracy_assessment |}.

(** ** The feedback loop unrolled

    The windows a forecast of [n] steps from window [w] feeds to the model
    and the values the model answers, when no length check fails: each
    window is the previous one without its oldest element and with the
    previous answer appended. *)
Definition next_window (model : Model) (w : list float) : list float :=
  drop 1 w ++ [model w].

Fixpoint forecast_windows (model : Model) (n : nat) (w : list float)
    : list (list float) :=
  match n with
  | O => []
  | S n' => w :: forecast_windows model n' (next_window model w)
  end.

Definition forecast_values (model : Model) (n : nat) (w : list float)
    : list float :=
  map model (forecast_windows model n w).

(** ** The rounding of binary64, arithmetically *)

(** [m] shifted right by [k] bits and rounded to nearest, ties to even. *)
Definition rnd_shift (m k : Z) : Z :=
  let q := m / 2 ^ k in
  let rem := m mod 2 ^ k in
  if (2 ^ k <? 2 * rem) || ((2 ^ k =? 2 * rem) && Z.odd q) then q + 1 else q.

(** [round_pos D] is the mantissa and the exponent of the binary64 number
    nearest to [D * 2 ^ -1074], for a positive integer [D]; [round_spec] is
    that number with its sign, or the infinity when it is out of range. *)
Definition round_pos (D : Z) : Z * Z :=
  let k := Z.max (Zdigits2 D - 53) 0 in
  let m := rnd_shift D k in
  if m =? 2 ^ 53 then (2 ^ 52, -1074 + k + 1) else (m, -1074 + k).

Definition round_spec (s : bool) (D : Z) : spec_float :=
  let '(m, e) := round_pos D in
  match m with
  | Zpos p => if e <=? 971 then S754_finite s p e else S754_infinity s
  | _ => S754_nan
  end.

(** The binary64 number nearest to [D * 2 ^ -1074], for any integer [D]. *)
Definition round_int (D : Z) : spec_float :=
  match D with
  | Z0 => S754_zero false
  | Zpos _ => round_spec false D
  | Zneg p => round_spec true (Zpos p)
  end.

(** The value of a finite or zero float, in units of [2 ^ -1074]. *)
Definition zval (x : spec_float) : Z :=
  match x with
  | S754_finite s m e => cond_Zopp s (Z.pos m * 2 ^ (e + 1074))
  | _ => 0
  end.


(** * The rest of the program

    The modules around the use case: the data set the model is trained on
    (src/infrastructure/repositories/data_loader.py), [create_sequences]
    (src/domain/entities/simple_model.py), the training loop
    (src/application/use_cases/train_model_use_case.py), and the command
    line's prediction mode (main.py). *)

(** The exceptions met there, besides those of the use case. *)
Inductive exception : Set :=
  | Exn (e : exn)         (* an exception of the prediction use case or of a
                             numpy reduction *)
  | IndexError            (* index out of bounds *)
  | InhomogeneousShape    (* ValueError of np.array: rows of different lengths *)
  | UnknownFormatCode     (* ValueError: Unknown format code 'f' for object of
                             type 'str' *)
  | TypeError             (* len() of unsized object *)
  | UnboundLocalError.    (* a local variable read before any assignment *)

Definition outcome (A : Type) : Type := (exception + A)%type.

Definition bind_outcome {A B : Type} (r : outcome A) (k : A -> outcome B)
    : outcome B :=
  match r with
  | inl e => inl e
  | inr a => k a
  end.

(** Python's [range(n)]: empty when [n <= 0]. *)
Definition range (n : Z) : list Z := seqZ 0 n.

(** [a[k]] for an integer [k], on a list or a one-dimensional array: a
    negative index counts from the end. *)
Definition py_index {A : Type} (a : list A) (k : Z) : outcome A :=
  let k' := if k <? 0 then k + len a else k in
  if k' <? 0 then inl IndexError
  else match a !! Z.to_nat k' with
       | Some x => inr x
       | None => inl IndexError
       end.

(** ** numpy arrays of up to two dimensions *)

(** What the loops append to the Python lists [X] and [y]: a numpy scalar
    [data[k]] or a one-dimensional slice [data[lo:hi]]. *)
Inductive item (A : Type) : Type :=
  | Scalar (x : A)
  | Row (v : list A).
Arguments Scalar {A} x.
Arguments Row {A} v.

Inductive ndarray (A : Type) : Type :=
  | Array0 (x : A)                  (* shape () *)
  | Array1 (a : list A)             (* shape (n,) *)
  | Array2 (rows : list (list A)).  (* shape (n, m), n >= 1 *)
Arguments Array0 {A} x.
Arguments Array1 {A} a.
Arguments Array2 {A} rows.

Definition scalar_of {A : Type} (i : item A) : option A :=
  match i with Scalar x => Some x | Row _ => None end.
Definition row_of {A : Type} (i : item A) : option (list A) :=
  match i with Scalar _ => None | Row v => Some v end.

(** [np.array(l)] for a Python list of scalars or of one-dimensional
    arrays: the scalars make a vector, rows of one length make a matrix, an
    empty list makes the empty vector, anything else is refused (with the
    [dtype] the data set passes, by every numpy; without one, by numpy 1.24
    and later).  No property below depends on a refusal. *)
Definition np_array {A : Type} (l : list (item A)) : outcome (ndarray A) :=
  match l with
  | [] => inr (Array1 [])
  | Scalar _ :: _ =>
      match mapM scalar_of l with
      | Some a => inr (Array1 a)
      | None => inl InhomogeneousShape
      end
  | Row v :: _ =>
      match mapM row_of l with
      | Some rows =>
          if forallb (fun r => len r =? len v) rows
          then inr (Array2 rows)
          else inl InhomogeneousShape
      | None => inl InhomogeneousShape
      end
  end.

(** [len(a)], the first dimension, and [a[k]] for an integer [k]. *)
Definition np_len {A : Type} (a : ndarray A) : outcome Z :=
  match a with
  | Array0 _ => inl TypeError
  | Array1 a => inr (len a)
  | Array2 rows => inr (len rows)
  end.

Definition np_getitem {A : Type} (a : ndarray A) (k : Z) : outcome (item A) :=
  match a with
  | Array0 _ => inl IndexError
  | Array1 a => bind_outcome (py_index a k) (fun x => inr (Scalar x))
  | Array2 rows => bind_outcome (py_index rows k) (fun v => inr (Row v))
  end.

(** [a.squeeze()]: the dimensions of size one are dropped. *)
Definition squeeze {A : Type} (a : ndarray A) : ndarray A :=
  match a with
  | Array0 x => Array0 x
  | Array1 [x] => Array0 x
  | Array1 a => Array1 a
  | Array2 [[x]] => Array0 x
  | Array2 [v] => Array1 v
  | Array2 rows =>
      if forallb (fun r => len r =? 1) rows then Array1 (concat rows)
      else Array2 rows
  end.

(** ** Single precision

    [np.float32(x)] and [torch.tensor(x, dtype=torch.float32)] for a
    Python float [x]: the binary32 number nearest to [x], ties to even,
    an infinity if that is out of range.  A binary32 number is a binary64
    number, and is kept as that. *)
Definition float32 (x : float) : float :=
  match Prim2SF x with
  | S754_finite s m e =>
      SF2Prim (binary_normalize 24 128 (cond_Zopp s (Z.pos m)) e s)
  | _ => x
  end.

(** The model [predict_single] calls, made of its parts: the window
    becomes a float32 tensor, the network [net] maps the tensor to a
    tensor of one float32 number, and [item()] gives that number as a
    Python float. *)
Definition model_of_network (net : list float -> float) : Model :=
  fun input_sequence => net (map float32 input_sequence).

(** ** [SinWaveDataset]

    [_load_csv] makes an [np.float32] array of the values read from the
    file.  The data set itself only moves the elements of that array
    around, so their type is left open; the conversions to [np.float32]
    and to tensors that follow change no element, the elements being
    float32 numbers already. *)
Module SinWaveDataset.
Section Samples.
Context {A : Type}.

Record t : Type := {
  input_size : Z;
  target_size : Z;
  data : list A;
  X : ndarray A;
  y : ndarray A
}.

(** The body of the [for] loop of [_create_sequences], for the indices
    still to visit, with the current [X] and [y]. *)
Fixpoint create_loop (input_size target_size : Z) (data : list A)
    (indices : list Z) (X y : list (item A))
    : outcome (list (item A) * list (item A)) :=
  match indices with
  | [] => inr (X, y)
  | i :: indices' =>
      let X := X ++ [Row (py_slice data i (i + input_size))] in
      if target_size =? 1 then
        bind_outcome (py_index data (i + input_size)) (fun v =>
        create_loop input_size target_size data indices' X (y ++ [Scalar v]))
      else
        create_loop input_size target_size data indices' X
          (y ++ [Row (py_slice data (i + input_size)
                        (i + input_size + target_size))])
  end.

Definition _create_sequences (input_size target_size : Z) (data : list A)
    : outcome (ndarray A * ndarray A) :=
  bind_outcome
    (create_loop input_size target_size data
       (range (len data - input_size - target_size + 1)) [] [])
    (fun '(X, y) =>
       bind_outcome (np_array X) (fun X' =>
       bind_outcome (np_array y) (fun y' => inr (X', y')))).

(** [__init__] after [self.data = self._load_csv(csv_file)]. *)
Definition __init__ (data : list A) (input_size target_size : Z) : outcome t :=
  bind_outcome (_create_sequences input_size target_size data) (fun '(X, y) =>
  inr {| input_size := input_size; target_size := target_size;
         data := data; X := X; y := y |}).

Definition __len__ (self : t) : outcome Z := np_len (X self).

Definition __getitem__ (self : t) (idx : Z) : outcome (item A * item A) :=
  bind_outcome (np_getitem (X self) idx) (fun x =>
  bind_outcome (np_getitem (y self) idx) (fun t => inr (x, t))).

End Samples.
Arguments t : clear implicits.

(** [_load_csv] after the file is read: [values] are the Python floats
    of its column [value]. *)
Definition _load_csv (values : list float) : list float :=
  map float32 values.

End SinWaveDataset.

(** [create_sequences] of src/domain/entities/simple_model.py: the loop of
    the data set without the case of a single target, and [squeeze] on the
    targets. *)
Fixpoint create_sequences_loop {A : Type} (input_size target_size : Z)
    (data : list A) (indices : list Z) (X y : list (item A))
    : list (item A) * list (item A) :=
  match indices with
  | [] => (X, y)
  | i :: indices' =>
      create_sequences_loop input_size target_size data indices'
        (X ++ [Row (py_slice data i (i + input_size))])
        (y ++ [Row (py_slice data (i + input_size)
                      (i + input_size + target_size))])
  end.

Definition create_sequences {A : Type} (data : list A)
    (input_size target_size : Z) : outcome (ndarray A * ndarray A) :=
  let '(X, y) :=
    create_sequences_loop input_size target_size data
      (range (len data - input_size - target_size + 1)) [] [] in
  bind_outcome (np_array X) (fun X' =>
  bind_outcome (np_array y) (fun y' => inr (X', squeeze y'))).
(** The windows [data[i : i + input_size]] for [i] in [range(n)]. *)
Definition windows {A : Type} (data : list A) (input_size n : Z)
    : list (list A) :=
  map (fun i => py_slice data i (i + input_size)) (range n).

(** ** The prediction mode of the command line (main.py) *)





(** The dictionary [predict_mode] returns. *)
Module ModeResult.
Record t : Type := {
  success : bool;
  result : option Forecast.t;
  metrics : option Metrics.t;
  error : option exception
}.
End ModeResult.


(** ** The training loop (src/application/use_cases/train_model_use_case.py)

    The control of [TrainModelUseCase.train]: the epochs, the history, the
    best validation loss and early stopping.  What torch computes is an
    argument: [losses epoch] is the pair of numbers [_train_epoch] and
    [_validate_epoch] return in the epoch numbered [epoch] (from 0). *)

(** [self.train_history]: a dictionary of three lists. *)
Module TrainHistory.
Record t : Set := {
  epoch : list Z;
  train_loss : list float;
  val_loss : list float
}.
End TrainHistory.

(** The local variables of the loop.  [best_model_state] is unbound
    ([None]) until its first assignment; afterwards it holds the state
    dictionary taken in the epoch recorded here. *)
Module TrainState.
Record t : Set := {
  best_val_loss : float;
  patience_counter : Z;
  best_model_state : option Z;
  train_history : TrainHistory.t
}.
End TrainState.

(** The body of [for epoch in range(max_epochs)], for the epochs still to
    run; the [break] leaves the loop with the state reached. *)
Fixpoint train_loop (losses : Z -> float * float)
    (early_stopping_patience : Z) (epochs : list Z) (st : TrainState.t)
    : TrainState.t :=
  match epochs with
  | [] => st
  | epoch :: epochs' =>
      let '(train_loss, val_loss) := losses epoch in
      let h := TrainState.train_history st in
      let h' :=
        {| TrainHistory.epoch := TrainHistory.epoch h ++ [epoch + 1];
           TrainHistory.train_loss := TrainHistory.train_loss h ++ [train_loss];
           TrainHistory.val_loss := TrainHistory.val_loss h ++ [val_loss] |} in
      let st' :=
        if (val_loss <? TrainState.best_val_loss st)%float
        then {| TrainState.best_val_loss := val_loss;
                TrainState.patience_counter := 0;
                TrainState.best_model_state := Some epoch;
                TrainState.train_history := h' |}
        else {| TrainState.best_val_loss := TrainState.best_val_loss st;
                TrainState.patience_counter := TrainState.patience_counter st + 1;
                TrainState.best_model_state := TrainState.best_model_state st;
                TrainState.train_history := h' |} in
      if early_stopping_patience <=? TrainState.patience_counter st'
      then st'
      else train_loop losses early_stopping_patience epochs' st'
  end.

(** Of the dictionary [train] returns: the losses and the history. *)
Module TrainResult.
Record t : Set := {
  final_train_loss : float;
  final_val_loss : float;
  best_val_loss : float;
  train_history : TrainHistory.t
}.
End TrainResult.

(** [train] from the loop on, for a use case whose history is
    [train_history]: what it returns or raises, and the history it leaves
    in the use case. *)
Definition train (losses : Z -> float * float)
    (max_epochs early_stopping_patience : Z) (train_history : TrainHistory.t)
    : outcome TrainResult.t * TrainHistory.t :=
  let st :=
    train_loop losses early_stopping_patience (range max_epochs)
      {| TrainState.best_val_loss := infinity;
         TrainState.patience_counter := 0;
         TrainState.best_model_state := None;
         TrainState.train_history := train_history |} in
  let h := TrainState.train_history st in
  (match TrainState.best_model_state st with
   | None => inl UnboundLocalError
   | Some _ =>
       bind_outcome (py_index (TrainHistory.train_loss h) (-1))
         (fun final_train_loss =>
       bind_outcome (py_index (TrainHistory.val_loss h) (-1))
         (fun final_val_loss =>
       inr {| TrainResult.final_train_loss := final_train_loss;
              TrainResult.final_val_loss := final_val_loss;
              TrainResult.best_val_loss := TrainState.best_val_loss st;
              TrainResult.train_history := h |}))
   end, h).

(** The history of a use case that started from [h0], after [k] epochs of
    a run. *)
Definition history_after (losses : Z -> float * float) (h0 : TrainHistory.t)
    (k : Z) : TrainHistory.t :=
  {| TrainHistory.epoch :=
       TrainHistory.epoch h0 ++ map (fun e => e + 1) (range k);
     TrainHistory.train_loss :=
       TrainHistory.train_loss h0 ++ map (fun e => fst (losses e)) (range k);
     TrainHistory.val_loss :=
       TrainHistory.val_loss h0 ++ map (fun e => snd (losses e)) (range k) |}.

(** What holds of the loop variables after [k] epochs: no validation loss
    so far is below the best one; [best_model_state] is unbound as long as
    no loss was below infinity, and otherwise was taken in the epoch of the
    best loss, [patience_counter] epochs ago. *)
Definition train_inv (losses : Z -> float * float) (h0 : TrainHistory.t)
    (k : Z) (st : TrainState.t) : Prop :=
  TrainState.train_history st = history_after losses h0 k /\
  (forall j : Z, 0 <= j < k ->
     (snd (losses j) <? TrainState.best_val_loss st)%float = false) /\
  match TrainState.best_model_state st with
  | None =>
      TrainState.best_val_loss st = infinity /\
      TrainState.patience_counter st = k
  | Some e =>
      0 <= e < k /\
      TrainState.patience_counter st = k - 1 - e /\
      TrainState.best_val_loss st = snd (losses e) /\
      (TrainState.best_val_loss st <? infinity)%float = true
  end.

(** ** Saving and restoring the configuration

    [TrainModelUseCase.save_model] stores [config.__dict__] in the
    checkpoint; [load_trained_model] makes a fresh [ModelConfig] and sets
    on it every attribute the checkpoint holds.  An object is the finite
    map of its attributes. *)

Inductive value : Set :=
  | VInt (n : Z)
  | VFloat (x : float)
  | VStr (s : string)
  | VBool (b : bool).

Abbreviation attributes := (gmap string value).

Definition setattr (o : attributes) (name : string) (v : value) : attributes :=
  <[name := v]> o.

(** [getattr(o, name, default)] *)
Definition getattr (o : attributes) (name : string) (default : value) : value :=
  match o !! name with
  | Some v => v
  | None => default
  end.

(** The truth value of a Python value. *)
Definition truthy (v : value) : bool :=
  match v with
  | VInt n => negb (n =? 0)
  | VFloat x => negb (x =? 0)%float
  | VStr s => negb (String.eqb s "")
  | VBool b => b
  end.

(** [ModelConfig.__init__], on a machine where [torch.cuda.is_available()]
    is [cuda_is_available]. *)
Definition ModelConfig__init__ (cuda_is_available : bool) : attributes :=
  foldl (fun self '(name, v) => setattr self name v) ∅
    [("input_size"%string, VInt 20);
     ("hidden_size"%string, VInt 128);
     ("output_size"%string, VInt 1);
     ("num_layers"%string, VInt 2);
     ("dropout"%string, VFloat 0.1);
     ("learning_rate"%string, VFloat 0.0005);
     ("batch_size"%string, VInt 64);
     ("max_epochs"%string, VInt 200);
     ("device"%string, VStr (if cuda_is_available then "cuda" else "cpu"));
     ("use_improved_model"%string, VBool true);
     ("early_stopping_patience"%string, VInt 20)].

(** The command line arguments [train_mode] copies into the
    configuration. *)
Module Args.
Record t : Set := {
  epochs : Z;
  batch_size : Z;
  learning_rate : float;
  input_size : Z;
  hidden_size : Z
}.
End Args.

(** The configuration [train_mode] (main.py) trains with. *)
Definition train_mode_config (cuda_is_available : bool) (args : Args.t)
    : attributes :=
  let config := ModelConfig__init__ cuda_is_available in
  let config := setattr config "max_epochs" (VInt (Args.epochs args)) in
  let config := setattr config "batch_size" (VInt (Args.batch_size args)) in
  let config := setattr config "learning_rate" (VFloat (Args.learning_rate args)) in
  let config := setattr config "input_size" (VInt (Args.input_size args)) in
  let config := setattr config "hidden_size" (VInt (Args.hidden_size args)) in
  config.

(** Of a checkpoint file: the configuration and the history ([torch.load]
    gives back the dictionary [torch.save] was given). *)
Module Checkpoint.
Record t : Type := {
  config : attributes;
  train_history : TrainHistory.t
}.
End Checkpoint.

Definition save_model (config : attributes) (train_history : TrainHistory.t)
    : Checkpoint.t :=
  {| Checkpoint.config := config; Checkpoint.train_history := train_history |}.

Inductive model_class : Set :=
  | ImprovedSinPredictor
  | SimpleSinPredictor.

(** [load_trained_model]: the configuration it restores, attribute by
    attribute (the order of the keys does not matter, they are distinct),
    and the class of the model it builds. *)
Definition load_trained_model (cuda_is_available : bool)
    (checkpoint : Checkpoint.t) : model_class * attributes :=
  let config_dict := Checkpoint.config checkpoint in
  let config :=
    map_fold (fun key value config => setattr config key value)
      (ModelConfig__init__ cuda_is_available) config_dict in
  (if truthy (getattr config "use_improved_model" (VBool true))
   then ImprovedSinPredictor else SimpleSinPredictor,
   config).

(** The configuration as the prediction use case reads it. *)
Definition config_of (config : attributes) : option ModelConfig :=
  match config !! "input_size"%string with
  | Some (VInt n) => Some {| input_size := n |}
  | _ => None
  end.

(** * Properties *)

(** ** Slices *)

Lemma len_nonneg {A : Type} (l : list A) : 0 <= len l.
Proof. unfold len. lia. Qed.

Lemma slice_bound_nonneg (n i : Z) : 0 <= n -> 0 <= i -> slice_bound n i = Z.min i n.
Proof.
  intros Hn Hi. unfold slice_bound.
  destruct (Z.ltb_spec i 0); [lia | reflexivity].
Qed.

(** For bounds that are not negative a slice is a [take] of a [drop]. *)
Lemma py_slice_nonneg {A : Type} (l : list A) (lo hi : Z) :
  0 <= lo -> 0 <= hi ->
  py_slice l lo hi = take (Z.to_nat (hi - lo)) (drop (Z.to_nat lo) l).
Proof.
  intros Hlo Hhi. unfold py_slice.
  pose proof (len_nonneg l) as Hn.
  rewrite !slice_bound_nonneg by assumption.
  destruct (Z.le_gt_cases lo (len l)) as [Hle | Hgt].
  - rewrite (Z.min_l lo) by assumption.
    destruct (Z.le_gt_cases hi (len l)) as [Hh | Hh].
    + rewrite Z.min_l by assumption. reflexivity.
    + rewrite Z.min_r by lia.
      rewrite !take_ge; [reflexivity | |];
        rewrite length_drop; unfold len in *; lia.
  - rewrite (Z.min_r lo) by lia.
    rewrite !drop_ge by (unfold len in *; lia).
    rewrite !take_nil. reflexivity.
Qed.

Lemma py_slice_from_1 {A : Type} (l : list A) : py_slice_from l 1 = drop 1 l.
Proof.
  unfold py_slice_from. pose proof (len_nonneg l).
  rewrite py_slice_nonneg by lia.
  apply take_ge. rewrite length_drop. unfold len. lia.
Qed.

Lemma py_slice_to_min {A : Type} (l : list A) (n : nat) :
  py_slice_to l (Z.of_nat n) = take n l.
Proof.
  unfold py_slice_to. rewrite py_slice_nonneg by lia.
  rewrite drop_0. f_equal. lia.
Qed.

Lemma len_app {A : Type} (l k : list A) : len (l ++ k) = len l + len k.
Proof. unfold len. rewrite length_app. lia. Qed.

Lemma len_next_window (model : Model) (w : list float) :
  w <> [] -> len (next_window model w) = len w.
Proof.
  intros Hw. unfold next_window. rewrite len_app. unfold len.
  rewrite length_drop. destruct w; [congruence | simpl; lia].
Qed.

(** ** The forecast loop *)

Section Forecaster.

Variable model : Model.
Variable config : ModelConfig.

Lemma predict_single_ok (w : list float) (log : call_log) :
  len w = input_size config ->
  predict_single model config w log = (Ok (model w), log ++ [w]).
Proof.
  intros Hw. unfold predict_single.
  rewrite (proj2 (Z.eqb_eq _ _) Hw). reflexivity.
Qed.

Lemma predict_single_raises (w : list float) (log : call_log) :
  len w <> input_size config ->
  predict_single model config w log = (Raise (ValueError InputLength), log).
Proof.
  intros Hw. unfold predict_single.
  rewrite (proj2 (Z.eqb_neq _ _) Hw). reflexivity.
Qed.

Lemma predict_loop_step (n : nat) (w preds : list float) (log : call_log) :
  predict_loop model config (S n) w preds log =
  match predict_single model config w log with
  | (inl e, log') => (Raise e, log')
  | (inr p, log') =>
      predict_loop model config n (py_slice_from w 1 ++ [p]) (preds ++ [p]) log'
  end.
Proof. reflexivity. Qed.

(** With windows of one element or more the loop never fails: it makes
    [n] calls and returns [n] more predictions. *)
Lemma predict_loop_ok (n : nat) :
  forall (w preds : list float) (log : call_log),
    len w = input_size config -> w <> [] ->
    predict_loop model config n w preds log =
    (Ok (preds ++ forecast_values model n w), log ++ forecast_windows model n w).
Proof.
  induction n as [| n IH]; intros w preds log Hw Hne.
  - cbn. rewrite !app_nil_r. reflexivity.
  - rewrite predict_loop_step, predict_single_ok by assumption.
    unfold Ok. rewrite py_slice_from_1. fold (next_window model w).
    rewrite IH.
    + unfold forecast_values. cbn. rewrite <- !app_assoc. reflexivity.
    + rewrite len_next_window; assumption.
    + unfold next_window. destruct (drop 1 w); discriminate.
Qed.

(** Whatever the window, the calls the loop makes are an initial part of
    the unrolled windows, each of the configured length, and a loop that
    returns has made all [n] calls. *)
Lemma predict_loop_calls (n : nat) :
  forall (w preds : list float) (log : call_log),
    exists k : nat,
      (k <= n)%nat /\
      snd (predict_loop model config n w preds log)
        = log ++ forecast_windows model k w /\
      Forall (fun w' => len w' = input_size config) (forecast_windows model k w) /\
      forall ps, fst (predict_loop model config n w preds log) = Ok ps ->
        k = n /\ ps = preds ++ forecast_values model n w.
Proof.
  induction n as [| n IH]; intros w preds log.
  - exists O. cbn. rewrite !app_nil_r.
    split; [lia |]. split; [reflexivity |]. split; [constructor |].
    intros ps [= <-]. split; reflexivity.
  - rewrite predict_loop_step.
    destruct (Z.eq_dec (len w) (input_size config)) as [Hw | Hw].
    + rewrite predict_single_ok by assumption.
      unfold Ok at 1 3. rewrite py_slice_from_1. fold (next_window model w).
      destruct (IH (next_window model w) (preds ++ [model w]) (log ++ [w]))
        as (k & Hk & Hlog & Hall & Hret).
      exists (S k).
      split; [lia |]. split; [| split].
      * rewrite Hlog. cbn. rewrite <- app_assoc. reflexivity.
      * cbn. constructor; assumption.
      * intros ps Hps. destruct (Hret ps Hps) as [-> ->].
        split; [reflexivity |].
        unfold forecast_values. cbn. rewrite <- app_assoc. reflexivity.
    + rewrite predict_single_raises by assumption.
      exists O. cbn. rewrite app_nil_r.
      split; [lia |]. split; [reflexivity |]. split; [constructor |].
      intros ps [=].
Qed.

(** The loop raises nothing but the length error of [predict_single]. *)
Lemma predict_loop_raises (n : nat) :
  forall (w preds : list float) (log : call_log) (e : exn),
    fst (predict_loop model config n w preds log) = Raise e ->
    e = ValueError InputLength.
Proof.
  induction n as [| n IH]; intros w preds log e.
  - cbn. intros [=].
  - rewrite predict_loop_step.
    destruct (Z.eq_dec (len w) (input_size config)) as [Hw | Hw].
    + rewrite predict_single_ok by assumption. unfold Ok at 1. apply IH.
    + rewrite predict_single_raises by assumption. cbn. intros [= <-]. reflexivity.
Qed.

Lemma forecast_windows_length (n : nat) (w : list float) :
  length (forecast_windows model n w) = n.
Proof.
  revert w. induction n as [| n IH]; intros w; cbn; [| rewrite IH]; reflexivity.
Qed.

Lemma forecast_values_length (n : nat) (w : list float) :
  length (forecast_values model n w) = n.
Proof.
  unfold forecast_values. rewrite length_map. apply forecast_windows_length.
Qed.

Lemma forecast_windows_first (n : nat) (w x : list float) :
  forecast_windows model n w !! 0%nat = Some x -> x = w.
Proof. destruct n; cbn; [discriminate | intros [= <-]; reflexivity]. Qed.

(** Strictly first in, first out: consecutive windows differ by one shift. *)
Lemma forecast_windows_shift (n : nat) :
  forall (w x x' : list float) (k : nat),
    forecast_windows model n w !! k = Some x ->
    forecast_windows model n w !! S k = Some x' ->
    x' = next_window model x.
Proof.
  induction n as [| n IH]; intros w x x' k; [discriminate |].
  destruct k as [| k]; cbn.
  - intros [= <-] Hx'. apply forecast_windows_first in Hx'. assumption.
  - apply IH.
Qed.

Lemma forecast_values_lookup (n k : nat) (w x : list float) :
  forecast_windows model n w !! k = Some x ->
  forecast_values model n w !! k = Some (model x).
Proof.
  intros Hx. unfold forecast_values. rewrite list_lookup_fmap, Hx. reflexivity.
Qed.

End Forecaster.

(** ** What [predict_sequence] and [predict_from_csv] return *)

Lemma predict_sequence_checked (model : Model) (config : ModelConfig)
    (initial_sequence : list float) (steps : Z) :
  len initial_sequence = input_size config ->
  predict_sequence model config initial_sequence steps =
  predict_loop model config (Z.to_nat steps) initial_sequence [].
Proof.
  intros Hlen. unfold predict_sequence.
  rewrite (proj2 (Z.eqb_eq _ _) Hlen). reflexivity.
Qed.

Lemma predict_sequence_returns (model : Model) (config : ModelConfig)
    (initial_sequence : list float) (steps : Z) :
  len initial_sequence = input_size config ->
  1 <= input_size config \/ steps <= 1 ->
  run (predict_sequence model config initial_sequence steps) =
  (Ok (forecast_values model (Z.to_nat steps) initial_sequence),
   forecast_windows model (Z.to_nat steps) initial_sequence).
Proof.
  intros Hlen Hsize. rewrite predict_sequence_checked by assumption.
  unfold run. destruct initial_sequence as [| x w].
  - assert (Hn : (Z.to_nat steps = 0 \/ Z.to_nat steps = 1)%nat)
      by (unfold len in Hlen; cbn in Hlen; lia).
    destruct Hn as [-> | ->]; [reflexivity |].
    rewrite predict_loop_step, predict_single_ok by assumption. reflexivity.
  - rewrite predict_loop_ok by (assumption || discriminate). reflexivity.
Qed.

Lemma predict_sequence_inv (model : Model) (config : ModelConfig)
    (initial_sequence predictions : list float) (steps : Z) :
  returned (predict_sequence model config initial_sequence steps) = Ok predictions ->
  len initial_sequence = input_size config /\
  predictions = forecast_values model (Z.to_nat steps) initial_sequence /\
  calls (predict_sequence model config initial_sequence steps)
    = forecast_windows model (Z.to_nat steps) initial_sequence.
Proof.
  unfold returned, calls, run, predict_sequence.
  destruct (Z.eqb_spec (len initial_sequence) (input_size config)) as [Hlen | Hlen];
    cbn [negb]; [| discriminate].
  intros Hret.
  destruct (predict_loop_calls model config (Z.to_nat steps) initial_sequence [] [])
    as (k & _ & Hlog & _ & Hok).
  destruct (Hok _ Hret) as [-> ->].
  split; [assumption |]. split; [reflexivity | exact Hlog].
Qed.

Lemma predict_from_csv_inv (model : Model) (config : ModelConfig)
    (data : list float) (start_index prediction_steps : Z) (r : Forecast.t) :
  returned (predict_from_csv model config data start_index prediction_steps) = Ok r ->
  start_index + input_size config < len data /\
  exists predictions,
    returned (predict_sequence model config
                (py_slice data start_index (start_index + input_size config))
                prediction_steps) = Ok predictions /\
    r = {| Forecast.initial_sequence :=
             py_slice data start_index (start_index + input_size config);
           Forecast.predictions := predictions;
           Forecast.actual_values :=
             py_slice data (start_index + input_size config)
               (Z.min (start_index + input_size config + prediction_steps) (len data));
           Forecast.start_index := start_index;
           Forecast.prediction_steps := len predictions;
           Forecast.input_size := input_size config |}.
Proof.
  unfold returned, run, predict_from_csv.
  destruct (Z.leb_spec (len data) (start_index + input_size config)) as [Hle | Hlt];
    [discriminate |].
  unfold mbind, M_bind.
  destruct (predict_sequence _ _ _ _ []) as [[e | predictions] log] eqn:Hseq;
    cbn; [discriminate |].
  intros [= <-]. split; [assumption |].
  exists predictions. split; [reflexivity | reflexivity].
Qed.

Lemma len_py_slice {A : Type} (l : list A) (lo hi : Z) :
  0 <= lo -> lo <= hi -> hi <= len l -> len (py_slice l lo hi) = hi - lo.
Proof.
  intros Hlo Hhi Hlen. rewrite py_slice_nonneg by lia.
  unfold len in *. rewrite length_take, length_drop. lia.
Qed.

(** C1 (amended): for an initial sequence of length [input_size] and a
    number of steps [>= 0], with [input_size >= 1] or at most one step,
    [predict_sequence] returns, and the sequence it returns has exactly
    [steps] elements; whenever [predict_from_csv] returns, its [predictions]
    field has exactly [steps] elements and [prediction_steps] is [steps]. *)
Theorem predict_sequence_length :
  forall (model : Model) (config : ModelConfig)
         (initial_sequence : list float) (steps : Z),
    len initial_sequence = input_size config ->
    0 <= steps ->
    1 <= input_size config \/ steps <= 1 ->
    (exists predictions,
       returned (predict_sequence model config initial_sequence steps)
         = Ok predictions /\
       len predictions = steps) /\
    (forall (data : list float) (start_index : Z) (r : Forecast.t),
       returned (predict_from_csv model config data start_index steps) = Ok r ->
       len (Forecast.predictions r) = steps /\
       Forecast.prediction_steps r = steps).
Proof.
  intros model config initial_sequence steps Hlen Hsteps Hsize. split.
  - exists (forecast_values model (Z.to_nat steps) initial_sequence).
    unfold returned. rewrite predict_sequence_returns by assumption.
    split; [reflexivity |].
    unfold len. rewrite forecast_values_length. lia.
  - intros data start_index r Hr.
    apply predict_from_csv_inv in Hr as (_ & predictions & Hseq & ->).
    apply predict_sequence_inv in Hseq as (_ & -> & _). cbn.
    unfold len. rewrite forecast_values_length. lia.
Qed.

Lemma predict_sequence_length_witness :
  (exists predictions,
     returned (predict_sequence (fun _ => 0%float) {| input_size := 2 |}
                 [1%float; 2%float] 3) = Ok predictions /\
     len predictions = 3) /\
  (forall (data : list float) (start_index : Z) (r : Forecast.t),
     returned (predict_from_csv (fun _ => 0%float) {| input_size := 2 |}
                 data start_index 3) = Ok r ->
     len (Forecast.predictions r) = 3 /\ Forecast.prediction_steps r = 3).
Proof.
  apply (predict_sequence_length (fun _ => 0%float) {| input_size := 2 |}
           [1%float; 2%float] 3).
  - reflexivity.
  - lia.
  - left. simpl. lia.
Defined.

(** C1 as stated fails for an empty window: with [input_size = 0] the
    empty initial sequence has the required length, yet the second step
    finds a window of one element and raises. *)
Lemma predict_sequence_length_counterexample :
  let config := {| input_size := 0 |} in
  let model : Model := fun _ => 0%float in
  len (@nil float) = input_size config /\
  0 <= 2 /\
  returned (predict_sequence model config [] 2) = Raise (ValueError InputLength).
Proof. cbn. split; [reflexivity |]. split; [lia | reflexivity]. Qed.

(** C2: every window the model is called with during a forecast has
    exactly [input_size] elements; the first one is the initial sequence;
    each later one is the window before it without its first element and
    with the model's answer for that window appended; and when the forecast
    returns, it has made [steps] calls and its [k]-th prediction is the
    model's answer for the [k]-th window, so that window [k+1] is window [k]
    shifted by [predictions[k]]. *)
Theorem forecast_windows_fifo :
  forall (model : Model) (config : ModelConfig)
         (initial_sequence : list float) (steps : Z),
    let log := calls (predict_sequence model config initial_sequence steps) in
    (forall (k : nat) (w : list float),
       log !! k = Some w -> len w = input_size config) /\
    (forall w : list float, log !! 0%nat = Some w -> w = initial_sequence) /\
    (forall (k : nat) (w w' : list float),
       log !! k = Some w -> log !! S k = Some w' ->
       w' = drop 1 w ++ [model w]) /\
    (forall predictions : list float,
       returned (predict_sequence model config initial_sequence steps)
         = Ok predictions ->
       length log = Z.to_nat steps /\
       (forall (k : nat) (w : list float),
          log !! k = Some w -> predictions !! k = Some (model w)) /\
       (forall (k : nat) (w w' : list float) (p : float),
          log !! k = Some w -> log !! S k = Some w' -> predictions !! k = Some p ->
          w' = drop 1 w ++ [p])).
Proof.
  intros model config initial_sequence steps log.
  assert (Hlog : exists k : nat,
             log = forecast_windows model k initial_sequence /\
             Forall (fun w => len w = input_size config) log).
  { unfold log, calls, run, predict_sequence.
    destruct (negb (len initial_sequence =? input_size config)).
    - exists O. split; [reflexivity | constructor].
    - destruct (predict_loop_calls model config (Z.to_nat steps)
                  initial_sequence [] []) as (k & _ & Hk & Hall & _).
      exists k. rewrite Hk. split; [reflexivity | exact Hall]. }
  destruct Hlog as (k0 & Hk0 & Hall).
  split; [| split; [| split]].
  - intros k w Hw. rewrite Forall_lookup in Hall. exact (Hall k w Hw).
  - intros w. rewrite Hk0. apply forecast_windows_first.
  - intros k w w'. rewrite Hk0. apply forecast_windows_shift.
  - intros predictions Hret.
    apply predict_sequence_inv in Hret as (_ & -> & Hcalls).
    fold log in Hcalls.
    split; [rewrite Hcalls; apply forecast_windows_length |].
    split.
    + intros k w. rewrite Hcalls. apply forecast_values_lookup.
    + intros k w w' p Hw Hw'. rewrite Hcalls in Hw, Hw'.
      rewrite (forecast_values_lookup _ _ _ _ _ Hw). intros [= <-].
      exact (forecast_windows_shift _ _ _ _ _ _ Hw Hw').
Qed.

(** C3 (amended): [predict_from_csv] raises the start-index error if and
    only if [start_index + input_size >= len(data)]; and at the boundary
    [start_index + input_size = len(data) - 1], for [start_index >= 0], a
    non-negative [input_size] that is at least 1 whenever more than one step
    is requested, and [steps >= 1], it returns a result whose
    [actual_values] has exactly one element. *)
Theorem predict_from_csv_range :
  forall (model : Model) (config : ModelConfig) (data : list float)
         (start_index steps : Z),
    (returned (predict_from_csv model config data start_index steps)
       = Raise (ValueError StartIndexTooLarge)
     <-> start_index + input_size config >= len data) /\
    (0 <= start_index ->
     0 <= input_size config ->
     1 <= input_size config \/ steps <= 1 ->
     start_index + input_size config = len data - 1 ->
     1 <= steps ->
     exists r : Forecast.t,
       returned (predict_from_csv model config data start_index steps) = Ok r /\
       len (Forecast.actual_values r) = 1).
Proof.
  intros model config data start_index steps. split.
  - unfold returned, run, predict_from_csv.
    destruct (Z.leb_spec (len data) (start_index + input_size config)) as [Hle | Hlt].
    + split; [lia | reflexivity].
    + split; [| lia].
      unfold mbind, M_bind.
      destruct (predict_sequence _ _ _ _ []) as [[e | predictions] log] eqn:Hseq;
        cbn; [| discriminate].
      intros [= ->]. exfalso.
      assert (He : fst (predict_sequence model config
                          (py_slice data start_index (start_index + input_size config))
                          steps [])
                   = Raise (ValueError StartIndexTooLarge))
        by (rewrite Hseq; reflexivity).
      unfold predict_sequence in He.
      destruct (negb _) in He; [discriminate |].
      apply predict_loop_raises in He. discriminate.
  - intros Hstart Hsize Hsteps Hedge Hone.
    assert (Hinit : len (py_slice data start_index (start_index + input_size config))
                    = input_size config)
      by (rewrite len_py_slice; lia).
    pose proof (predict_sequence_returns model config _ steps Hinit Hsteps) as Hrun.
    unfold returned, run, predict_from_csv in *.
    destruct (Z.leb_spec (len data) (start_index + input_size config)); [lia |].
    unfold mbind, M_bind. rewrite Hrun. cbn.
    eexists. split; [reflexivity |]. cbn.
    rewrite Z.min_r by lia. rewrite len_py_slice; lia.
Qed.

Lemma predict_from_csv_range_witness :
  exists r : Forecast.t,
    returned (predict_from_csv (fun _ => 0%float) {| input_size := 2 |}
                [1%float; 2%float; 3%float] 0 5) = Ok r /\
    len (Forecast.actual_values r) = 1.
Proof.
  apply (proj2 (predict_from_csv_range (fun _ => 0%float) {| input_size := 2 |}
                  [1%float; 2%float; 3%float] 0 5)).
  - lia.
  - simpl. lia.
  - left. simpl. lia.
  - reflexivity.
  - lia.
Defined.

(** C3 as stated fails at the boundary for an empty window: the range
    check passes, and the forecast then raises at its second step. *)
Lemma predict_from_csv_range_counterexample :
  let config := {| input_size := 0 |} in
  let model : Model := fun _ => 0%float in
  let data := [1%float] in
  0 <= 0 /\
  0 + input_size config = len data - 1 /\
  1 <= 2 /\
  returned (predict_from_csv model config data 0 2) = Raise (ValueError InputLength).
Proof.
  cbn. split; [lia |]. split; [reflexivity |]. split; [lia | reflexivity].
Qed.

(** ** Truncation to the common prefix *)

Lemma evaluate_predictions_truncates (np : numpy_stats)
    (predictions actual_values : list float) :
  let n := Nat.min (length predictions) (length actual_values) in
  evaluate_predictions np predictions actual_values =
  evaluate_predictions np (take n predictions) (take n actual_values).
Proof.
  intros n. unfold evaluate_predictions.
  assert (Hmin : Z.min (len predictions) (len actual_values) = Z.of_nat n)
    by (unfold len, n; lia).
  assert (Hmin' : Z.min (len (take n predictions)) (len (take n actual_values))
                  = Z.of_nat n)
    by (unfold len, n; rewrite !length_take; lia).
  rewrite Hmin, Hmin', !py_slice_to_min, !take_take, Nat.min_id.
  reflexivity.
Qed.

Lemma evaluate_predictions_samples (np : numpy_stats)
    (predictions actual_values : list float) (m : Metrics.t) :
  evaluate_predictions np predictions actual_values = Ok m ->
  Metrics.samples m = Z.min (len predictions) (len actual_values).
Proof.
  unfold evaluate_predictions, and_then.
  repeat (match goal with
          | |- context [match ?r with inl _ => _ | inr _ => _ end] =>
              destruct r; [discriminate |]
          end).
  intros [= <-]. reflexivity.
Qed.

(** ** The forecaster on the heap: what it does to its argument *)

Section HeapForecaster.
Variable model : Model.
Variable config : ModelConfig.

Lemma heap_predict_single_eq (σ : HeapModel.store) (l : HeapModel.loc) (w : list float) :
  σ !! l = Some w ->
  HeapModel.predict_single model config l σ =
  if negb (len w =? input_size config)
  then (Raise (ValueError InputLength), σ)
  else (Ok (model w), σ).
Proof.
  intros Hl. unfold HeapModel.predict_single, HeapModel.load, mbind, HeapModel.H_bind.
  rewrite (lookup_total_correct _ _ _ Hl). unfold Ok at 1.
  destruct (negb (len w =? input_size config)); reflexivity.
Qed.

Lemma heap_predict_loop_step (n : nat) (σ : HeapModel.store) (lc lp : HeapModel.loc) :
  HeapModel.predict_loop model config (S n) lc lp σ =
  match HeapModel.predict_single model config lc σ with
  | (inl e, σ') => (Raise e, σ')
  | (inr p, σ1) =>
      let σ2 := <[lp := σ1 !!! lp ++ [p]]> σ1 in
      let l1 := fresh (dom σ2) in
      let σ3 := <[l1 := py_slice_from (σ2 !!! lc) 1]> σ2 in
      let l2 := fresh (dom σ3) in
      let σ4 := <[l2 := [p]]> σ3 in
      let l3 := fresh (dom σ4) in
      let σ5 := <[l3 := σ4 !!! l1 ++ σ4 !!! l2]> σ4 in
      HeapModel.predict_loop model config n l3 lp σ5
  end.
Proof.
  cbn [HeapModel.predict_loop]. unfold mbind at 1, HeapModel.H_bind at 1.
  destruct (HeapModel.predict_single model config lc σ) as [[e | p] σ1]; reflexivity.
Qed.

Lemma fresh_lookup (σ : HeapModel.store) : σ !! fresh (dom σ) = None.
Proof. apply not_elem_of_dom, is_fresh. Qed.

Lemma predict_loop_refines (n : nat) :
  forall (σ : HeapModel.store) (lc lp : HeapModel.loc) (w ps : list float) (log : call_log),
    σ !! lc = Some w -> σ !! lp = Some ps -> lc <> lp ->
    (forall l, is_Some (σ !! l) -> l <> lp ->
       snd (HeapModel.predict_loop model config n lc lp σ) !! l = σ !! l) /\
    match fst (predict_loop model config n w ps log) with
    | inl e => fst (HeapModel.predict_loop model config n lc lp σ) = Raise e
    | inr preds =>
        fst (HeapModel.predict_loop model config n lc lp σ) = Ok tt /\
        snd (HeapModel.predict_loop model config n lc lp σ) !! lp = Some preds
    end.
Proof.
  induction n as [| n IH]; intros σ lc lp w ps log Hlc Hlp Hne.
  - cbn. split; [reflexivity | split; [reflexivity | assumption]].
  - rewrite predict_loop_step, heap_predict_loop_step.
    rewrite (heap_predict_single_eq σ lc w Hlc).
    destruct (Z.eq_dec (len w) (input_size config)) as [Hw | Hw].
    + rewrite predict_single_ok by assumption.
      rewrite (proj2 (Z.eqb_eq _ _) Hw). cbn [negb]. unfold Ok at 1 2.
      cbv zeta.
      set (p := model w).
      set (σ2 := <[lp := σ !!! lp ++ [p]]> σ).
      set (l1 := fresh (dom σ2)).
      set (σ3 := <[l1 := py_slice_from (σ2 !!! lc) 1]> σ2).
      set (l2 := fresh (dom σ3)).
      set (σ4 := <[l2 := [p]]> σ3).
      set (l3 := fresh (dom σ4)).
      set (σ5 := <[l3 := σ4 !!! l1 ++ σ4 !!! l2]> σ4).
      assert (H2 : forall l, l <> lp -> σ2 !! l = σ !! l)
        by (intros l Hl; unfold σ2; rewrite lookup_insert_ne; congruence).
      assert (H2p : σ2 !! lp = Some (ps ++ [p])).
      { unfold σ2. rewrite lookup_insert_eq, (lookup_total_correct _ _ _ Hlp). reflexivity. }
      assert (H3 : forall l, is_Some (σ2 !! l) -> σ3 !! l = σ2 !! l).
      { intros l Hl. unfold σ3. rewrite lookup_insert_ne; [reflexivity |].
        intros <-. revert Hl. unfold l1. rewrite fresh_lookup. apply is_Some_None. }
      assert (H31 : σ3 !! l1 = Some (py_slice_from w 1)).
      { unfold σ3. rewrite lookup_insert_eq.
        rewrite (lookup_total_correct σ2 lc w); [reflexivity |].
        rewrite H2; assumption. }
      assert (H4 : forall l, is_Some (σ3 !! l) -> σ4 !! l = σ3 !! l).
      { intros l Hl. unfold σ4. rewrite lookup_insert_ne; [reflexivity |].
        intros <-. revert Hl. unfold l2. rewrite fresh_lookup. apply is_Some_None. }
      assert (H42 : σ4 !! l2 = Some [p]) by (unfold σ4; apply lookup_insert_eq).
      assert (H5 : forall l, is_Some (σ4 !! l) -> σ5 !! l = σ4 !! l).
      { intros l Hl. unfold σ5. rewrite lookup_insert_ne; [reflexivity |].
        intros <-. revert Hl. unfold l3. rewrite fresh_lookup. apply is_Some_None. }
      assert (H41 : σ4 !! l1 = Some (py_slice_from w 1))
        by (rewrite H4; rewrite H31; eauto).
      assert (H53 : σ5 !! l3 = Some (py_slice_from w 1 ++ [p])).
      { unfold σ5. rewrite lookup_insert_eq.
        rewrite (lookup_total_correct _ _ _ H41), (lookup_total_correct _ _ _ H42).
        reflexivity. }
      assert (Hkeep : forall l, is_Some (σ2 !! l) -> σ5 !! l = σ2 !! l).
      { intros l Hl. rewrite H5, H4, H3; try reflexivity; try assumption.
        - rewrite H3; assumption.
        - rewrite H4, H3; try assumption. rewrite H3; assumption. }
      assert (H5p : σ5 !! lp = Some (ps ++ [p])) by (rewrite Hkeep; rewrite H2p; eauto).
      assert (Hne' : l3 <> lp).
      { intros Heq. pose proof (fresh_lookup σ4) as Hf. fold l3 in Hf.
        rewrite Heq, H4, H3, H2p in Hf; [discriminate | rewrite H2p; eauto |].
        rewrite H3; rewrite H2p; eauto. }
      destruct (IH σ5 l3 lp (py_slice_from w 1 ++ [p]) (ps ++ [p]) (log ++ [w])
                  H53 H5p Hne') as [Hframe Hres].
      split.
      * intros l Hl Hlne. rewrite Hframe.
        -- rewrite Hkeep; [apply H2; assumption |]. rewrite H2; assumption.
        -- rewrite Hkeep; rewrite H2; assumption.
        -- assumption.
      * exact Hres.
    + rewrite predict_single_raises by assumption.
      rewrite (proj2 (Z.eqb_neq _ _) Hw). cbn. split; reflexivity.
Qed.

Lemma heap_predict_sequence_eq (σ : HeapModel.store) (init : HeapModel.loc) (steps : Z) :
  HeapModel.predict_sequence model config init steps σ =
  if negb (len (σ !!! init) =? input_size config)
  then (Raise (ValueError InitialLength), σ)
  else
    let lp := fresh (dom σ) in
    let σ1 := <[lp := []]> σ in
    let lc := fresh (dom σ1) in
    let σ2 := <[lc := σ1 !!! init]> σ1 in
    match HeapModel.predict_loop model config (Z.to_nat steps) lc lp σ2 with
    | (inl e, σ') => (Raise e, σ')
    | (inr _, σ') => (Ok lp, σ')
    end.
Proof.
  unfold HeapModel.predict_sequence, HeapModel.load, mbind at 1, HeapModel.H_bind at 1.
  unfold Ok at 1.
  destruct (negb (len (σ !!! init) =? input_size config)); [reflexivity |].
  unfold mbind at 1, HeapModel.H_bind at 1. cbn [HeapModel.alloc Ok].
  unfold mbind at 1, HeapModel.H_bind at 1.
  unfold HeapModel.list_copy, HeapModel.load, mbind at 1, HeapModel.H_bind at 1.
  cbn [HeapModel.alloc Ok]. cbv zeta.
  unfold mbind at 1, HeapModel.H_bind at 1.
  destruct (HeapModel.predict_loop _ _ _ _ _ _) as [[e | []] σ']; reflexivity.
Qed.

Lemma heap_predict_sequence_spec (σ : HeapModel.store) (init : HeapModel.loc)
    (v : list float) (steps : Z) :
  σ !! init = Some v ->
  (forall l, is_Some (σ !! l) ->
     snd (HeapModel.predict_sequence model config init steps σ) !! l = σ !! l) /\
  match returned (predict_sequence model config v steps) with
  | inl e => fst (HeapModel.predict_sequence model config init steps σ) = Raise e
  | inr preds =>
      exists lp : HeapModel.loc,
        fst (HeapModel.predict_sequence model config init steps σ) = Ok lp /\
        σ !! lp = None /\
        snd (HeapModel.predict_sequence model config init steps σ) !! lp = Some preds
  end.
Proof.
  intros Hinit. rewrite heap_predict_sequence_eq.
  rewrite (lookup_total_correct _ _ _ Hinit).
  unfold returned, run, predict_sequence.
  destruct (negb (len v =? input_size config)).
  { cbn. split; reflexivity. }
  cbv zeta.
  set (lp := fresh (dom σ)).
  set (σ1 := <[lp := []]> σ).
  set (lc := fresh (dom σ1)).
  set (σ2 := <[lc := σ1 !!! init]> σ1).
  assert (Hlp : σ !! lp = None) by apply fresh_lookup.
  assert (H1 : forall l, is_Some (σ !! l) -> σ1 !! l = σ !! l).
  { intros l Hl. unfold σ1. rewrite lookup_insert_ne; [reflexivity |].
    intros <-. rewrite Hlp in Hl. exact (is_Some_None Hl). }
  assert (H1p : σ1 !! lp = Some []) by (unfold σ1; apply lookup_insert_eq).
  assert (Hlc : σ1 !! lc = None) by apply fresh_lookup.
  assert (H2 : forall l, is_Some (σ1 !! l) -> σ2 !! l = σ1 !! l).
  { intros l Hl. unfold σ2. rewrite lookup_insert_ne; [reflexivity |].
    intros <-. rewrite Hlc in Hl. exact (is_Some_None Hl). }
  assert (H2c : σ2 !! lc = Some v).
  { unfold σ2. rewrite lookup_insert_eq.
    rewrite (lookup_total_correct σ1 init v); [reflexivity |].
    rewrite H1; eauto. }
  assert (H2p : σ2 !! lp = Some []) by (rewrite H2; rewrite H1p; eauto).
  assert (Hne : lc <> lp) by (intros Heq; rewrite Heq, H1p in Hlc; discriminate).
  destruct (predict_loop_refines (Z.to_nat steps) σ2 lc lp v [] [] H2c H2p Hne)
    as [Hframe Hres].
  destruct (HeapModel.predict_loop model config (Z.to_nat steps) lc lp σ2)
    as [[e | []] σ'] eqn:Hloop; cbn [fst snd] in *.
  - split.
    + intros l Hl. rewrite Hframe.
      * rewrite H2, H1; try reflexivity; try assumption. rewrite H1; assumption.
      * rewrite H2, H1; try assumption. rewrite H1; assumption.
      * intros ->. rewrite Hlp in Hl. exact (is_Some_None Hl).
    + destruct (fst (predict_loop model config (Z.to_nat steps) v [] []))
        as [e' | preds]; [injection Hres as -> | destruct Hres; discriminate].
      reflexivity.
  - split.
    + intros l Hl. rewrite Hframe.
      * rewrite H2, H1; try reflexivity; try assumption. rewrite H1; assumption.
      * rewrite H2, H1; try assumption. rewrite H1; assumption.
      * intros ->. rewrite Hlp in Hl. exact (is_Some_None Hl).
    + destruct (fst (predict_loop model config (Z.to_nat steps) v [] []))
        as [e' | preds]; [discriminate |].
      destruct Hres as [_ Hres]. exists lp. split; [reflexivity |].
      split; assumption.
Qed.

End HeapForecaster.

(** C10: [predict_sequence] leaves the list its caller passes unchanged
    (and every other list that existed before the call): after the call the
    caller's reference denotes the same elements in the same order.  The
    list returned holds what the forecast on the values computes, so a
    second call with the same arguments returns a list with the same
    elements, and raises the same exception when the first one raised. *)
Theorem predict_sequence_preserves_argument :
  forall (model : Model) (config : ModelConfig) (σ : HeapModel.store)
         (initial_sequence : HeapModel.loc) (v : list float) (steps : Z),
    σ !! initial_sequence = Some v ->
    let first := HeapModel.predict_sequence model config initial_sequence steps σ in
    let second :=
      HeapModel.predict_sequence model config initial_sequence steps (snd first) in
    snd first !! initial_sequence = Some v /\
    (forall l, is_Some (σ !! l) -> snd first !! l = σ !! l) /\
    match fst first, fst second with
    | inr l1, inr l2 =>
        exists predictions : list float,
          returned (predict_sequence model config v steps) = Ok predictions /\
          snd first !! l1 = Some predictions /\
          snd second !! l1 = Some predictions /\
          snd second !! l2 = Some predictions
    | inl e1, inl e2 =>
        e1 = e2 /\ returned (predict_sequence model config v steps) = Raise e1
    | _, _ => False
    end.
Proof.
  intros model config σ init v steps Hinit first second.
  destruct (heap_predict_sequence_spec model config σ init v steps Hinit)
    as [Hframe Hres]. fold first in Hframe, Hres.
  assert (Hinit' : snd first !! init = Some v)
    by (rewrite Hframe; [assumption | eauto]).
  destruct (heap_predict_sequence_spec model config (snd first) init v steps Hinit')
    as [Hframe' Hres']. fold second in Hframe', Hres'.
  split; [assumption |]. split; [assumption |].
  destruct (returned (predict_sequence model config v steps)) as [e | predictions].
  - rewrite Hres, Hres'. split; reflexivity.
  - destruct Hres as (l1 & -> & _ & H1).
    destruct Hres' as (l2 & -> & _ & H2).
    exists predictions. split; [reflexivity |]. split; [assumption |].
    split; [| assumption]. rewrite Hframe'; [assumption | eauto].
Qed.

Lemma predict_sequence_preserves_argument_witness :
  let model : Model := fun _ => 0%float in
  let config := {| input_size := 2 |} in
  let σ : HeapModel.store := {[ 1%positive := [1%float; 2%float] ]} in
  snd (HeapModel.predict_sequence model config 1%positive 3 σ) !! 1%positive
    = Some [1%float; 2%float].
Proof.
  intros model config σ.
  exact (proj1 (predict_sequence_preserves_argument model config σ 1%positive
                  [1%float; 2%float] 3 (lookup_singleton_eq _ _))).
Defined.

(** ** Scores and verdict *)

Lemma metric_score_range (value excellent good acceptable : float) :
  0 <= _get_metric_score value excellent good acceptable <= 3.
Proof.
  unfold _get_metric_score.
  destruct (excellent <=? value)%float; [lia |].
  destruct (good <=? value)%float; [lia |].
  destruct (acceptable <=? value)%float; lia.
Qed.

(** The verdict fields of an assessment are those of [verdict] at its
    [overall_score]. *)
Lemma assess_accuracy_verdict
    (correlation r_squared normalized_rmse mae data_range : float) :
  let a := _assess_accuracy correlation r_squared normalized_rmse mae data_range in
  (Assessment.level a, Assessment.acceptable a, Assessment.recommendation a)
  = verdict (Assessment.overall_score a).
Proof.
  cbv zeta. unfold _assess_accuracy. cbv zeta.
  destruct (verdict _) as [[level acceptable] recommendation] eqn:Hv.
  cbn [Assessment.level Assessment.acceptable Assessment.recommendation
       Assessment.overall_score].
  symmetry. exact Hv.
Qed.

(** The score fields of an assessment, as the source computes them. *)
Lemma assess_accuracy_scores
    (correlation r_squared normalized_rmse mae data_range : float) :
  let a := _assess_accuracy correlation r_squared normalized_rmse mae data_range in
  let mae_ratio :=
    if negb (data_range =? 0)%float then (mae / data_range)%float else infinity in
  Assessment.mae_ratio a = mae_ratio /\
  Assessment.correlation_score a =
    _get_metric_score (PrimFloat.abs correlation)
      (Thresholds.correlation excellent_thresholds)
      (Thresholds.correlation good_thresholds)
      (Thresholds.correlation acceptable_thresholds) /\
  Assessment.r_squared_score a =
    _get_metric_score r_squared
      (Thresholds.r_squared excellent_thresholds)
      (Thresholds.r_squared good_thresholds)
      (Thresholds.r_squared acceptable_thresholds) /\
  Assessment.normalized_rmse_score a =
    _get_metric_score (1 - normalized_rmse)%float
      (1 - Thresholds.normalized_rmse excellent_thresholds)%float
      (1 - Thresholds.normalized_rmse good_thresholds)%float
      (1 - Thresholds.normalized_rmse acceptable_thresholds)%float /\
  Assessment.mae_ratio_score a =
    _get_metric_score (1 - mae_ratio)%float
      (1 - Thresholds.mae_ratio excellent_thresholds)%float
      (1 - Thresholds.mae_ratio good_thresholds)%float
      (1 - Thresholds.mae_ratio acceptable_thresholds)%float /\
  Assessment.overall_score a =
    Z.min (Z.min (Z.min (Assessment.correlation_score a)
                        (Assessment.r_squared_score a))
                 (Assessment.normalized_rmse_score a))
          (Assessment.mae_ratio_score a).
Proof.
  cbv zeta. unfold _assess_accuracy. cbv zeta.
  destruct (verdict _) as [[level acceptable] recommendation].
  cbn [Assessment.mae_ratio Assessment.correlation_score
       Assessment.r_squared_score Assessment.normalized_rmse_score
       Assessment.mae_ratio_score Assessment.overall_score].
  repeat split.
Qed.

Lemma levels_distinct :
  Excellent <> Good /\ Excellent <> Acceptable /\ Excellent <> Insufficient /\
  Good <> Acceptable /\ Good <> Insufficient /\ Acceptable <> Insufficient.
Proof. repeat split; discriminate. Qed.

(** C8: [overall_score] is the minimum of the four per-metric scores (it
    is below each of them and equal to one of them), all five scores lie in
    [0..3], and level, [acceptable] and recommendation are a function of
    [overall_score] alone: 3 gives Excellent, 2 Good, 1 Acceptable, 0
    Insufficient, with [acceptable = true] exactly when
    [overall_score >= 1]. *)
Theorem assess_accuracy_overall_score :
  forall correlation r_squared normalized_rmse mae data_range : float,
    let a := _assess_accuracy correlation r_squared normalized_rmse mae data_range in
    let c := Assessment.correlation_score a in
    let r := Assessment.r_squared_score a in
    let n := Assessment.normalized_rmse_score a in
    let m := Assessment.mae_ratio_score a in
    let o := Assessment.overall_score a in
    o = Z.min (Z.min (Z.min c r) n) m /\
    (o <= c /\ o <= r /\ o <= n /\ o <= m) /\
    (o = c \/ o = r \/ o = n \/ o = m) /\
    (0 <= c <= 3 /\ 0 <= r <= 3 /\ 0 <= n <= 3 /\ 0 <= m <= 3 /\ 0 <= o <= 3) /\
    (Assessment.level a, Assessment.acceptable a, Assessment.recommendation a)
      = verdict o /\
    (o = 3 -> Assessment.level a = Excellent /\ Assessment.acceptable a = true) /\
    (o = 2 -> Assessment.level a = Good /\ Assessment.acceptable a = true) /\
    (o = 1 -> Assessment.level a = Acceptable /\ Assessment.acceptable a = true) /\
    (o = 0 -> Assessment.level a = Insufficient /\ Assessment.acceptable a = false) /\
    (Assessment.acceptable a = true <-> 1 <= o).
Proof.
  intros correlation r_squared normalized_rmse mae data_range a c r n m o.
  pose proof (assess_accuracy_verdict correlation r_squared normalized_rmse
                mae data_range) as Hv.
  cbv zeta in Hv. fold a in Hv. fold o in Hv.
  destruct (assess_accuracy_scores correlation r_squared normalized_rmse
              mae data_range) as (_ & Hc & Hr & Hn & Hm & Ho).
  fold a in Hc, Hr, Hn, Hm, Ho. fold c in Hc, Ho. fold r in Hr, Ho.
  fold n in Hn, Ho. fold m in Hm, Ho. fold o in Ho.
  pose proof (metric_score_range (PrimFloat.abs correlation)
                (Thresholds.correlation excellent_thresholds)
                (Thresholds.correlation good_thresholds)
                (Thresholds.correlation acceptable_thresholds)) as Hc'.
  rewrite <- Hc in Hc'.
  pose proof (metric_score_range r_squared
                (Thresholds.r_squared excellent_thresholds)
                (Thresholds.r_squared good_thresholds)
                (Thresholds.r_squared acceptable_thresholds)) as Hr'.
  rewrite <- Hr in Hr'.
  match type of Hn with _ = ?s => pose proof (metric_score_range _ _ _ _ : 0 <= s <= 3) as Hn' end.
  rewrite <- Hn in Hn'.
  match type of Hm with _ = ?s => pose proof (metric_score_range _ _ _ _ : 0 <= s <= 3) as Hm' end.
  rewrite <- Hm in Hm'.
  clear Hc Hr Hn Hm.
  split; [exact Ho |].
  split; [lia |]. split; [lia |]. split; [lia |].
  split; [exact Hv |].
  assert (Hcases : o = 0 \/ o = 1 \/ o = 2 \/ o = 3) by lia.
  clearbody o a.
  destruct Hcases as [-> | [-> | [-> | ->]]];
    cbn in Hv; injection Hv as Hl Ha _; rewrite Hl, Ha;
    repeat split; intros; try lia; try discriminate; reflexivity.
Qed.

(** ** Binary64 facts *)

Lemma iter_pos_nat {A : Type} (f : A -> A) (p : positive) (x : A) :
  SpecFloat.iter_pos f p x = Nat.iter (Pos.to_nat p) f x.
Proof.
  revert x. induction p as [p IH | p IH |]; intros x; cbn [SpecFloat.iter_pos].
  - rewrite !IH, Pos2Nat.inj_xI.
    replace (S (2 * Pos.to_nat p)) with (Pos.to_nat p + (Pos.to_nat p + 1))%nat by lia.
    rewrite !Nat.iter_add. reflexivity.
  - rewrite !IH, Pos2Nat.inj_xO.
    replace (2 * Pos.to_nat p)%nat with (Pos.to_nat p + Pos.to_nat p)%nat by lia.
    rewrite Nat.iter_add. reflexivity.
  - reflexivity.
Qed.





Lemma Zdigits2_pos (m : Z) : 0 < m -> 0 < Zdigits2 m.
Proof. destruct m; cbn; lia. Qed.









(** ** Metrics of a forecast that equals the ground truth *)









(** The fuel [np_sum] gives is enough: with any fuel of at least the
    length the sum is the same. *)
Lemma pairwise_sum_fuel (fuel : nat) :
  forall (fuel' : nat) (a : list float),
    (length a <= fuel)%nat -> (length a <= fuel')%nat ->
    pairwise_sum fuel a = pairwise_sum fuel' a.
Proof.
  induction fuel as [| fuel IH]; intros fuel' a Hf Hf'.
  - destruct a; [| cbn in Hf; lia]. destruct fuel'; reflexivity.
  - destruct fuel' as [| fuel'].
    + destruct a; [reflexivity | cbn in Hf'; lia].
    + cbn [pairwise_sum].
      destruct (Nat.ltb_spec (length a) 8); [reflexivity |].
      destruct (Nat.leb_spec (length a) 128); [reflexivity |].
      set (n2 := (length a / 2 - (length a / 2) mod 8)%nat).
      assert (Hn2 : (0 < n2 < length a)%nat).
      { unfold n2.
        pose proof (Nat.mod_upper_bound (length a / 2) 8 ltac:(lia)).
        pose proof (Nat.div_lt (length a) 2 ltac:(lia) ltac:(lia)).
        assert (64 <= length a / 2)%nat
          by (apply Nat.div_le_lower_bound; lia).
        lia. }
      rewrite (IH fuel' (take n2 a)), (IH fuel' (drop n2 a));
        rewrite ?length_take, ?length_drop; try lia.
      reflexivity.
Qed.


(** ** The fields of the metrics record *)

Lemma np_max_ok (a : list float) : a <> [] -> exists v, np_max a = Ok v.
Proof. destruct a; [congruence | eexists; reflexivity]. Qed.

Lemma np_min_ok (a : list float) : a <> [] -> exists v, np_min a = Ok v.
Proof. destruct a; [congruence | eexists; reflexivity]. Qed.

Lemma np_sub_length (a b : list float) :
  length (np_sub a b) = Nat.min (length a) (length b).
Proof. unfold np_sub. apply length_zip_with. Qed.

(** With at least one common sample [evaluate_predictions] returns, and
    its fields are the following functions of the truncated inputs. *)
Lemma evaluate_predictions_fields (np : numpy_stats)
    (predictions actual_values : list float) :
  let n := Nat.min (length predictions) (length actual_values) in
  let pred := take n predictions in
  let actual := take n actual_values in
  let errors := np_sub pred actual in
  (1 <= n)%nat ->
  exists (m : Metrics.t) (actual_max actual_min : float),
    evaluate_predictions np predictions actual_values = Ok m /\
    np_max actual = Ok actual_max /\
    np_min actual = Ok actual_min /\
    np_max (np_abs errors) = Ok (Metrics.max_error m) /\
    np_min (np_abs errors) = Ok (Metrics.min_error m) /\
    Metrics.mse m = np_mean (np_square errors) /\
    Metrics.mae m = np_mean (np_abs errors) /\
    Metrics.rmse m = PrimFloat.sqrt (Metrics.mse m) /\
    Metrics.correlation m =
      (if (1 <? n)%nat then np_corrcoef np pred actual else 0%float) /\
    Metrics.r_squared m =
      (if negb (ss_tot_of actual =? 0)%float
       then (1 - np_sum (np_square errors) / ss_tot_of actual)%float
       else 0%float) /\
    Metrics.data_range m = (actual_max - actual_min)%float /\
    Metrics.normalized_rmse m =
      (if negb (Metrics.data_range m =? 0)%float
       then (Metrics.rmse m / Metrics.data_range m)%float
       else infinity) /\
    Metrics.samples m = Z.of_nat n /\
    Metrics.accuracy_assessment m =
      _assess_accuracy (Metrics.correlation m) (Metrics.r_squared m)
        (Metrics.normalized_rmse m) (Metrics.mae m) (Metrics.data_range m).
Proof.
  intros n pred actual errors Hn.
  assert (Hmin : Z.min (len predictions) (len actual_values) = Z.of_nat n)
    by (unfold len, n; lia).
  assert (Hpred : length pred = n) by (unfold pred, n; rewrite length_take; lia).
  assert (Hactual : length actual = n)
    by (unfold actual, n; rewrite length_take; lia).
  assert (Herr : length (np_abs errors) = n).
  { unfold np_abs, errors. rewrite length_map, np_sub_length. lia. }
  destruct (np_max_ok actual) as [actual_max Hamax];
    [intros E; rewrite E in Hactual; cbn in Hactual; lia |].
  destruct (np_min_ok actual) as [actual_min Hamin];
    [intros E; rewrite E in Hactual; cbn in Hactual; lia |].
  destruct (np_max_ok (np_abs errors)) as [max_error Hemax];
    [intros E; rewrite E in Herr; cbn in Herr; lia |].
  destruct (np_min_ok (np_abs errors)) as [min_error Hemin];
    [intros E; rewrite E in Herr; cbn in Herr; lia |].
  unfold evaluate_predictions.
  rewrite Hmin, !py_slice_to_min.
  fold pred actual. fold errors.
  rewrite Hemax, Hemin, Hamax, Hamin. cbn [and_then Ok].
  eexists. exists actual_max, actual_min.
  split; [reflexivity |].
  cbn [Metrics.mse Metrics.mae Metrics.rmse Metrics.correlation
       Metrics.r_squared Metrics.data_range Metrics.normalized_rmse
       Metrics.samples Metrics.accuracy_assessment Metrics.max_error
       Metrics.min_error].
  repeat (split; [reflexivity |]).
  split.
  - destruct (Z.ltb_spec 1 (Z.of_nat n)), (Nat.ltb_spec 1 n); try lia; reflexivity.
  - repeat (split; [reflexivity |]). reflexivity.
Qed.

(** C4: whenever [predict_from_csv] returns for [start_index >= 0], its
    [actual_values] is the slice
    [data[start_index+input_size : min(start_index+input_size+steps, len(data))]],
    which for [steps >= 0] holds the (at most) [steps] elements that follow
    the initial window.  [evaluate_predictions] cuts both sequences to
    their common length [n = min(len(predictions), len(actual_values))]:
    what lies beyond the first [n] elements of either has no influence on
    its result; with no common sample it raises; with [n >= 1] it returns,
    [samples] is [n], and every metric is the stated function of the [n]
    errors [pred - actual] of the two prefixes of length [n], or of the
    prefixes themselves. *)
Theorem actual_values_aligned_and_truncated :
  (forall (model : Model) (config : ModelConfig) (data : list float)
          (start_index steps : Z) (r : Forecast.t),
     returned (predict_from_csv model config data start_index steps) = Ok r ->
     0 <= start_index ->
     Forecast.actual_values r =
       py_slice data (start_index + input_size config)
         (Z.min (start_index + input_size config + steps) (len data)) /\
     (0 <= steps ->
      Forecast.actual_values r =
        take (Z.to_nat steps)
          (drop (Z.to_nat (start_index + input_size config)) data))) /\
  (forall (np : numpy_stats) (predictions actual_values : list float),
     let n := Nat.min (length predictions) (length actual_values) in
     let pred := take n predictions in
     let actual := take n actual_values in
     let errors := np_sub pred actual in
     let abs_errors := np_abs errors in
     (length pred = n /\ length actual = n /\
      length errors = n /\ length abs_errors = n) /\
     evaluate_predictions np predictions actual_values =
       evaluate_predictions np pred actual /\
     (forall m : Metrics.t,
        evaluate_predictions np predictions actual_values = Ok m ->
        Metrics.samples m = Z.of_nat n) /\
     (n = 0%nat ->
      evaluate_predictions np predictions actual_values
      = Raise (ValueError ZeroSizeReduction)) /\
     ((1 <= n)%nat ->
      exists (m : Metrics.t) (actual_max actual_min : float),
        evaluate_predictions np predictions actual_values = Ok m /\
        Metrics.samples m = Z.of_nat n /\
        Metrics.mse m = np_mean (np_square errors) /\
        Metrics.mae m = np_mean abs_errors /\
        Metrics.rmse m = PrimFloat.sqrt (np_mean (np_square errors)) /\
        Metrics.error_std m = np_std np errors /\
        Metrics.error_var m = np_var np errors /\
        np_max abs_errors = Ok (Metrics.max_error m) /\
        np_min abs_errors = Ok (Metrics.min_error m) /\
        Metrics.error_95th_percentile m = np_percentile np abs_errors 95 /\
        Metrics.error_75th_percentile m = np_percentile np abs_errors 75 /\
        Metrics.error_median m = np_median np abs_errors /\
        Metrics.correlation m =
          (if (1 <? n)%nat then np_corrcoef np pred actual else 0%float) /\
        Metrics.r_squared m =
          (if negb (ss_tot_of actual =? 0)%float
           then (1 - np_sum (np_square errors) / ss_tot_of actual)%float
           else 0%float) /\
        np_max actual = Ok actual_max /\
        np_min actual = Ok actual_min /\
        Metrics.data_range m = (actual_max - actual_min)%float /\
        Metrics.normalized_rmse m =
          (if negb (Metrics.data_range m =? 0)%float
           then (Metrics.rmse m / Metrics.data_range m)%float
           else infinity) /\
        Metrics.accuracy_assessment m =
          _assess_accuracy (Metrics.correlation m) (Metrics.r_squared m)
            (Metrics.normalized_rmse m) (Metrics.mae m) (Metrics.data_range m))).
Proof.
  split.
  - intros model config data start_index steps r Hr Hstart.
    apply predict_from_csv_inv in Hr as (Hrange & predictions & Hseq & ->).
    cbn. split; [reflexivity |]. intros Hsteps.
    apply predict_sequence_inv in Hseq as (Hlen & _ & _).
    pose proof (len_nonneg (py_slice data start_index
                              (start_index + input_size config))) as Hsize.
    rewrite Hlen in Hsize.
    rewrite py_slice_nonneg by lia.
    destruct (Z.le_ge_cases (start_index + input_size config + steps) (len data))
      as [Hle | Hge].
    + rewrite Z.min_l by assumption. f_equal. lia.
    + rewrite Z.min_r by lia.
      rewrite !take_ge; [reflexivity | |];
        rewrite length_drop; unfold len in *; lia.
  - intros np predictions actual_values n pred actual errors abs_errors.
    assert (Hpred : length pred = n) by (unfold pred, n; rewrite length_take; lia).
    assert (Hactual : length actual = n)
      by (unfold actual, n; rewrite length_take; lia).
    assert (Herrors : length errors = n)
      by (unfold errors; rewrite np_sub_length; lia).
    assert (Habs : length abs_errors = n)
      by (unfold abs_errors, np_abs; rewrite length_map; exact Herrors).
    assert (Hmin : Z.min (len predictions) (len actual_values) = Z.of_nat n)
      by (unfold len, n; lia).
    assert (Heval : evaluate_predictions np predictions actual_values
                    = evaluate_predictions np pred actual)
      by apply evaluate_predictions_truncates.
    split; [repeat split; assumption |].
    split; [exact Heval |].
    split.
    { intros m Hm. apply evaluate_predictions_samples in Hm.
      rewrite Hm. exact Hmin. }
    split.
    { intros Hzero. unfold evaluate_predictions.
      rewrite Hmin, !py_slice_to_min.
      fold pred actual. fold errors. fold abs_errors.
      destruct abs_errors; [reflexivity | cbn in Habs; lia]. }
    intros Hn.
    destruct (np_max_ok abs_errors) as [max_error Hemax];
      [intros E; rewrite E in Habs; cbn in Habs; lia |].
    destruct (np_min_ok abs_errors) as [min_error Hemin];
      [intros E; rewrite E in Habs; cbn in Habs; lia |].
    destruct (np_max_ok actual) as [actual_max Hamax];
      [intros E; rewrite E in Hactual; cbn in Hactual; lia |].
    destruct (np_min_ok actual) as [actual_min Hamin];
      [intros E; rewrite E in Hactual; cbn in Hactual; lia |].
    unfold evaluate_predictions.
    rewrite Hmin, !py_slice_to_min.
    fold pred actual. fold errors. fold abs_errors.
    rewrite Hemax, Hemin, Hamax, Hamin. cbn [and_then Ok].
    eexists. exists actual_max, actual_min.
    split; [reflexivity |].
    cbn [Metrics.mse Metrics.mae Metrics.rmse Metrics.correlation
         Metrics.r_squared Metrics.data_range Metrics.normalized_rmse
         Metrics.samples Metrics.accuracy_assessment Metrics.max_error
         Metrics.min_error Metrics.error_std Metrics.error_var
         Metrics.error_95th_percentile Metrics.error_75th_percentile
         Metrics.error_median].
    repeat (split; [reflexivity |]).
    split.
    { destruct (Z.ltb_spec 1 (Z.of_nat n)), (Nat.ltb_spec 1 n); try lia;
        reflexivity. }
    repeat (split; [reflexivity |]). reflexivity.
Qed.

Lemma actual_values_aligned_and_truncated_witness :
  let model : Model := fun _ => 0%float in
  let config := {| input_size := 2 |} in
  let data := [1%float; 2%float; 3%float; 4%float] in
  let np := {| np_std := fun _ => 0%float; np_var := fun _ => 0%float;
               np_percentile := fun _ _ => 0%float; np_median := fun _ => 0%float;
               np_corrcoef := corrcoef dot_product |} in
  (exists r : Forecast.t,
     returned (predict_from_csv model config data 0 5) = Ok r /\
     Forecast.actual_values r = take 5 (drop 2 data)) /\
  (exists m : Metrics.t,
     evaluate_predictions np [1; 5; 2; 9; 9]%float [2; 3; 2]%float = Ok m /\
     evaluate_predictions np [1; 5; 2]%float [2; 3; 2; 7]%float = Ok m /\
     Metrics.samples m = 3 /\
     Metrics.mse m = np_mean [1; 4; 0]%float /\
     Metrics.mae m = 1%float /\
     Metrics.max_error m = 2%float).
Proof.
  intros model config data np. split.
  - eexists. split; [reflexivity |].
    apply (proj1 actual_values_aligned_and_truncated model config data 0 5 _
             eq_refl); lia.
  - destruct (proj2 (proj2 (proj2 (proj2
               (proj2 actual_values_aligned_and_truncated np
                  [1; 5; 2; 9; 9]%float [2; 3; 2]%float))))
               ltac:(vm_compute; lia))
      as (m & amax & amin & Hm & Hsamples & Hmse & Hmae & _).
    exists m. split; [exact Hm |].
    split; [cbv in Hm; injection Hm as <-; reflexivity |].
    split; [exact Hsamples |]. split; [exact Hmse |].
    split; [rewrite Hmae; reflexivity |].
    cbv in Hm. injection Hm as <-. reflexivity.
Defined.

(** ** The correlation of a sequence with itself *)

Lemma SFcompare_refl (x : spec_float) :
  x <> S754_nan -> SFcompare x x = Some Eq.
Proof.
  destruct x as [s | s | | s m e]; cbn; try congruence; intros _.
  - destruct s; reflexivity.
  - replace (Pos.compare_cont Eq m m) with (Pos.compare m m) by reflexivity.
    rewrite Z.compare_refl, Pos.compare_refl. destruct s; reflexivity.
Qed.

Lemma is_nan_spec (x : float) : is_nan x = true <-> Prim2SF x = S754_nan.
Proof.
  unfold is_nan. rewrite FloatAxioms.eqb_spec. unfold SFeqb.
  destruct (Prim2SF x) as [s | s | | s m e] eqn:Hx.
  1, 2, 4: rewrite SFcompare_refl by discriminate; cbn; split; discriminate.
  cbn. split; reflexivity.
Qed.

Lemma div_nan_l (x y : float) : is_nan x = true -> is_nan (x / y)%float = true.
Proof. rewrite !is_nan_spec, FloatAxioms.div_spec. intros ->. reflexivity. Qed.











(** ** Rounding to nearest even, arithmetically *)

Lemma pow2_pos (k : Z) : 0 <= k -> 0 < 2 ^ k.
Proof. intros. apply Z.pow_pos_nonneg; lia. Qed.

Lemma rnd_shift_bounds (m k : Z) :
  0 <= k -> m / 2 ^ k <= rnd_shift m k <= m / 2 ^ k + 1.
Proof.
  intros Hk. unfold rnd_shift. cbv zeta.
  destruct (_ || _); lia.
Qed.

Lemma rnd_shift_monotone (m1 m2 k : Z) :
  0 <= k -> m1 <= m2 -> rnd_shift m1 k <= rnd_shift m2 k.
Proof.
  intros Hk Hm.
  pose proof (pow2_pos k Hk) as Hp.
  pose proof (Z.div_le_mono m1 m2 (2 ^ k) Hp Hm) as Hq.
  destruct (Z.eq_dec (m1 / 2 ^ k) (m2 / 2 ^ k)) as [Heq | Hne].
  - unfold rnd_shift. cbv zeta. rewrite <- Heq.
    pose proof (Z.div_mod m1 (2 ^ k)) as H1.
    pose proof (Z.div_mod m2 (2 ^ k)) as H2.
    rewrite <- Heq in H2.
    assert (Hrem : m1 mod 2 ^ k <= m2 mod 2 ^ k) by lia.
    destruct (Z.ltb_spec (2 ^ k) (2 * (m1 mod 2 ^ k)));
      destruct (Z.eqb_spec (2 ^ k) (2 * (m1 mod 2 ^ k)));
      destruct (Z.ltb_spec (2 ^ k) (2 * (m2 mod 2 ^ k)));
      destruct (Z.eqb_spec (2 ^ k) (2 * (m2 mod 2 ^ k)));
      destruct (Z.odd (m1 / 2 ^ k)); cbn; lia.
  - pose proof (rnd_shift_bounds m1 k Hk). pose proof (rnd_shift_bounds m2 k Hk).
    lia.
Qed.

(** Scaling the mantissa and the shift together changes nothing. *)
Lemma rnd_shift_scale (m k j : Z) :
  0 <= k -> 0 <= j -> rnd_shift (m * 2 ^ j) (k + j) = rnd_shift m k.
Proof.
  intros Hk Hj. unfold rnd_shift. cbv zeta.
  pose proof (pow2_pos k Hk) as Hpk. pose proof (pow2_pos j Hj) as Hpj.
  rewrite Z.pow_add_r by assumption.
  rewrite Z.div_mul_cancel_r by lia.
  rewrite Z.mul_mod_distr_r by lia.
  replace (2 ^ k * 2 ^ j <? 2 * (m mod 2 ^ k * 2 ^ j))
    with (2 ^ k <? 2 * (m mod 2 ^ k)).
  2:{ destruct (Z.ltb_spec (2 ^ k) (2 * (m mod 2 ^ k)));
      destruct (Z.ltb_spec (2 ^ k * 2 ^ j) (2 * (m mod 2 ^ k * 2 ^ j)));
      try reflexivity; nia. }
  replace (2 ^ k * 2 ^ j =? 2 * (m mod 2 ^ k * 2 ^ j))
    with (2 ^ k =? 2 * (m mod 2 ^ k)).
  2:{ destruct (Z.eqb_spec (2 ^ k) (2 * (m mod 2 ^ k)));
      destruct (Z.eqb_spec (2 ^ k * 2 ^ j) (2 * (m mod 2 ^ k * 2 ^ j)));
      try reflexivity; nia. }
  reflexivity.
Qed.

Lemma rnd_shift_0 (m : Z) : rnd_shift m 0 = m.
Proof.
  unfold rnd_shift. cbv zeta. rewrite Z.pow_0_r, Z.mod_1_r, Z.div_1_r.
  reflexivity.
Qed.

(** A multiple of [2 ^ k] is shifted exactly. *)
Lemma rnd_shift_exact (m k : Z) : 0 <= k -> rnd_shift (m * 2 ^ k) k = m.
Proof.
  intros Hk. rewrite <- (Z.add_0_l k) at 2.
  rewrite rnd_shift_scale by lia. apply rnd_shift_0.
Qed.

(** ** What [shr] computes *)

Lemma shr_1_spec (mrs : shr_record) :
  0 <= shr_m mrs ->
  shr_m (shr_1 mrs) = shr_m mrs / 2 /\
  shr_r (shr_1 mrs) = Z.odd (shr_m mrs) /\
  shr_s (shr_1 mrs) = shr_r mrs || shr_s mrs.
Proof.
  destruct mrs as [m r s]. cbn [shr_m shr_r shr_s]. intros Hm.
  destruct m as [| [p | p |] | p]; try lia; cbn [shr_1 shr_m shr_r shr_s].
  - split; [reflexivity | split; reflexivity].
  - split; [| split; reflexivity].
    rewrite Pos2Z.inj_xI. apply Z.div_unique with 1; lia.
  - split; [| split; reflexivity].
    rewrite Pos2Z.inj_xO. apply Z.div_unique with 0; lia.
  - split; [reflexivity | split; reflexivity].
Qed.

Lemma shr_iter_spec (m : Z) (k : nat) :
  0 <= m ->
  let mrs := Nat.iter k shr_1 (Build_shr_record m false false) in
  shr_m mrs = m / 2 ^ Z.of_nat k /\
  match k with
  | O => shr_r mrs = false /\ shr_s mrs = false
  | S j =>
      shr_r mrs = Z.odd (m / 2 ^ Z.of_nat j) /\
      shr_s mrs = negb (m mod 2 ^ Z.of_nat j =? 0)
  end.
Proof.
  intros Hm. induction k as [| k IH]; cbv zeta.
  - cbn. rewrite Z.div_1_r. repeat split.
  - rewrite Nat.iter_succ.
    cbv zeta in IH. destruct IH as [IHm IHrs].
    set (mrs := Nat.iter k shr_1 _) in *.
    assert (Hnn : 0 <= shr_m mrs).
    { rewrite IHm. apply Z.div_pos; [assumption | apply pow2_pos; lia]. }
    destruct (shr_1_spec mrs Hnn) as (H1 & H2 & H3).
    rewrite H1, H2, H3, IHm. split.
    + rewrite Nat2Z.inj_succ, Z.pow_succ_r by lia.
      rewrite Z.div_div by (try apply pow2_pos; lia).
      f_equal. lia.
    + split; [reflexivity |].
      destruct k as [| j].
      * destruct IHrs as [-> ->]. cbn. rewrite Z.mod_1_r. reflexivity.
      * destruct IHrs as [-> ->].
        rewrite (Nat2Z.inj_succ j), Z.pow_succ_r by lia.
        pose proof (pow2_pos (Z.of_nat j) ltac:(lia)) as Hp.
        rewrite (Z.mul_comm 2), Z.rem_mul_r by lia.
        pose proof (Z.mod_pos_bound m (2 ^ Z.of_nat j) Hp) as Hb.
        rewrite Zodd_mod.
        pose proof (Z.mod_pos_bound (m / 2 ^ Z.of_nat j) 2 ltac:(lia)) as Hb2.
        destruct (Z.eqb_spec ((m / 2 ^ Z.of_nat j) mod 2) 1);
          destruct (Z.eqb_spec (m mod 2 ^ Z.of_nat j) 0);
          destruct (Z.eqb_spec (m mod 2 ^ Z.of_nat j
                                + 2 ^ Z.of_nat j * ((m / 2 ^ Z.of_nat j) mod 2)) 0);
          cbn; try reflexivity; nia.
Qed.

(** Shifting right by [k] and rounding by the location computed that way is
    [rnd_shift]. *)
Lemma shr_round_spec (m : Z) (k : nat) :
  0 <= m ->
  let mrs := Nat.iter k shr_1 (Build_shr_record m false false) in
  round_nearest_even (shr_m mrs) (loc_of_shr_record mrs) = rnd_shift m (Z.of_nat k).
Proof.
  intros Hm mrs.
  destruct (shr_iter_spec m k Hm) as [Hq Hrs]. fold mrs in Hq, Hrs.
  destruct k as [| j].
  - destruct Hrs as [Hr Hs]. rewrite rnd_shift_0.
    destruct mrs as [q r s]. cbn in *. subst. rewrite Z.div_1_r. reflexivity.
  - destruct Hrs as [Hr Hs].
    unfold rnd_shift. cbv zeta. rewrite <- Hq.
    destruct mrs as [q r s]. cbn [shr_m shr_r shr_s] in *.
    rewrite (Nat2Z.inj_succ j), Z.pow_succ_r by lia.
    pose proof (pow2_pos (Z.of_nat j) ltac:(lia)) as Hp.
    rewrite (Z.mul_comm 2 (2 ^ Z.of_nat j)), Z.rem_mul_r by lia.
    pose proof (Z.mod_pos_bound m (2 ^ Z.of_nat j) Hp) as Hb.
    rewrite Zodd_mod in Hr.
    pose proof (Z.mod_pos_bound (m / 2 ^ Z.of_nat j) 2 ltac:(lia)) as Hb2.
    set (low := m mod 2 ^ Z.of_nat j) in *.
    set (b := (m / 2 ^ Z.of_nat j) mod 2) in *.
    set (P := 2 ^ Z.of_nat j) in *.
    subst r s.
    destruct (Z.eqb_spec b 1); destruct (Z.eqb_spec low 0);
      destruct (Z.ltb_spec (P * 2) (2 * (low + P * b)));
      destruct (Z.eqb_spec (P * 2) (2 * (low + P * b)));
      cbn; try reflexivity; try nia.
    all: destruct (Z.even q) eqn:He; rewrite <- Z.negb_even, He; cbn;
      try reflexivity; nia.
Qed.

(** ** Digits *)

Lemma digits2_pos_bounds (p : positive) :
  2 ^ (Z.pos (digits2_pos p) - 1) <= Z.pos p < 2 ^ Z.pos (digits2_pos p).
Proof.
  induction p as [p IH | p IH |]; cbn [digits2_pos].
  - rewrite Pos2Z.inj_succ. change (Z.pos p~1) with (2 * Z.pos p + 1).
    replace (Z.succ (Z.pos (digits2_pos p)) - 1)
      with (Z.succ (Z.pos (digits2_pos p) - 1)) by lia.
    rewrite !Z.pow_succ_r by lia. lia.
  - rewrite Pos2Z.inj_succ. change (Z.pos p~0) with (2 * Z.pos p).
    replace (Z.succ (Z.pos (digits2_pos p)) - 1)
      with (Z.succ (Z.pos (digits2_pos p) - 1)) by lia.
    rewrite !Z.pow_succ_r by lia. lia.
  - cbn. lia.
Qed.

Lemma Zdigits2_bounds (m : Z) :
  0 < m -> 2 ^ (Zdigits2 m - 1) <= m < 2 ^ Zdigits2 m.
Proof.
  destruct m as [| p | p]; try lia. intros _. apply digits2_pos_bounds.
Qed.

Lemma Zdigits2_unique (m d : Z) :
  0 < m -> 2 ^ (d - 1) <= m < 2 ^ d -> Zdigits2 m = d.
Proof.
  intros Hm Hd. pose proof (Zdigits2_bounds m Hm) as Hb.
  pose proof (Zdigits2_pos m Hm) as Hp.
  assert (0 < d).
  { destruct (Z.lt_ge_cases 0 d); [assumption |]. exfalso.
    destruct (Z.eq_dec d 0) as [-> | Hne].
    - change (2 ^ 0) with 1 in Hd. lia.
    - rewrite (Z.pow_neg_r 2 d) in Hd by lia. lia. }
  destruct (Z.lt_trichotomy (Zdigits2 m) d) as [Hlt | [Heq | Hgt]];
    [| assumption |].
  - assert (2 ^ Zdigits2 m <= 2 ^ (d - 1)) by (apply Z.pow_le_mono_r; lia). lia.
  - assert (2 ^ d <= 2 ^ (Zdigits2 m - 1)) by (apply Z.pow_le_mono_r; lia). lia.
Qed.

Lemma Zdigits2_monotone (m1 m2 : Z) :
  0 < m1 -> m1 <= m2 -> Zdigits2 m1 <= Zdigits2 m2.
Proof.
  intros H1 H12.
  pose proof (Zdigits2_bounds m1 H1) as Hb1.
  pose proof (Zdigits2_bounds m2 ltac:(lia)) as Hb2.
  destruct (Z.le_gt_cases (Zdigits2 m1) (Zdigits2 m2)); [assumption |].
  assert (2 ^ Zdigits2 m2 <= 2 ^ (Zdigits2 m1 - 1))
    by (apply Z.pow_le_mono_r; lia).
  lia.
Qed.

Lemma Zdigits2_shift (m j : Z) :
  0 < m -> 0 <= j -> Zdigits2 (m * 2 ^ j) = Zdigits2 m + j.
Proof.
  intros Hm Hj. pose proof (Zdigits2_bounds m Hm) as Hb.
  pose proof (Zdigits2_pos m Hm) as Hp. pose proof (pow2_pos j Hj) as Hpj.
  apply Zdigits2_unique; [nia |].
  replace (Zdigits2 m + j - 1) with (Zdigits2 m - 1 + j) by lia.
  rewrite !Z.pow_add_r by lia. nia.
Qed.

(** The quotient of [m] by [2 ^ (digits - 53)] has exactly 53 digits. *)
Lemma shifted_mantissa_bounds (m : Z) :
  0 < m -> 53 <= Zdigits2 m ->
  2 ^ 52 <= m / 2 ^ (Zdigits2 m - 53) < 2 ^ 53.
Proof.
  intros Hm Hd. pose proof (Zdigits2_bounds m Hm) as Hb.
  set (k := Zdigits2 m - 53) in *.
  pose proof (pow2_pos k ltac:(lia)) as Hpk.
  replace (Zdigits2 m - 1) with (52 + k) in Hb by lia.
  replace (Zdigits2 m) with (53 + k) in Hb by lia.
  rewrite !Z.pow_add_r in Hb by lia.
  split.
  - apply Z.div_le_lower_bound; lia.
  - apply Z.div_lt_upper_bound; lia.
Qed.

Lemma Zpos_iter_xO (p k : positive) :
  Z.pos (Pos.iter xO p k) = Z.pos p * 2 ^ Z.pos k.
Proof.
  rewrite <- Z.shiftl_mul_pow2 by lia. cbn [Z.shiftl].
  apply (Pos.iter_swap_gen _ _ Z.pos xO (Z.mul 2)). intros a. reflexivity.
Qed.

(** ** [binary_round] and [binary_normalize], arithmetically *)
Lemma shr_fexp_exact_eq (m e : Z) :
  let n := fexp prec emax (Zdigits2 m + e) - e in
  0 <= n ->
  shr_fexp prec emax m e loc_Exact =
  (Nat.iter (Z.to_nat n) shr_1 (Build_shr_record m false false), e + n).
Proof.
  intros n Hn. unfold shr_fexp, shr. fold n.
  cbn [shr_record_of_loc].
  destruct n as [| p | p]; [| | lia].
  - rewrite Z.add_0_r. reflexivity.
  - rewrite iter_pos_nat. reflexivity.
Qed.

Lemma binary_round_aux_spec (s : bool) (m e : Z) :
  0 < m -> -1074 <= e -> e <= fexp prec emax (Zdigits2 m + e) ->
  binary_round_aux prec emax s m e loc_Exact = round_spec s (m * 2 ^ (e + 1074)).
Proof.
  intros Hm He Hcanon.
  pose proof (Zdigits2_pos m Hm) as Hd.
  pose proof (Zdigits2_bounds m Hm) as Hb.
  set (d := Zdigits2 m) in *.
  set (E := fexp prec emax (d + e)) in *.
  assert (HE : E = Z.max (d + e - 53) (-1074)) by reflexivity.
  set (n := E - e).
  set (j := e + 1074).
  assert (Hj : 0 <= j) by (unfold j; lia).
  assert (Hn : 0 <= n) by (unfold n; lia).
  (* the right-hand side *)
  unfold round_spec, round_pos. cbv zeta.
  rewrite Zdigits2_shift by lia. fold d j.
  replace (Z.max (d + j - 53) 0) with (n + j) by (unfold n, j; lia).
  rewrite rnd_shift_scale by lia.
  replace (-1074 + (n + j)) with E by (unfold n, j; lia).
  (* the left-hand side *)
  unfold binary_round_aux.
  rewrite (shr_fexp_exact_eq m e) by (fold d E n; exact Hn).
  fold d E n. replace (e + n) with E by (unfold n; lia).
  rewrite (shr_round_spec m (Z.to_nat n)) by lia.
  rewrite Z2Nat.id by exact Hn.
  set (M := rnd_shift m n).
  pose proof (rnd_shift_bounds m n Hn) as HM. fold M in HM.
  assert (Hq : 0 <= m / 2 ^ n) by (apply Z.div_pos; [lia | apply pow2_pos; lia]).
  destruct (Z.eqb_spec M (2 ^ 53)) as [Hcarry | Hnocarry].
  - (* the rounded mantissa has 54 digits *)
    rewrite Hcarry.
    rewrite (shr_fexp_exact_eq (2 ^ 53) E);
      change (Zdigits2 (2 ^ 53)) with 54;
      replace (fexp prec emax (54 + E) - E) with 1
        by (unfold fexp, SpecFloat.emin, prec, emax; lia);
      [| lia].
    cbn [Z.to_nat Pos.to_nat Pos.iter_op Nat.add Nat.iter nat_rect].
    change (shr_m (shr_1 {| shr_m := 2 ^ 53; shr_r := false; shr_s := false |}))
      with (Z.pos (2 ^ 52)).
    change (2 ^ 52) with (Z.pos (2 ^ 52)).
    change (emax - prec) with 971. reflexivity.
  - (* the rounded mantissa is canonical *)
    assert (HdM : 0 < M /\ fexp prec emax (Zdigits2 M + E) - E = 0).
    { destruct (Z.le_gt_cases (-1074) (d + e - 53)) as [Hnorm | Hsub].
      - assert (Hn53 : n = d - 53) by (unfold n; lia).
        pose proof (shifted_mantissa_bounds m Hm ltac:(lia)) as Hs.
        fold d in Hs. rewrite <- Hn53 in Hs.
        assert (HdM : Zdigits2 M = 53).
        { apply Zdigits2_unique; [lia |]. change (53 - 1) with 52. lia. }
        rewrite HdM. unfold fexp, SpecFloat.emin, prec, emax. lia.
      - assert (Hn0 : n = 0) by (unfold n; lia).
        assert (HMm : M = m) by (unfold M; rewrite Hn0; apply rnd_shift_0).
        rewrite HMm. fold d. split; [lia |].
        unfold fexp, SpecFloat.emin, prec, emax. lia. }
    destruct HdM as [HMpos HnM].
    rewrite (shr_fexp_exact_eq M E) by (rewrite HnM; lia).
    rewrite HnM. rewrite Z.add_0_r.
    change (Nat.iter (Z.to_nat 0) shr_1 ?x) with x. cbn [shr_m].
    change (emax - prec) with 971.
    destruct M as [| p | p]; [lia | reflexivity | lia].
Qed.

Lemma binary_round_spec (s : bool) (p : positive) (e : Z) :
  -1074 <= e ->
  binary_round prec emax s p e = round_spec s (Z.pos p * 2 ^ (e + 1074)).
Proof.
  intros He. unfold binary_round, shl_align.
  set (E := fexp prec emax (Z.pos (digits2_pos p) + e)).
  assert (HE : E = Z.max (Z.pos (digits2_pos p) + e - 53) (-1074)) by reflexivity.
  destruct (E - e) as [| k | k] eqn:Hk.
  - apply binary_round_aux_spec; [lia | lia |].
    change (Zdigits2 (Z.pos p)) with (Z.pos (digits2_pos p)). fold E. lia.
  - apply binary_round_aux_spec; [lia | lia |].
    change (Zdigits2 (Z.pos p)) with (Z.pos (digits2_pos p)). fold E. lia.
  - rewrite binary_round_aux_spec.
    + f_equal. rewrite Zpos_iter_xO.
      rewrite <- Z.mul_assoc, <- Z.pow_add_r by lia. do 2 f_equal. lia.
    + lia.
    + lia.
    + rewrite Zpos_iter_xO.
      rewrite Zdigits2_shift by lia.
      change (Zdigits2 (Z.pos p)) with (Z.pos (digits2_pos p)).
      replace (Z.pos (digits2_pos p) + Z.pos k + E)
        with (Z.pos (digits2_pos p) + e) by lia.
      fold E. lia.
Qed.

Lemma binary_normalize_spec (z e : Z) :
  -1074 <= e ->
  binary_normalize prec emax z e false = round_int (z * 2 ^ (e + 1074)).
Proof.
  intros He. pose proof (pow2_pos (e + 1074) ltac:(lia)) as Hp.
  destruct z as [| p | p]; cbn [binary_normalize].
  - reflexivity.
  - rewrite binary_round_spec by assumption.
    destruct (Z.pos p * 2 ^ (e + 1074)) eqn:Hz; try lia. reflexivity.
  - rewrite binary_round_spec by assumption.
    destruct (Z.neg p * 2 ^ (e + 1074)) as [| q | q] eqn:Hz; try lia.
    cbn [round_int]. f_equal. lia.
Qed.

Lemma valid_binary_finite (s : bool) (m : positive) (e : Z) :
  SpecFloat.valid_binary prec emax (S754_finite s m e) = true ->
  -1074 <= e /\ Z.pos m < 2 ^ 53 /\ (-1074 < e -> 2 ^ 52 <= Z.pos m).
Proof.
  cbn [SpecFloat.valid_binary]. unfold bounded, canonical_mantissa.
  intros H. apply andb_prop in H as [Hc _]. apply Z.eqb_eq in Hc.
  unfold fexp, SpecFloat.emin, prec, emax in Hc.
  pose proof (digits2_pos_bounds m) as Hb.
  assert (Hd : Z.pos (digits2_pos m) <= 53) by lia.
  split; [lia |]. split.
  - assert (2 ^ Z.pos (digits2_pos m) <= 2 ^ 53) by (apply Z.pow_le_mono_r; lia).
    lia.
  - intros He. replace (Z.pos (digits2_pos m)) with 53 in Hb by lia.
    change (53 - 1) with 52 in Hb. lia.
Qed.

Lemma shl_align_fst (m : positive) (e ez : Z) :
  ez <= e -> Z.pos (fst (shl_align m e ez)) = Z.pos m * 2 ^ (e - ez).
Proof.
  intros H. unfold shl_align.
  destruct (ez - e) as [| k | k] eqn:Hk; cbn [fst]; try lia.
  - replace (e - ez) with 0 by lia. lia.
  - rewrite Zpos_iter_xO. do 2 f_equal. lia.
Qed.

(** [1 - x] is the rounding of the exact difference. *)
Lemma sub_one_spec (x : spec_float) :
  SpecFloat.valid_binary prec emax x = true ->
  match x with S754_zero _ | S754_finite _ _ _ => True | _ => False end ->
  SF64sub (Prim2SF 1) x = round_int (2 ^ 1074 - zval x).
Proof.
  intros Hvalid Hfin.
  change (Prim2SF 1) with (S754_finite false (2 ^ 52) (-52)).
  destruct x as [s | s | | s m e]; try contradiction.
  - vm_compute. reflexivity.
  - destruct (valid_binary_finite s m e Hvalid) as (He & _ & _).
    unfold SF64sub, SFsub. cbv zeta.
    rewrite !shl_align_fst by lia.
    rewrite binary_normalize_spec by lia.
    f_equal. cbn [zval].
    rewrite Z.mul_sub_distr_r.
    f_equal.
    + cbn [cond_Zopp].
      rewrite <- Z.mul_assoc.
      rewrite <- (Z.pow_add_r 2 (-52 - Z.min (-52) e) (Z.min (-52) e + 1074)) by lia.
      replace (-52 - Z.min (-52) e + (Z.min (-52) e + 1074)) with 1022 by lia.
      vm_compute. reflexivity.
    + assert (Hpow : Z.pos m * 2 ^ (e - Z.min (-52) e) * 2 ^ (Z.min (-52) e + 1074)
                     = Z.pos m * 2 ^ (e + 1074)).
      { rewrite <- Z.mul_assoc.
        rewrite <- (Z.pow_add_r 2 (e - Z.min (-52) e) (Z.min (-52) e + 1074)) by lia.
        do 2 f_equal. lia. }
      destruct s; cbn [cond_Zopp]; rewrite ?Z.mul_opp_l, Hpow; reflexivity.
Qed.

(** ** Rounding is monotone *)

Lemma rounded_mantissa_bounds (D : Z) :
  0 < D ->
  let k := Z.max (Zdigits2 D - 53) 0 in
  let M := rnd_shift D k in
  0 < M <= 2 ^ 53 /\ (0 < k -> 2 ^ 52 <= M) /\ (k = 0 -> M < 2 ^ 53).
Proof.
  intros HD k M.
  pose proof (Zdigits2_bounds D HD) as Hb.
  pose proof (rnd_shift_bounds D k ltac:(lia)) as HM. fold M in HM.
  destruct (Z.le_gt_cases (Zdigits2 D) 53) as [Hd | Hd].
  - assert (Hk : k = 0) by lia.
    assert (HMD : M = D) by (unfold M; rewrite Hk; apply rnd_shift_0).
    assert (2 ^ Zdigits2 D <= 2 ^ 53) by (apply Z.pow_le_mono_r; lia).
    lia.
  - assert (Hk : k = Zdigits2 D - 53) by lia.
    pose proof (shifted_mantissa_bounds D HD ltac:(lia)) as Hs.
    rewrite <- Hk in Hs. lia.
Qed.

Lemma round_pos_shape (D : Z) :
  0 < D ->
  -1074 <= snd (round_pos D) /\
  0 < fst (round_pos D) < 2 ^ 53 /\
  (-1074 < snd (round_pos D) -> 2 ^ 52 <= fst (round_pos D)).
Proof.
  intros HD. unfold round_pos. cbv zeta.
  destruct (rounded_mantissa_bounds D HD) as (HM & Hk & H0).
  cbv zeta in HM, Hk, H0.
  set (k := Z.max (Zdigits2 D - 53) 0) in *.
  set (M := rnd_shift D k) in *.
  destruct (Z.eqb_spec M (2 ^ 53)); cbn [fst snd]; lia.
Qed.

Lemma round_pos_monotone (D1 D2 : Z) :
  0 < D1 -> D1 <= D2 ->
  snd (round_pos D1) < snd (round_pos D2) \/
  (snd (round_pos D1) = snd (round_pos D2) /\
   fst (round_pos D1) <= fst (round_pos D2)).
Proof.
  intros H1 H12. unfold round_pos. cbv zeta.
  pose proof (Zdigits2_monotone D1 D2 H1 H12) as Hd.
  destruct (rounded_mantissa_bounds D1 H1) as (HM1 & Hk1 & H01).
  destruct (rounded_mantissa_bounds D2 ltac:(lia)) as (HM2 & Hk2 & H02).
  cbv zeta in HM1, Hk1, H01, HM2, Hk2, H02.
  set (k1 := Z.max (Zdigits2 D1 - 53) 0) in *.
  set (k2 := Z.max (Zdigits2 D2 - 53) 0) in *.
  assert (Hk : k1 <= k2) by lia.
  destruct (Z.eq_dec k1 k2) as [Heq | Hne].
  - pose proof (rnd_shift_monotone D1 D2 k1 ltac:(lia) H12) as Hmono.
    rewrite <- Heq in *.
    set (M1 := rnd_shift D1 k1) in *. set (M2 := rnd_shift D2 k1) in *.
    destruct (Z.eqb_spec M1 (2 ^ 53)), (Z.eqb_spec M2 (2 ^ 53));
      cbn [fst snd]; lia.
  - set (M1 := rnd_shift D1 k1) in *. set (M2 := rnd_shift D2 k2) in *.
    destruct (Z.eqb_spec M1 (2 ^ 53)), (Z.eqb_spec M2 (2 ^ 53));
      cbn [fst snd]; lia.
Qed.

Lemma round_spec_cases (D : Z) :
  0 < D ->
  (exists (m : positive) (e : Z),
     round_pos D = (Z.pos m, e) /\ e <= 971 /\
     forall s, round_spec s D = S754_finite s m e) \/
  (971 < snd (round_pos D) /\ forall s, round_spec s D = S754_infinity s).
Proof.
  intros HD. destruct (round_pos_shape D HD) as (_ & Hm & _).
  unfold round_spec. destruct (round_pos D) as [m e]. cbn [fst snd] in *.
  destruct m as [| p | p]; try lia.
  destruct (Z.leb_spec e 971); [left | right].
  - exists p, e. split; [reflexivity | split; [assumption | reflexivity]].
  - split; [assumption | reflexivity].
Qed.

Lemma round_spec_monotone (D1 D2 : Z) :
  0 < D1 -> D1 <= D2 ->
  SFleb (round_spec false D1) (round_spec false D2) = true /\
  SFleb (round_spec true D2) (round_spec true D1) = true.
Proof.
  intros H1 H12.
  pose proof (round_pos_monotone D1 D2 H1 H12) as Hmono.
  destruct (round_spec_cases D1 H1) as [(m1 & e1 & Hp1 & He1 & Hs1) | [He1 Hs1]];
    destruct (round_spec_cases D2 ltac:(lia))
      as [(m2 & e2 & Hp2 & He2 & Hs2) | [He2 Hs2]];
    rewrite ?Hp1, ?Hp2 in *; cbn [fst snd] in *;
    try lia; rewrite !Hs1, !Hs2; try (split; reflexivity).
  unfold SFleb, SFcompare.
  replace (Pos.compare_cont Eq m1 m2) with (Pos.compare m1 m2) by reflexivity.
  replace (Pos.compare_cont Eq m2 m1) with (Pos.compare m2 m1) by reflexivity.
  destruct (Z.compare_spec e1 e2), (Z.compare_spec e2 e1); try lia;
    destruct (Pos.compare_spec m1 m2), (Pos.compare_spec m2 m1);
    try lia; split; reflexivity.
Qed.

Lemma round_int_monotone (D1 D2 : Z) :
  D1 <= D2 -> SFleb (round_int D1) (round_int D2) = true.
Proof.
  intros H12.
  destruct D1 as [| p1 | p1], D2 as [| p2 | p2]; try lia; cbn [round_int].
  - reflexivity.
  - destruct (round_spec_cases (Z.pos p2) ltac:(lia))
      as [(m & e & _ & _ & ->) | [_ ->]]; reflexivity.
  - apply round_spec_monotone; lia.
  - destruct (round_spec_cases (Z.pos p1) ltac:(lia))
      as [(m & e & _ & _ & ->) | [_ ->]]; reflexivity.
  - destruct (round_spec_cases (Z.pos p1) ltac:(lia))
      as [(m1 & e1 & _ & _ & ->) | [_ ->]];
      destruct (round_spec_cases (Z.pos p2) ltac:(lia))
        as [(m2 & e2 & _ & _ & ->) | [_ ->]]; reflexivity.
  - apply round_spec_monotone; lia.
Qed.

Lemma round_int_not_nan (D : Z) : round_int D <> S754_nan.
Proof.
  destruct D as [| p | p]; cbn [round_int]; [discriminate | |].
  - destruct (round_spec_cases (Z.pos p) ltac:(lia))
      as [(m & e & _ & _ & ->) | [_ ->]]; discriminate.
  - destruct (round_spec_cases (Z.pos p) ltac:(lia))
      as [(m & e & _ & _ & ->) | [_ ->]]; discriminate.
Qed.

(** ** The order of floats and the order of their values *)

Lemma value_lex_le (m1 m2 : positive) (e1 e2 : Z) :
  SpecFloat.valid_binary prec emax (S754_finite false m1 e1) = true ->
  SpecFloat.valid_binary prec emax (S754_finite false m2 e2) = true ->
  e1 < e2 \/ (e1 = e2 /\ Z.pos m1 <= Z.pos m2) ->
  Z.pos m1 * 2 ^ (e1 + 1074) <= Z.pos m2 * 2 ^ (e2 + 1074).
Proof.
  intros Hv1 Hv2 Hlex.
  destruct (valid_binary_finite _ _ _ Hv1) as (He1 & Hm1 & _).
  destruct (valid_binary_finite _ _ _ Hv2) as (He2 & _ & Hm2).
  pose proof (pow2_pos (e1 + 1074) ltac:(lia)) as Hp1.
  destruct Hlex as [Hlt | [-> Hle]]; [| nia].
  specialize (Hm2 ltac:(lia)).
  replace (e2 + 1074) with (e2 - e1 - 1 + 1 + (e1 + 1074)) by lia.
  rewrite (Z.pow_add_r 2 (e2 - e1 - 1 + 1) (e1 + 1074)) by lia.
  rewrite (Z.pow_add_r 2 (e2 - e1 - 1) 1) by lia.
  pose proof (pow2_pos (e2 - e1 - 1) ltac:(lia)) as Hp.
  change (2 ^ 1) with 2. change (2 ^ 53) with (2 * 2 ^ 52) in Hm1.
  set (P := 2 ^ (e1 + 1074)) in *. set (Q := 2 ^ (e2 - e1 - 1)) in *.
  set (c := 2 ^ 52) in *.
  assert (Z.pos m1 * P <= 2 * c * P) by nia.
  assert (2 * c * P <= Z.pos m2 * (2 * P)) by nia.
  assert (Z.pos m2 * (2 * P) <= Z.pos m2 * (Q * 2 * P)) by nia.
  lia.
Qed.

Lemma SFleb_zval (x y : spec_float) :
  SpecFloat.valid_binary prec emax x = true ->
  SpecFloat.valid_binary prec emax y = true ->
  match x with S754_zero _ | S754_finite _ _ _ => True | _ => False end ->
  match y with S754_zero _ | S754_finite _ _ _ => True | _ => False end ->
  SFleb x y = true -> zval x <= zval y.
Proof.
  intros Hvx Hvy Hx Hy. unfold SFleb, SFcompare.
  destruct x as [sx | sx | | sx mx ex]; try contradiction;
    destruct y as [sy | sy | | sy my ey]; try contradiction; cbn [zval].
  - lia.
  - pose proof (pow2_pos (ey + 1074)
                  ltac:(destruct (valid_binary_finite _ _ _ Hvy); lia)).
    destruct sy; [discriminate |]. cbn [cond_Zopp]. lia.
  - pose proof (pow2_pos (ex + 1074)
                  ltac:(destruct (valid_binary_finite _ _ _ Hvx); lia)).
    destruct sx; [| discriminate]. cbn [cond_Zopp]. lia.
  - pose proof (pow2_pos (ex + 1074)
                  ltac:(destruct (valid_binary_finite _ _ _ Hvx); lia)).
    pose proof (pow2_pos (ey + 1074)
                  ltac:(destruct (valid_binary_finite _ _ _ Hvy); lia)).
    replace (Pos.compare_cont Eq mx my) with (Pos.compare mx my) by reflexivity.
    destruct sx, sy; cbn [cond_Zopp]; intros Hcmp; try discriminate; try lia.
    + assert (Hlex : ey < ex \/ (ey = ex /\ Z.pos my <= Z.pos mx)).
      { destruct (Z.compare_spec ex ey); try discriminate; try lia.
        destruct (Pos.compare_spec mx my); cbn in Hcmp; try discriminate; lia. }
      pose proof (value_lex_le my mx ey ex Hvy Hvx Hlex). lia.
    + assert (Hlex : ex < ey \/ (ex = ey /\ Z.pos mx <= Z.pos my)).
      { destruct (Z.compare_spec ex ey); try discriminate; try lia.
        destruct (Pos.compare_spec mx my); try discriminate; lia. }
      exact (value_lex_le mx my ex ey Hvx Hvy Hlex).
Qed.

(** Subtraction from one reverses the order. *)
Lemma SF64sub_one_antitone (x y : spec_float) :
  SpecFloat.valid_binary prec emax x = true ->
  SpecFloat.valid_binary prec emax y = true ->
  SFleb x y = true ->
  SFleb (SF64sub (Prim2SF 1) y) (SF64sub (Prim2SF 1) x) = true.
Proof.
  intros Hvx Hvy Hle.
  assert (Hfin : forall z,
             match z with S754_zero _ | S754_finite _ _ _ => True | _ => False end ->
             SpecFloat.valid_binary prec emax z = true ->
             SFleb (S754_infinity true) (SF64sub (Prim2SF 1) z) = true /\
             SFleb (SF64sub (Prim2SF 1) z) (S754_infinity false) = true).
  { intros z Hz Hvz. rewrite sub_one_spec by assumption.
    pose proof (round_int_not_nan (2 ^ 1074 - zval z)) as Hnan.
    destruct (round_int _) as [s | [] | | s m e]; try congruence;
      split; reflexivity. }
  change (Prim2SF 1) with (S754_finite false (2 ^ 52) (-52)) in *.
  destruct x as [sx | sx | | sx mx ex]; destruct y as [sy | sy | | sy my ey];
    try discriminate Hle;
    try (destruct sx; discriminate Hle);
    try (destruct sy; discriminate Hle);
    try (destruct sx, sy; (discriminate Hle || reflexivity));
    try (rewrite !sub_one_spec by (assumption || exact I);
         apply round_int_monotone;
         pose proof (SFleb_zval _ _ Hvx Hvy I I Hle); lia).
  all: try (destruct sx; try discriminate Hle);
    try (destruct sy; try discriminate Hle);
    match goal with
    | |- SFleb (SF64sub _ ?z) (SF64sub _ (S754_infinity true)) = true =>
        exact (proj2 (Hfin z I Hvy))
    | |- SFleb (SF64sub _ (S754_infinity false)) (SF64sub _ ?z) = true =>
        exact (proj1 (Hfin z I Hvx))
    end.
Qed.

Lemma sub_one_antitone (x y : float) :
  (x <=? y)%float = true -> (1 - y <=? 1 - x)%float = true.
Proof.
  rewrite !FloatAxioms.leb_spec, !FloatAxioms.sub_spec.
  apply SF64sub_one_antitone; apply Prim2SF_valid.
Qed.

(** ** The order of binary64 *)

Lemma SFleb_trans (x y z : spec_float) :
  SFleb x y = true -> SFleb y z = true -> SFleb x z = true.
Proof.
  unfold SFleb, SFcompare.
  destruct x as [sx | sx | | sx mx ex], y as [sy | sy | | sy my ey],
           z as [sz | sz | | sz mz ez];
    try discriminate; try reflexivity;
    try (destruct sx, sy; discriminate);
    try (destruct sy, sz; discriminate);
    try (destruct sx, sz; (reflexivity || discriminate));
    try (destruct sx, sy, sz; (reflexivity || discriminate)).
  replace (Pos.compare_cont Eq mx my) with (Pos.compare mx my) by reflexivity.
  replace (Pos.compare_cont Eq my mz) with (Pos.compare my mz) by reflexivity.
  replace (Pos.compare_cont Eq mx mz) with (Pos.compare mx mz) by reflexivity.
  destruct sx, sy, sz; try discriminate; try reflexivity;
    destruct (Z.compare_spec ex ey), (Z.compare_spec ey ez),
             (Z.compare_spec ex ez);
    try discriminate; try reflexivity; try lia;
    destruct (Pos.compare_spec mx my), (Pos.compare_spec my mz),
             (Pos.compare_spec mx mz);
    cbn; try discriminate; try reflexivity; lia.
Qed.

Lemma leb_trans (x y z : float) :
  (x <=? y)%float = true -> (y <=? z)%float = true -> (x <=? z)%float = true.
Proof. rewrite !FloatAxioms.leb_spec. apply SFleb_trans. Qed.

(** A value that is not smaller gets a score that is not smaller. *)
Lemma metric_score_monotone (v1 v2 excellent good acceptable : float) :
  (v1 <=? v2)%float = true ->
  _get_metric_score v1 excellent good acceptable
  <= _get_metric_score v2 excellent good acceptable.
Proof.
  intros Hv. unfold _get_metric_score.
  destruct (excellent <=? v1)%float eqn:He.
  { rewrite (leb_trans _ _ _ He Hv). lia. }
  destruct (good <=? v1)%float eqn:Hg.
  { rewrite (leb_trans _ _ _ Hg Hv). destruct (excellent <=? v2)%float; lia. }
  destruct (acceptable <=? v1)%float eqn:Ha.
  { rewrite (leb_trans _ _ _ Ha Hv).
    destruct (excellent <=? v2)%float; [lia |].
    destruct (good <=? v2)%float; lia. }
  pose proof (metric_score_range v2 excellent good acceptable) as Hr.
  unfold _get_metric_score in Hr. lia.
Qed.

(** ** Scoring on the complement *)

(** The complements of the lower-is-better thresholds, as binary64
    computes them. *)
Lemma complement_thresholds :
  (1 - Thresholds.normalized_rmse excellent_thresholds = 0.95)%float /\
  (1 - Thresholds.normalized_rmse good_thresholds = 0.9)%float /\
  (1 - Thresholds.normalized_rmse acceptable_thresholds = 0.8)%float /\
  (1 - Thresholds.mae_ratio excellent_thresholds = 0.98)%float /\
  (1 - Thresholds.mae_ratio good_thresholds = 0.95)%float /\
  (1 - Thresholds.mae_ratio acceptable_thresholds = 0.9)%float.
Proof. repeat split. Qed.

(** With ordered thresholds, reaching a tier is passing its threshold. *)
Lemma metric_score_at_least (value excellent good acceptable : float) :
  (acceptable <=? good)%float = true ->
  (good <=? excellent)%float = true ->
  let s := _get_metric_score value excellent good acceptable in
  (3 <= s <-> (excellent <=? value)%float = true) /\
  (2 <= s <-> (good <=? value)%float = true) /\
  (1 <= s <-> (acceptable <=? value)%float = true).
Proof.
  intros Hag Hge s. unfold s, _get_metric_score.
  destruct (excellent <=? value)%float eqn:He.
  - rewrite (leb_trans _ _ _ Hge He).
    rewrite (leb_trans _ _ _ Hag (leb_trans _ _ _ Hge He)).
    repeat split; intros; (reflexivity || lia).
  - destruct (good <=? value)%float eqn:Hg.
    + rewrite (leb_trans _ _ _ Hag Hg).
      repeat split; intros; (reflexivity || lia || discriminate).
    + destruct (acceptable <=? value)%float;
        repeat split; intros; (reflexivity || lia || discriminate).
Qed.

(** The complement test against [1 - t] passes for every value [<= t] and
    fails for every value [>= t'], when the complement of [t'] is below that
    of [t]. *)
Lemma complement_test (value t t' : float) :
  (1 - t <=? 1 - t')%float = false ->
  ((value <=? t)%float = true -> (1 - t <=? 1 - value)%float = true) /\
  ((t' <=? value)%float = true -> (1 - t <=? 1 - value)%float = false).
Proof.
  intros Hgap. split.
  - apply sub_one_antitone.
  - intros Hv. apply sub_one_antitone in Hv.
    destruct (1 - t <=? 1 - value)%float eqn:Hc; [| reflexivity].
    rewrite (leb_trans _ _ _ Hc Hv) in Hgap. discriminate.
Qed.

(** The tiers of a lower-is-better metric scored on its complement: a value
    [<=] a threshold reaches the tier, a value more than 2e-16 above it does
    not. *)
Lemma complement_score_tiers (value excellent good acceptable : float)
    (excellent' good' acceptable' : float) :
  (1 - acceptable <=? 1 - good)%float = true ->
  (1 - good <=? 1 - excellent)%float = true ->
  (1 - excellent <=? 1 - excellent')%float = false ->
  (1 - good <=? 1 - good')%float = false ->
  (1 - acceptable <=? 1 - acceptable')%float = false ->
  let s := _get_metric_score (1 - value)%float (1 - excellent)%float
             (1 - good)%float (1 - acceptable)%float in
  ((value <=? excellent)%float = true -> 3 <= s) /\
  ((value <=? good)%float = true -> 2 <= s) /\
  ((value <=? acceptable)%float = true -> 1 <= s) /\
  ((excellent' <=? value)%float = true -> s < 3) /\
  ((good' <=? value)%float = true -> s < 2) /\
  ((acceptable' <=? value)%float = true -> s < 1).
Proof.
  intros Hag Hge He Hg Ha s.
  destruct (metric_score_at_least (1 - value)%float _ _ _ Hag Hge)
    as (H3 & H2 & H1). fold s in H3, H2, H1.
  destruct (complement_test value excellent excellent' He) as [He1 He2].
  destruct (complement_test value good good' Hg) as [Hg1 Hg2].
  destruct (complement_test value acceptable acceptable' Ha) as [Ha1 Ha2].
  split; [intros Hv; apply H3, He1, Hv |].
  split; [intros Hv; apply H2, Hg1, Hv |].
  split; [intros Hv; apply H1, Ha1, Hv |].
  split; [| split].
  - intros Hv. destruct (Z.lt_ge_cases s 3) as [| Hs]; [assumption |].
    apply H3 in Hs. rewrite (He2 Hv) in Hs. discriminate.
  - intros Hv. destruct (Z.lt_ge_cases s 2) as [| Hs]; [assumption |].
    apply H2 in Hs. rewrite (Hg2 Hv) in Hs. discriminate.
  - intros Hv. destruct (Z.lt_ge_cases s 1) as [| Hs]; [assumption |].
    apply H1 in Hs. rewrite (Ha2 Hv) in Hs. discriminate.
Qed.

(** C7 (amended): the scoring function returns 3 if
    [value >= excellent], else 2 if [value >= good], else 1 if
    [value >= acceptable], else 0, all comparisons inclusive; the scores of
    [normalized_rmse] and [mae_ratio] are this function applied to
    [1 - value] against [1 - threshold].  That scores every value [<=] a
    table threshold (0.05/0.10/0.20 and 0.02/0.05/0.10) at its tier or
    higher, and every value that exceeds the threshold by 2e-16 or more
    below the tier; the values in between, whose complement rounds to the
    complement of the threshold, also reach the tier. *)
Theorem metric_score_tiers :
  (forall value excellent good acceptable : float,
     let s := _get_metric_score value excellent good acceptable in
     (s = 3 <-> (excellent <=? value)%float = true) /\
     (s = 2 <-> (excellent <=? value)%float = false /\
                (good <=? value)%float = true) /\
     (s = 1 <-> (excellent <=? value)%float = false /\
                (good <=? value)%float = false /\
                (acceptable <=? value)%float = true) /\
     (s = 0 <-> (excellent <=? value)%float = false /\
                (good <=? value)%float = false /\
                (acceptable <=? value)%float = false)) /\
  (forall correlation r_squared normalized_rmse mae data_range : float,
     let a := _assess_accuracy correlation r_squared normalized_rmse mae data_range in
     let n := Assessment.normalized_rmse_score a in
     let m := Assessment.mae_ratio_score a in
     let mae_ratio := Assessment.mae_ratio a in
     n = _get_metric_score (1 - normalized_rmse)%float
           (1 - 0.05)%float (1 - 0.10)%float (1 - 0.20)%float /\
     m = _get_metric_score (1 - mae_ratio)%float
           (1 - 0.02)%float (1 - 0.05)%float (1 - 0.10)%float /\
     ((normalized_rmse <=? 0.05)%float = true -> 3 <= n) /\
     ((normalized_rmse <=? 0.10)%float = true -> 2 <= n) /\
     ((normalized_rmse <=? 0.20)%float = true -> 1 <= n) /\
     ((0.0500000000000002 <=? normalized_rmse)%float = true -> n < 3) /\
     ((0.1000000000000002 <=? normalized_rmse)%float = true -> n < 2) /\
     ((0.2000000000000002 <=? normalized_rmse)%float = true -> n < 1) /\
     ((mae_ratio <=? 0.02)%float = true -> 3 <= m) /\
     ((mae_ratio <=? 0.05)%float = true -> 2 <= m) /\
     ((mae_ratio <=? 0.10)%float = true -> 1 <= m) /\
     ((0.0200000000000002 <=? mae_ratio)%float = true -> m < 3) /\
     ((0.0500000000000002 <=? mae_ratio)%float = true -> m < 2) /\
     ((0.1000000000000002 <=? mae_ratio)%float = true -> m < 1)).
Proof.
  split.
  - intros value excellent good acceptable s. unfold s, _get_metric_score.
    destruct (excellent <=? value)%float, (good <=? value)%float,
             (acceptable <=? value)%float;
      intuition (discriminate || lia).
  - intros correlation r_squared normalized_rmse mae data_range a n m mae_ratio.
    destruct (assess_accuracy_scores correlation r_squared normalized_rmse
                mae data_range) as (Hratio & _ & _ & Hn & Hm & _).
    fold a in Hratio, Hn, Hm. fold n in Hn. fold m in Hm.
    rewrite <- Hratio in Hm. fold mae_ratio in Hm.
    split; [exact Hn |]. split; [exact Hm |].
    destruct (complement_score_tiers normalized_rmse 0.05 0.10 0.20
                0.0500000000000002 0.1000000000000002 0.2000000000000002)
      as (N3 & N2 & N1 & N3' & N2' & N1'); try reflexivity.
    destruct (complement_score_tiers mae_ratio 0.02 0.05 0.10
                0.0200000000000002 0.0500000000000002 0.1000000000000002)
      as (M3 & M2 & M1 & M3' & M2' & M1'); try reflexivity.
    rewrite Hn, Hm. repeat (split; [assumption |]). assumption.
Qed.

Lemma metric_score_tiers_witness :
  let a := _assess_accuracy 1 1 0.03 0.04 1 in
  3 <= Assessment.normalized_rmse_score a /\
  2 <= Assessment.mae_ratio_score a.
Proof.
  cbv zeta.
  destruct (proj2 metric_score_tiers 1 1 0.03 0.04 1)%float
    as (_ & _ & N3 & _ & _ & _ & _ & _ & _ & M2 & _).
  split; [apply N3 | apply M2]; reflexivity.
Defined.

(** C7 as stated fails just above a threshold: the complement of
    0.05000000000000001 rounds to the same float as the complement of 0.05,
    so this value is scored 3 although it is not [<= 0.05]. *)
Lemma metric_score_tiers_counterexample :
  let value := 0.05000000000000001%float in
  (value <=? Thresholds.normalized_rmse excellent_thresholds)%float = false /\
  (1 - value = 1 - Thresholds.normalized_rmse excellent_thresholds)%float /\
  Assessment.normalized_rmse_score (_assess_accuracy 1 1 value 0 1) = 3.
Proof. cbv zeta. repeat split. Qed.

(** C9 (amended): for two assessments with the same [mae] and
    [data_range], if the second has an absolute correlation [>=] that of
    the first, an [r_squared] [>=] that of the first and a
    [normalized_rmse] [<=] that of the first, its [overall_score] is [>=]
    that of the first. *)
Theorem assess_accuracy_monotone :
  forall (correlation1 r_squared1 normalized_rmse1 : float)
         (correlation2 r_squared2 normalized_rmse2 : float)
         (mae data_range : float),
    (PrimFloat.abs correlation1 <=? PrimFloat.abs correlation2)%float = true ->
    (r_squared1 <=? r_squared2)%float = true ->
    (normalized_rmse2 <=? normalized_rmse1)%float = true ->
    Assessment.overall_score
      (_assess_accuracy correlation1 r_squared1 normalized_rmse1 mae data_range)
    <= Assessment.overall_score
         (_assess_accuracy correlation2 r_squared2 normalized_rmse2 mae data_range).
Proof.
  intros c1 r1 n1 c2 r2 n2 mae data_range Hc Hr Hn.
  apply sub_one_antitone in Hn.
  destruct (assess_accuracy_scores c1 r1 n1 mae data_range)
    as (_ & Hc1 & Hr1 & Hn1 & Hm1 & ->).
  destruct (assess_accuracy_scores c2 r2 n2 mae data_range)
    as (_ & Hc2 & Hr2 & Hn2 & Hm2 & ->).
  rewrite Hc1, Hr1, Hn1, Hm1, Hc2, Hr2, Hn2, Hm2.
  pose proof (metric_score_monotone _ _
                (Thresholds.correlation excellent_thresholds)
                (Thresholds.correlation good_thresholds)
                (Thresholds.correlation acceptable_thresholds) Hc).
  pose proof (metric_score_monotone _ _
                (Thresholds.r_squared excellent_thresholds)
                (Thresholds.r_squared good_thresholds)
                (Thresholds.r_squared acceptable_thresholds) Hr).
  pose proof (metric_score_monotone _ _
                (1 - Thresholds.normalized_rmse excellent_thresholds)%float
                (1 - Thresholds.normalized_rmse good_thresholds)%float
                (1 - Thresholds.normalized_rmse acceptable_thresholds)%float Hn).
  lia.
Qed.

Lemma assess_accuracy_monotone_witness :
  Assessment.overall_score (_assess_accuracy 0.7 0.6 0.15 0.01 1)
  <= Assessment.overall_score (_assess_accuracy (-0.9) 0.8 0.07 0.01 1).
Proof.
  apply (assess_accuracy_monotone 0.7 0.6 0.15 (-0.9) 0.8 0.07 0.01 1);
    reflexivity.
Defined.

(** C9 as stated fails because the score is taken of the absolute
    correlation: raising the correlation from -1 to 0 lowers its score from
    3 to 0. *)
Lemma assess_accuracy_monotone_counterexample :
  let first := _assess_accuracy (-1) 1 0 0 1 in
  let second := _assess_accuracy 0 1 0 0 1 in
  (-1 <=? 0)%float = true /\
  (1 <=? 1)%float = true /\
  (0 <=? 0)%float = true /\
  Assessment.overall_score first = 3 /\
  Assessment.overall_score second = 0.
Proof. cbv zeta. repeat split. Qed.

(** * Further properties: the use case and the code around it *)

(** ** Slices, and the forecast at its edges *)

Lemma len_py_slice_bounds {A : Type} (l : list A) (lo hi : Z) :
  len (py_slice l lo hi)
  = Z.max 0 (slice_bound (len l) hi - slice_bound (len l) lo).
Proof.
  unfold py_slice.
  assert (Hlo : 0 <= slice_bound (len l) lo <= len l).
  { pose proof (len_nonneg l). unfold slice_bound. destruct (Z.ltb_spec lo 0); lia. }
  assert (Hhi : 0 <= slice_bound (len l) hi <= len l).
  { pose proof (len_nonneg l). unfold slice_bound. destruct (Z.ltb_spec hi 0); lia. }
  cbv zeta. unfold len in *. rewrite length_take, length_drop. lia.
Qed.

(** X1: [predict_sequence] raises the input-length error of
    [predict_single] in exactly one situation: an empty window
    ([input_size = 0], initial sequence [[]]) and two steps or more.  The
    model has then been called once, with the empty window, before the
    second step finds a window of one element. *)
Theorem predict_sequence_input_length_error :
  forall (model : Model) (config : ModelConfig)
         (initial_sequence : list float) (steps : Z),
    (returned (predict_sequence model config initial_sequence steps)
       = Raise (ValueError InputLength)
     <-> initial_sequence = [] /\ input_size config = 0 /\ 2 <= steps) /\
    (returned (predict_sequence model config initial_sequence steps)
       = Raise (ValueError InputLength) ->
     calls (predict_sequence model config initial_sequence steps) = [[]]).
Proof.
  intros model config initial_sequence steps.
  assert (Hcase : (initial_sequence = [] /\ input_size config = 0 /\ 2 <= steps ->
             run (predict_sequence model config initial_sequence steps)
             = (Raise (ValueError InputLength), [[]])) /\
            (returned (predict_sequence model config initial_sequence steps)
               = Raise (ValueError InputLength) ->
             initial_sequence = [] /\ input_size config = 0 /\ 2 <= steps)).
  { split.
    - intros (-> & Hsize & Hsteps).
      rewrite predict_sequence_checked by (rewrite Hsize; reflexivity).
      unfold run.
      destruct (Z.to_nat steps) as [| [| n]] eqn:Hn; [lia | lia |].
      rewrite predict_loop_step, predict_single_ok by (rewrite Hsize; reflexivity).
      unfold Ok at 1. rewrite predict_loop_step, predict_single_raises.
      + reflexivity.
      + rewrite Hsize. cbn. discriminate.
    - intros Hret.
      destruct (Z.eq_dec (len initial_sequence) (input_size config)) as [Hlen | Hlen].
      + destruct (Z_le_gt_dec 1 (input_size config)) as [Hpos | Hpos].
        { unfold returned in Hret.
          rewrite predict_sequence_returns in Hret by (assumption || (left; assumption)).
          discriminate. }
        destruct (Z_le_gt_dec steps 1) as [Hone | Hone].
        { unfold returned in Hret.
          rewrite predict_sequence_returns in Hret by (assumption || (right; assumption)).
          discriminate. }
        pose proof (len_nonneg initial_sequence).
        split; [| lia].
        destruct initial_sequence; [reflexivity |].
        unfold len in *; cbn in *; lia.
      + unfold returned, run, predict_sequence in Hret.
        rewrite (proj2 (Z.eqb_neq _ _) Hlen) in Hret. discriminate. }
  destruct Hcase as [Hif Honly]. split; [split |].
  - exact Honly.
  - intros H. unfold returned. rewrite (Hif H). reflexivity.
  - intros H. unfold calls. rewrite (Hif (Honly H)). reflexivity.
Qed.

(** The run of [predict_from_csv] once the range check has passed and the
    window cut from the series has the configured length. *)
Lemma predict_from_csv_returns (model : Model) (config : ModelConfig)
    (data : list float) (start_index steps : Z) :
  let window := py_slice data start_index (start_index + input_size config) in
  start_index + input_size config < len data ->
  len window = input_size config ->
  1 <= input_size config \/ steps <= 1 ->
  run (predict_from_csv model config data start_index steps) =
  (Ok {| Forecast.initial_sequence := window;
         Forecast.predictions := forecast_values model (Z.to_nat steps) window;
         Forecast.actual_values :=
           py_slice data (start_index + input_size config)
             (Z.min (start_index + input_size config + steps) (len data));
         Forecast.start_index := start_index;
         Forecast.prediction_steps :=
           len (forecast_values model (Z.to_nat steps) window);
         Forecast.input_size := input_size config |},
   forecast_windows model (Z.to_nat steps) window).
Proof.
  intros window Hrange Hlen Hsize.
  pose proof (predict_sequence_returns model config window steps Hlen Hsize) as Hrun.
  unfold run, predict_from_csv in *.
  destruct (Z.leb_spec (len data) (start_index + input_size config)); [lia |].
  unfold mbind, M_bind. fold window. rewrite Hrun. reflexivity.
Qed.

(** Without a common sample the first reduction that needs one raises. *)
Lemma evaluate_predictions_empty (np : numpy_stats)
    (predictions actual_values : list float) :
  predictions = [] \/ actual_values = [] ->
  evaluate_predictions np predictions actual_values
  = Raise (ValueError ZeroSizeReduction).
Proof.
  intros Hempty. rewrite evaluate_predictions_truncates.
  replace (Nat.min (length predictions) (length actual_values)) with 0%nat
    by (destruct Hempty as [-> | ->]; cbn; lia).
  reflexivity.
Qed.

(** X2: with [prediction_steps <= 0] the loop body never runs: whenever
    [predict_from_csv] returns, its [predictions] are empty,
    [prediction_steps] is 0 and the model was not called; evaluating such a
    result raises numpy's zero-size [ValueError]. *)
Theorem predict_from_csv_no_steps :
  forall (np : numpy_stats) (model : Model) (config : ModelConfig)
         (data : list float) (start_index steps : Z) (r : Forecast.t),
    steps <= 0 ->
    returned (predict_from_csv model config data start_index steps) = Ok r ->
    Forecast.predictions r = [] /\
    Forecast.prediction_steps r = 0 /\
    calls (predict_from_csv model config data start_index steps) = [] /\
    evaluate_predictions np (Forecast.predictions r) (Forecast.actual_values r)
      = Raise (ValueError ZeroSizeReduction).
Proof.
  intros np model config data start_index steps r Hsteps Hr.
  pose proof Hr as Hinv.
  apply predict_from_csv_inv in Hinv as (Hrange & predictions & Hseq & _).
  apply predict_sequence_inv in Hseq as (Hlen & _ & _).
  pose proof (predict_from_csv_returns model config data start_index steps
                Hrange Hlen ltac:(right; lia)) as Hrun.
  unfold returned, calls in *. rewrite Hrun in *. cbn [fst snd] in *.
  injection Hr as <-.
  replace (Z.to_nat steps) with 0%nat by lia.
  cbn [Forecast.predictions Forecast.prediction_steps Forecast.actual_values
       forecast_values forecast_windows map].
  repeat (split; [reflexivity |]).
  apply evaluate_predictions_empty. left. reflexivity.
Qed.

Lemma predict_from_csv_no_steps_witness :
  let model : Model := fun _ => 0%float in
  let config := {| input_size := 2 |} in
  let data := [1%float; 2%float; 3%float; 4%float] in
  exists r : Forecast.t,
    returned (predict_from_csv model config data 0 (-3)) = Ok r /\
    Forecast.predictions r = [] /\
    Forecast.actual_values r = [3%float].
Proof.
  intros model config data. eexists. split; [reflexivity |].
  split; [| reflexivity].
  apply (predict_from_csv_no_steps
           {| np_std := fun _ => 0%float; np_var := fun _ => 0%float;
              np_percentile := fun _ _ => 0%float; np_median := fun _ => 0%float;
              np_corrcoef := fun _ _ => 0%float |}
           model config data 0 (-3) _ ltac:(lia) eq_refl).
Defined.

(** X3: the forecast reads nothing of the series but its initial window.
    Two series that agree on [data[start_index : start_index + input_size]]
    and both pass the range check give the same predictions, from the same
    calls of the model, whatever values follow the window. *)
Theorem predict_from_csv_no_lookahead :
  forall (model : Model) (config : ModelConfig) (data data' : list float)
         (start_index steps : Z) (r : Forecast.t),
    py_slice data start_index (start_index + input_size config)
      = py_slice data' start_index (start_index + input_size config) ->
    start_index + input_size config < len data' ->
    returned (predict_from_csv model config data start_index steps) = Ok r ->
    exists r' : Forecast.t,
      returned (predict_from_csv model config data' start_index steps) = Ok r' /\
      Forecast.predictions r' = Forecast.predictions r /\
      calls (predict_from_csv model config data' start_index steps)
        = calls (predict_from_csv model config data start_index steps).
Proof.
  intros model config data data' start_index steps r Hwin Hrange' Hr.
  unfold returned, calls, run, predict_from_csv in *.
  destruct (Z.leb_spec (len data) (start_index + input_size config));
    [discriminate |].
  destruct (Z.leb_spec (len data') (start_index + input_size config)); [lia |].
  unfold mbind, M_bind in *. rewrite <- Hwin.
  destruct (predict_sequence _ _ _ _ []) as [[e | predictions] log];
    cbn in *; [discriminate |].
  injection Hr as <-. eexists. split; [reflexivity |]. split; reflexivity.
Qed.

Lemma predict_from_csv_no_lookahead_witness :
  let model : Model := fun w => (np_sum w)%float in
  let config := {| input_size := 2 |} in
  exists r r' : Forecast.t,
    returned (predict_from_csv model config [1; 2; 3; 4]%float 0 2) = Ok r /\
    returned (predict_from_csv model config [1; 2; 9]%float 0 2) = Ok r' /\
    Forecast.predictions r' = Forecast.predictions r /\
    Forecast.actual_values r' <> Forecast.actual_values r.
Proof.
  intros model config.
  destruct (predict_from_csv_no_lookahead model config
              [1; 2; 3; 4]%float [1; 2; 9]%float 0 2 _ eq_refl eq_refl eq_refl)
    as (r' & Hr' & Hpred & _).
  eexists. exists r'. split; [reflexivity |]. split; [exact Hr' |].
  split; [exact Hpred |].
  cbv in Hr'. injection Hr' as <-. cbn. discriminate.
Defined.

(** X4: a negative [start_index] whose window would run past the end of
    the series ([start_index < 0 <= start_index + input_size]) passes the
    range check, but the slice it cuts is shorter than [input_size]:
    [predict_from_csv] raises the initial-length error of
    [predict_sequence], and the model is never called. *)
Theorem predict_from_csv_negative_start :
  forall (model : Model) (config : ModelConfig) (data : list float)
         (start_index steps : Z),
    start_index < 0 ->
    0 <= start_index + input_size config ->
    start_index + input_size config < len data ->
    returned (predict_from_csv model config data start_index steps)
      = Raise (ValueError InitialLength) /\
    calls (predict_from_csv model config data start_index steps) = [].
Proof.
  intros model config data start_index steps Hneg Hend Hrange.
  assert (Hwin : len (py_slice data start_index (start_index + input_size config))
                 <> input_size config).
  { rewrite len_py_slice_bounds. unfold slice_bound.
    destruct (Z.ltb_spec start_index 0); [| lia].
    destruct (Z.ltb_spec (start_index + input_size config) 0); lia. }
  unfold returned, calls, run, predict_from_csv.
  destruct (Z.leb_spec (len data) (start_index + input_size config)); [lia |].
  unfold mbind, M_bind, predict_sequence.
  rewrite (proj2 (Z.eqb_neq _ _) Hwin). split; reflexivity.
Qed.

Lemma predict_from_csv_negative_start_witness :
  let model : Model := fun _ => 0%float in
  let config := {| input_size := 2 |} in
  let data := [1; 2; 3; 4]%float in
  returned (predict_from_csv model config data (-1) 1)
    = Raise (ValueError InitialLength) /\
  calls (predict_from_csv model config data (-1) 1) = [].
Proof.
  intros model config data.
  apply (predict_from_csv_negative_start model config data (-1) 1);
    [lia | vm_compute; discriminate | reflexivity].
Defined.

(** X5: a negative [start_index], at least [-len(data)], with
    [start_index + input_size + steps < 0] counts from the end of the
    series: the forecast has the window, the predictions and the [steps]
    actual values of the forecast from [len(data) + start_index]; only the
    [start_index] it reports is the negative one. *)
Theorem predict_from_csv_from_the_end :
  forall (model : Model) (config : ModelConfig) (data : list float)
         (start_index steps : Z),
    - len data <= start_index ->
    0 <= input_size config ->
    0 <= steps ->
    start_index + input_size config + steps < 0 ->
    1 <= input_size config \/ steps <= 1 ->
    exists r r' : Forecast.t,
      returned (predict_from_csv model config data start_index steps) = Ok r /\
      returned (predict_from_csv model config data (len data + start_index) steps)
        = Ok r' /\
      Forecast.initial_sequence r = Forecast.initial_sequence r' /\
      Forecast.predictions r = Forecast.predictions r' /\
      Forecast.actual_values r = Forecast.actual_values r' /\
      len (Forecast.actual_values r) = steps /\
      Forecast.start_index r = start_index.
Proof.
  intros model config data start_index steps Hlow Hsize Hsteps Hend Hone.
  set (n := len data) in *. set (k := input_size config) in *.
  assert (Hslice : forall lo hi : Z, - n <= lo -> lo <= hi -> hi < 0 ->
            py_slice data lo hi = py_slice data (n + lo) (n + hi)).
  { intros lo hi H1 H2 H3. unfold py_slice, slice_bound. fold n.
    destruct (Z.ltb_spec lo 0), (Z.ltb_spec hi 0),
             (Z.ltb_spec (n + lo) 0), (Z.ltb_spec (n + hi) 0); try lia.
    f_equal; [f_equal; lia | f_equal; lia]. }
  assert (Hwin : py_slice data start_index (start_index + k)
                 = py_slice data (n + start_index) (n + start_index + k)).
  { rewrite Hslice by lia. f_equal. lia. }
  assert (Hlen : len (py_slice data (n + start_index) (n + start_index + k)) = k).
  { rewrite len_py_slice; fold n; lia. }
  assert (Hact : py_slice data (start_index + k)
                   (Z.min (start_index + k + steps) n)
                 = py_slice data (n + start_index + k)
                     (Z.min (n + start_index + k + steps) n)).
  { rewrite !Z.min_l by lia. rewrite Hslice by lia. f_equal; lia. }
  pose proof (predict_from_csv_returns model config data start_index steps
                ltac:(fold n k; lia) ltac:(fold k; rewrite Hwin; exact Hlen) Hone)
    as Hrun.
  pose proof (predict_from_csv_returns model config data (n + start_index) steps
                ltac:(fold n k; lia) Hlen Hone) as Hrun'.
  fold n k in Hrun, Hrun'.
  eexists. eexists. unfold returned. rewrite Hrun, Hrun'. cbn [fst].
  split; [reflexivity |]. split; [reflexivity |].
  cbn [Forecast.initial_sequence Forecast.predictions Forecast.actual_values
       Forecast.start_index].
  rewrite Hwin, Hact.
  repeat (split; [reflexivity |]). split; [| reflexivity].
  rewrite Z.min_l by lia. rewrite len_py_slice; fold n; lia.
Qed.

Lemma predict_from_csv_from_the_end_witness :
  let model : Model := fun _ => 0%float in
  let config := {| input_size := 2 |} in
  let data := [1; 2; 3; 4; 5]%float in
  exists r r' : Forecast.t,
    returned (predict_from_csv model config data (-4) 1) = Ok r /\
    returned (predict_from_csv model config data (len data + -4) 1) = Ok r' /\
    Forecast.initial_sequence r = Forecast.initial_sequence r' /\
    Forecast.predictions r = Forecast.predictions r' /\
    Forecast.actual_values r = Forecast.actual_values r' /\
    len (Forecast.actual_values r) = 1 /\
    Forecast.start_index r = -4.
Proof.
  intros model config data.
  apply (predict_from_csv_from_the_end model config data (-4) 1);
    [vm_compute; discriminate | vm_compute; discriminate | lia | reflexivity
    | left; vm_compute; discriminate].
Defined.

(** X6: [evaluate_predictions] raises exactly when one of its two
    arguments is empty; what it raises is the zero-size [ValueError] of the
    first numpy reduction that needs an element, and nothing else; on two
    non-empty sequences it returns a metrics dictionary. *)
Theorem evaluate_predictions_raises_iff_empty :
  forall (np : numpy_stats) (predictions actual_values : list float),
    (evaluate_predictions np predictions actual_values
       = Raise (ValueError ZeroSizeReduction)
     <-> predictions = [] \/ actual_values = []) /\
    (forall e : exn,
       evaluate_predictions np predictions actual_values = Raise e ->
       e = ValueError ZeroSizeReduction) /\
    (predictions <> [] -> actual_values <> [] ->
     exists m : Metrics.t,
       evaluate_predictions np predictions actual_values = Ok m).
Proof.
  intros np predictions actual_values.
  assert (Hok : predictions <> [] -> actual_values <> [] ->
                exists m : Metrics.t,
                  evaluate_predictions np predictions actual_values = Ok m).
  { intros Hp Ha.
    destruct (evaluate_predictions_fields np predictions actual_values)
      as (m & _ & _ & Hm & _); [| exists m; exact Hm].
    destruct predictions, actual_values; cbn; congruence || lia. }
  assert (Hcases : (predictions = [] \/ actual_values = []) \/
                   (predictions <> [] /\ actual_values <> [])).
  { destruct predictions, actual_values; auto; right; split; discriminate. }
  split; [split |]; [| | split].
  - intros Hraise. destruct Hcases as [Hempty | [Hp Ha]]; [exact Hempty |].
    destruct (Hok Hp Ha) as [m Hm]. rewrite Hm in Hraise. discriminate.
  - apply evaluate_predictions_empty.
  - intros e He. destruct Hcases as [Hempty | [Hp Ha]].
    + rewrite (evaluate_predictions_empty np _ _ Hempty) in He.
      injection He as <-. reflexivity.
    + destruct (Hok Hp Ha) as [m Hm]. rewrite Hm in He. discriminate.
  - exact Hok.
Qed.

(** X7: the range check of [predict_from_csv] leaves at least one actual
    value.  For [start_index >= 0], [input_size >= 1], one step or more and
    [start_index + input_size < len(data)], the forecast returns and
    [evaluate_predictions] on its [predictions] and [actual_values] returns
    too, over [min(steps, len(data) - (start_index + input_size))] samples,
    which is at least 1. *)
Theorem forecast_then_evaluate :
  forall (np : numpy_stats) (model : Model) (config : ModelConfig)
         (data : list float) (start_index steps : Z),
    0 <= start_index ->
    1 <= input_size config ->
    1 <= steps ->
    start_index + input_size config < len data ->
    exists (r : Forecast.t) (m : Metrics.t),
      returned (predict_from_csv model config data start_index steps) = Ok r /\
      evaluate_predictions np (Forecast.predictions r) (Forecast.actual_values r)
        = Ok m /\
      Metrics.samples m
        = Z.min steps (len data - (start_index + input_size config)) /\
      1 <= Metrics.samples m.
Proof.
  intros np model config data start_index steps Hstart Hsize Hsteps Hrange.
  assert (Hlen : len (py_slice data start_index (start_index + input_size config))
                 = input_size config) by (rewrite len_py_slice; lia).
  pose proof (predict_from_csv_returns model config data start_index steps
                Hrange Hlen ltac:(left; lia)) as Hrun.
  unfold returned. rewrite Hrun. cbn [fst].
  set (predictions := forecast_values model (Z.to_nat steps) _).
  set (actual_values :=
         py_slice data (start_index + input_size config)
           (Z.min (start_index + input_size config + steps) (len data))).
  assert (Hp : len predictions = steps)
    by (unfold predictions, len; rewrite forecast_values_length; lia).
  assert (Ha : len actual_values
               = Z.min steps (len data - (start_index + input_size config)))
    by (unfold actual_values; rewrite len_py_slice; lia).
  destruct (evaluate_predictions_fields np predictions actual_values)
    as (m & _ & _ & Hm & _); [unfold len in *; lia |].
  eexists. exists m. split; [reflexivity |].
  cbn [Forecast.predictions Forecast.actual_values].
  split; [exact Hm |].
  rewrite (evaluate_predictions_samples _ _ _ _ Hm). lia.
Qed.

Lemma forecast_then_evaluate_witness :
  let np := {| np_std := fun _ => 0%float; np_var := fun _ => 0%float;
               np_percentile := fun _ _ => 0%float; np_median := fun _ => 0%float;
               np_corrcoef := fun _ _ => 0%float |} in
  let model : Model := fun _ => 0%float in
  let config := {| input_size := 2 |} in
  let data := [1; 2; 3; 4; 5]%float in
  exists (r : Forecast.t) (m : Metrics.t),
    returned (predict_from_csv model config data 1 7) = Ok r /\
    evaluate_predictions np (Forecast.predictions r) (Forecast.actual_values r)
      = Ok m /\
    Metrics.samples m = Z.min 7 (len data - (1 + input_size config)) /\
    1 <= Metrics.samples m.
Proof.
  intros np model config data.
  apply (forecast_then_evaluate np model config data 1 7);
    [lia | vm_compute; discriminate | lia | reflexivity].
Defined.

(** ** NaN *)

Lemma is_nan_false_spec (x : float) : is_nan x = false <-> Prim2SF x <> S754_nan.
Proof.
  rewrite <- is_nan_spec. destruct (is_nan x); split; congruence.
Qed.

Lemma leb_nan_r (t v : float) : is_nan v = true -> (t <=? v)%float = false.
Proof.
  rewrite is_nan_spec, FloatAxioms.leb_spec. intros ->.
  unfold SFleb, SFcompare. destruct (Prim2SF t); reflexivity.
Qed.

Lemma leb_nan_l (v t : float) : is_nan v = true -> (v <=? t)%float = false.
Proof.
  rewrite is_nan_spec, FloatAxioms.leb_spec. intros ->. reflexivity.
Qed.

Lemma metric_score_nan (value excellent good acceptable : float) :
  is_nan value = true -> _get_metric_score value excellent good acceptable = 0.
Proof.
  intros Hnan. unfold _get_metric_score. rewrite !leb_nan_r by assumption.
  reflexivity.
Qed.

Lemma abs_nan (x : float) : is_nan x = true -> is_nan (PrimFloat.abs x) = true.
Proof. rewrite !is_nan_spec, FloatAxioms.abs_spec. intros ->. reflexivity. Qed.

Lemma sub_nan_r (x y : float) : is_nan y = true -> is_nan (x - y)%float = true.
Proof.
  rewrite !is_nan_spec, FloatAxioms.sub_spec. intros ->.
  destruct (Prim2SF x); reflexivity.
Qed.

Lemma div_nan_r (x y : float) : is_nan y = true -> is_nan (x / y)%float = true.
Proof.
  rewrite !is_nan_spec, FloatAxioms.div_spec. intros ->.
  destruct (Prim2SF x); reflexivity.
Qed.

Lemma eqb_nan_l (x y : float) : is_nan x = true -> (x =? y)%float = false.
Proof.
  rewrite is_nan_spec, FloatAxioms.eqb_spec. intros ->. reflexivity.
Qed.

(** X8: a NaN among the arguments of [_assess_accuracy] (a correlation
    that numpy could not compute, say) makes every comparison of
    [_get_metric_score] on it false: the metric it enters scores 0, so
    [overall_score] is 0 and the verdict is Insufficient, not acceptable. *)
Theorem assess_accuracy_nan :
  forall correlation r_squared normalized_rmse mae data_range : float,
    is_nan correlation || is_nan r_squared || is_nan normalized_rmse
      || is_nan mae || is_nan data_range = true ->
    let a := _assess_accuracy correlation r_squared normalized_rmse mae data_range in
    Assessment.overall_score a = 0 /\
    Assessment.level a = Insufficient /\
    Assessment.acceptable a = false /\
    Assessment.recommendation a = recommendation_insufficient.
Proof.
  intros correlation r_squared normalized_rmse mae data_range Hnan a.
  pose proof (assess_accuracy_verdict correlation r_squared normalized_rmse
                mae data_range) as Hv.
  cbv zeta in Hv. fold a in Hv.
  destruct (assess_accuracy_scores correlation r_squared normalized_rmse mae
              data_range) as (_ & Hc & Hr & Hn & Hm & Ho).
  fold a in Hc, Hr, Hn, Hm, Ho.
  match type of Hc with _ = ?s =>
    pose proof (metric_score_range _ _ _ _ : 0 <= s <= 3) as Hc' end.
  match type of Hr with _ = ?s =>
    pose proof (metric_score_range _ _ _ _ : 0 <= s <= 3) as Hr' end.
  match type of Hn with _ = ?s =>
    pose proof (metric_score_range _ _ _ _ : 0 <= s <= 3) as Hn' end.
  match type of Hm with _ = ?s =>
    pose proof (metric_score_range _ _ _ _ : 0 <= s <= 3) as Hm' end.
  assert (Hzero : Assessment.correlation_score a = 0 \/
                  Assessment.r_squared_score a = 0 \/
                  Assessment.normalized_rmse_score a = 0 \/
                  Assessment.mae_ratio_score a = 0).
  { rewrite !orb_true_iff in Hnan.
    destruct Hnan as [[[[Hnan | Hnan] | Hnan] | Hnan] | Hnan].
    - left. rewrite Hc. apply metric_score_nan, abs_nan, Hnan.
    - right; left. rewrite Hr. apply metric_score_nan, Hnan.
    - right; right; left. rewrite Hn. apply metric_score_nan, sub_nan_r, Hnan.
    - right; right; right. rewrite Hm.
      destruct (negb (data_range =? 0)%float).
      + apply metric_score_nan, sub_nan_r, div_nan_l, Hnan.
      + reflexivity.
    - right; right; right. rewrite Hm.
      rewrite (eqb_nan_l data_range 0 Hnan). cbn [negb].
      apply metric_score_nan, sub_nan_r, div_nan_r, Hnan. }
  rewrite <- Hc in Hc'. rewrite <- Hr in Hr'. rewrite <- Hn in Hn'.
  rewrite <- Hm in Hm'.
  assert (Hscore : Assessment.overall_score a = 0) by lia.
  rewrite Hscore in Hv. cbn in Hv. injection Hv as Hl Ha Hrec.
  repeat split; assumption.
Qed.

Lemma assess_accuracy_nan_witness :
  let a := _assess_accuracy nan 1 0 0 1 in
  Assessment.overall_score a = 0 /\
  Assessment.level a = Insufficient /\
  Assessment.acceptable a = false /\
  Assessment.recommendation a = recommendation_insufficient.
Proof. apply (assess_accuracy_nan nan 1 0 0 1). reflexivity. Defined.

(** ** The extremes of the absolute errors *)

Lemma SFleb_total (x y : spec_float) :
  x <> S754_nan -> y <> S754_nan -> SFleb x y = false -> SFleb y x = true.
Proof.
  unfold SFleb, SFcompare.
  destruct x as [sx | sx | | sx mx ex], y as [sy | sy | | sy my ey];
    try congruence; intros _ _;
    try (destruct sx; (discriminate || reflexivity));
    try (destruct sy; (discriminate || reflexivity));
    try (destruct sx, sy; (discriminate || reflexivity)).
  replace (Pos.compare_cont Eq mx my) with (Pos.compare mx my) by reflexivity.
  replace (Pos.compare_cont Eq my mx) with (Pos.compare my mx) by reflexivity.
  rewrite (Z.compare_antisym ex ey), (Pos.compare_antisym mx my).
  destruct sx, sy; try discriminate; try reflexivity;
    destruct (ex ?= ey); cbn; try discriminate; try reflexivity;
    destruct (mx ?= my)%positive; cbn; discriminate || reflexivity.
Qed.

Lemma leb_total (x y : float) :
  is_nan x = false -> is_nan y = false ->
  (x <=? y)%float = false -> (y <=? x)%float = true.
Proof.
  rewrite !is_nan_false_spec, !FloatAxioms.leb_spec. apply SFleb_total.
Qed.

Lemma leb_refl (x : float) : is_nan x = false -> (x <=? x)%float = true.
Proof.
  rewrite is_nan_false_spec, FloatAxioms.leb_spec. intros Hx.
  unfold SFleb. rewrite SFcompare_refl by assumption. reflexivity.
Qed.

(** The [maximum] reduction from an accumulator that is not NaN over
    elements none of which is NaN. *)
Lemma fold_maximum_spec (a : list float) :
  forall acc : float,
    is_nan acc = false ->
    Forall (fun e => is_nan e = false) a ->
    let m := fold_left np_maximum a acc in
    is_nan m = false /\
    (acc <=? m)%float = true /\
    Forall (fun e => (e <=? m)%float = true) a /\
    (m = acc \/ In m a).
Proof.
  induction a as [| e a IH]; intros acc Hacc Hall; cbn [fold_left].
  - split; [assumption |]. split; [apply leb_refl; assumption |].
    split; [constructor | left; reflexivity].
  - inversion Hall as [| ? ? He Ha]; subst.
    assert (Hstep : is_nan (np_maximum acc e) = false /\
                    (acc <=? np_maximum acc e)%float = true /\
                    (e <=? np_maximum acc e)%float = true /\
                    (np_maximum acc e = acc \/ np_maximum acc e = e)).
    { unfold np_maximum. rewrite Hacc, orb_false_r.
      destruct (e <=? acc)%float eqn:Hle.
      - repeat split; auto using leb_refl.
      - repeat split; auto using leb_refl, leb_total. }
    destruct Hstep as (Hnan' & Hacc' & He' & Hor).
    destruct (IH (np_maximum acc e) Hnan' Ha) as (Hm & Hle & Hrest & Hin).
    split; [exact Hm |].
    split; [exact (leb_trans _ _ _ Hacc' Hle) |].
    split.
    + constructor; [exact (leb_trans _ _ _ He' Hle) | exact Hrest].
    + destruct Hin as [-> | Hin].
      * destruct Hor as [-> | ->]; [left; reflexivity | right; left; reflexivity].
      * right; right; exact Hin.
Qed.

Lemma fold_minimum_spec (a : list float) :
  forall acc : float,
    is_nan acc = false ->
    Forall (fun e => is_nan e = false) a ->
    let m := fold_left np_minimum a acc in
    is_nan m = false /\
    (m <=? acc)%float = true /\
    Forall (fun e => (m <=? e)%float = true) a /\
    (m = acc \/ In m a).
Proof.
  induction a as [| e a IH]; intros acc Hacc Hall; cbn [fold_left].
  - split; [assumption |]. split; [apply leb_refl; assumption |].
    split; [constructor | left; reflexivity].
  - inversion Hall as [| ? ? He Ha]; subst.
    assert (Hstep : is_nan (np_minimum acc e) = false /\
                    (np_minimum acc e <=? acc)%float = true /\
                    (np_minimum acc e <=? e)%float = true /\
                    (np_minimum acc e = acc \/ np_minimum acc e = e)).
    { unfold np_minimum. rewrite Hacc, orb_false_r.
      destruct (acc <=? e)%float eqn:Hle.
      - repeat split; auto using leb_refl.
      - repeat split; auto using leb_refl, leb_total. }
    destruct Hstep as (Hnan' & Hacc' & He' & Hor).
    destruct (IH (np_minimum acc e) Hnan' Ha) as (Hm & Hle & Hrest & Hin).
    split; [exact Hm |].
    split; [exact (leb_trans _ _ _ Hle Hacc') |].
    split.
    + constructor; [exact (leb_trans _ _ _ Hle He') | exact Hrest].
    + destruct Hin as [-> | Hin].
      * destruct Hor as [-> | ->]; [left; reflexivity | right; left; reflexivity].
      * right; right; exact Hin.
Qed.

(** A NaN met by the reduction is its result. *)
Lemma fold_maximum_nan (a : list float) :
  forall acc : float,
    is_nan acc = true \/ Exists (fun e => is_nan e = true) a ->
    is_nan (fold_left np_maximum a acc) = true.
Proof.
  induction a as [| e a IH]; intros acc Hnan; cbn [fold_left].
  - destruct Hnan as [H | H]; [exact H | inversion H].
  - apply IH. unfold np_maximum.
    destruct Hnan as [H | H].
    + left. rewrite H, orb_true_r. exact H.
    + inversion H as [? ? He | ? ? Ha]; subst; [| right; exact Ha].
      left. destruct (is_nan acc) eqn:Hacc.
      * rewrite orb_true_r. exact Hacc.
      * rewrite (leb_nan_l e acc He). exact He.
Qed.

Lemma fold_minimum_nan (a : list float) :
  forall acc : float,
    is_nan acc = true \/ Exists (fun e => is_nan e = true) a ->
    is_nan (fold_left np_minimum a acc) = true.
Proof.
  induction a as [| e a IH]; intros acc Hnan; cbn [fold_left].
  - destruct Hnan as [H | H]; [exact H | inversion H].
  - apply IH. unfold np_minimum.
    destruct Hnan as [H | H].
    + left. rewrite H, orb_true_r. exact H.
    + inversion H as [? ? He | ? ? Ha]; subst; [| right; exact Ha].
      left. destruct (is_nan acc) eqn:Hacc.
      * rewrite orb_true_r. exact Hacc.
      * rewrite (leb_nan_r acc e He). exact He.
Qed.

(** X9: in the metrics [evaluate_predictions] returns, when no absolute
    error over the common prefix is NaN, [max_error] and [min_error] are
    each the absolute error of some sample, every absolute error lies
    between them, and [min_error <= max_error]; when some absolute error is
    NaN, both are NaN. *)
Theorem error_extremes :
  forall (np : numpy_stats) (predictions actual_values : list float)
         (m : Metrics.t),
    let n := Nat.min (length predictions) (length actual_values) in
    let abs_errors := np_abs (np_sub (take n predictions) (take n actual_values)) in
    evaluate_predictions np predictions actual_values = Ok m ->
    (Forall (fun e => is_nan e = false) abs_errors ->
     In (Metrics.max_error m) abs_errors /\
     In (Metrics.min_error m) abs_errors /\
     Forall (fun e => (Metrics.min_error m <=? e)%float = true /\
                      (e <=? Metrics.max_error m)%float = true) abs_errors /\
     (Metrics.min_error m <=? Metrics.max_error m)%float = true) /\
    (Exists (fun e => is_nan e = true) abs_errors ->
     is_nan (Metrics.max_error m) = true /\
     is_nan (Metrics.min_error m) = true).
Proof.
  intros np predictions actual_values m n abs_errors Hm.
  assert (Hn : (1 <= n)%nat).
  { destruct (Nat.le_gt_cases 1 n) as [H | H]; [exact H |].
    rewrite evaluate_predictions_empty in Hm; [discriminate |].
    unfold n in H. destruct predictions, actual_values; cbn in H; auto; lia. }
  destruct (evaluate_predictions_fields np predictions actual_values Hn)
    as (m' & _ & _ & Hm' & _ & _ & Hmax & Hmin & _).
  rewrite Hm in Hm'. injection Hm' as <-.
  fold n in Hmax, Hmin. fold abs_errors in Hmax, Hmin.
  destruct abs_errors as [| x a]; [discriminate |].
  injection Hmax as Hmax. injection Hmin as Hmin.
  split.
  - intros Hall. inversion Hall as [| ? ? Hx Ha]; subst x0 l.
    destruct (fold_maximum_spec a x Hx Ha) as (_ & Hxmax & Hamax & Hinmax).
    destruct (fold_minimum_spec a x Hx Ha) as (_ & Hxmin & Hamin & Hinmin).
    rewrite Hmax in Hxmax, Hamax, Hinmax. rewrite Hmin in Hxmin, Hamin, Hinmin.
    split; [destruct Hinmax as [-> | H]; [left; reflexivity | right; exact H] |].
    split; [destruct Hinmin as [-> | H]; [left; reflexivity | right; exact H] |].
    split.
    + constructor; [split; assumption |].
      rewrite Forall_forall in *. intros e He. split; auto.
    + exact (leb_trans _ _ _ Hxmin Hxmax).
  - intros Hex.
    assert (Hcase : is_nan x = true \/ Exists (fun e => is_nan e = true) a)
      by (inversion Hex; auto).
    rewrite <- Hmax, <- Hmin.
    split; [apply fold_maximum_nan | apply fold_minimum_nan]; exact Hcase.
Qed.

Lemma error_extremes_witness :
  let np := {| np_std := fun _ => 0%float; np_var := fun _ => 0%float;
               np_percentile := fun _ _ => 0%float; np_median := fun _ => 0%float;
               np_corrcoef := fun _ _ => 0%float |} in
  exists m : Metrics.t,
    evaluate_predictions np [1; 5; 2]%float [2; 3; 2; 7]%float = Ok m /\
    Metrics.max_error m = 2%float /\
    Metrics.min_error m = 0%float /\
    (Metrics.min_error m <=? Metrics.max_error m)%float = true.
Proof.
  intros np. eexists. split; [reflexivity |].
  split; [reflexivity |]. split; [reflexivity |].
  refine (proj2 (proj2 (proj2 (proj1
            (error_extremes np [1; 5; 2]%float [2; 3; 2; 7]%float _ eq_refl) _)))).
  repeat constructor.
Defined.

(** ** The training samples *)

Lemma range_cons (n : Z) (k : Z) :
  0 < n -> seqZ k n = k :: seqZ (k + 1) (n - 1).
Proof. intros Hn. rewrite seqZ_cons by lia. reflexivity. Qed.

Lemma mapM_scalars {A : Type} (ts : list A) :
  mapM scalar_of (map Scalar ts) = Some ts.
Proof.
  induction ts as [| t ts IH]; [reflexivity |].
  cbn. cbn in IH. rewrite IH. reflexivity.
Qed.

Lemma mapM_rows {A : Type} (ws : list (list A)) :
  mapM row_of (map Row ws) = Some ws.
Proof.
  induction ws as [| w ws IH]; [reflexivity |].
  cbn. cbn in IH. rewrite IH. reflexivity.
Qed.

Lemma np_array_scalars {A : Type} (ts : list A) :
  np_array (map Scalar ts) = inr (Array1 ts).
Proof.
  destruct ts as [| t ts]; [reflexivity |].
  unfold np_array. cbn [map]. rewrite <- (map_cons Scalar), mapM_scalars.
  reflexivity.
Qed.

Lemma np_array_rows {A : Type} (ws : list (list A)) (m : Z) :
  ws <> [] -> Forall (fun w => len w = m) ws ->
  np_array (map Row ws) = inr (Array2 ws).
Proof.
  intros Hne Hall. destruct ws as [| w ws]; [congruence |].
  unfold np_array. cbn [map]. rewrite <- (map_cons Row), mapM_rows.
  replace (forallb _ (w :: ws)) with true; [reflexivity |].
  symmetry. apply forallb_forall. intros r Hr.
  rewrite Forall_forall in Hall.
  rewrite (Hall r ltac:(apply list_elem_of_In; exact Hr)).
  rewrite (Hall w ltac:(left)). apply Z.eqb_refl.
Qed.

Section DatasetFacts.
Context {A : Type}.
Implicit Types (data : list A) (input_size : Z).

(** The windows and the targets the loop collects over the indices
    [k, k+1, ..., k+n-1], when each index has a target. *)
Lemma create_loop_scalars data input_size (n : nat) :
  forall (k : Z) (X y : list (item A)),
    0 <= k -> 0 <= input_size ->
    k + Z.of_nat n + input_size <= len data ->
    SinWaveDataset.create_loop input_size 1 data (seqZ k (Z.of_nat n)) X y =
    inr (X ++ map (fun i => Row (py_slice data i (i + input_size)))
                  (seqZ k (Z.of_nat n)),
         y ++ map Scalar
                  (take n (drop (Z.to_nat (k + input_size)) data))).
Proof.
  induction n as [| n IH]; intros k X y Hk Hsize Hlen.
  - cbn. rewrite !app_nil_r. reflexivity.
  - rewrite range_cons by lia.
    replace (Z.of_nat (S n) - 1) with (Z.of_nat n) by lia.
    cbn [SinWaveDataset.create_loop Z.eqb Pos.eqb].
    unfold py_index.
    destruct (Z.ltb_spec (k + input_size) 0); [lia |].
    destruct (Z.ltb_spec (k + input_size) 0); [lia |].
    destruct (data !! Z.to_nat (k + input_size)) as [t |] eqn:Ht.
    + cbn [bind_outcome]. rewrite IH by lia.
      cbn [map]. rewrite <- !app_assoc. cbn [app].
      replace (Z.to_nat (k + 1 + input_size))
        with (S (Z.to_nat (k + input_size))) by lia.
      rewrite (drop_S _ _ _ Ht). reflexivity.
    + apply lookup_ge_None in Ht. unfold len in Hlen. lia.
Qed.

Lemma windows_lookup data input_size (n : Z) (i : nat) :
  Z.of_nat i < n ->
  windows data input_size n !! i
  = Some (py_slice data (Z.of_nat i) (Z.of_nat i + input_size)).
Proof.
  intros Hi. unfold windows, range.
  rewrite list_lookup_fmap, lookup_seqZ_lt by lia.
  cbn. do 2 f_equal; lia.
Qed.

Lemma windows_length data input_size (n : Z) :
  len (windows data input_size n) = Z.max 0 n.
Proof. unfold windows, range, len. rewrite length_map, length_seqZ. lia. Qed.

Lemma windows_shape data input_size (n : Z) :
  0 <= input_size -> n + input_size <= len data + 1 ->
  Forall (fun w => len w = input_size) (windows data input_size n).
Proof.
  intros Hsize Hn. unfold windows, range. rewrite Forall_fmap.
  apply Forall_forall. intros i Hi. apply elem_of_seqZ in Hi. cbn.
  rewrite len_py_slice; lia.
Qed.

(** The data set of a series, for one target per window. *)
Lemma dataset_init data input_size :
  0 <= input_size ->
  let n := len data - input_size in
  SinWaveDataset.__init__ data input_size 1 =
  inr {| SinWaveDataset.input_size := input_size;
         SinWaveDataset.target_size := 1;
         SinWaveDataset.data := data;
         SinWaveDataset.X :=
           if 0 <? n then Array2 (windows data input_size n) else Array1 [];
         SinWaveDataset.y := Array1 (drop (Z.to_nat input_size) data) |}.
Proof.
  intros Hsize n.
  unfold SinWaveDataset.__init__, SinWaveDataset._create_sequences, range.
  replace (len data - input_size - 1 + 1) with n by (unfold n; lia).
  destruct (Z.ltb_spec 0 n) as [Hpos | Hneg].
  - rewrite <- (Z2Nat.id n) at 1 by lia.
    rewrite create_loop_scalars by lia.
    cbn [bind_outcome app]. rewrite Z2Nat.id by lia.
    fold (range n).
    rewrite <- (map_map (fun i => py_slice data i (i + input_size)) Row).
    fold (windows data input_size n).
    rewrite (np_array_rows _ input_size).
    + cbn [bind_outcome]. rewrite np_array_scalars. cbn [bind_outcome].
      rewrite take_ge; [reflexivity |].
      rewrite length_drop. unfold n, len in *. lia.
    + intros E. pose proof (windows_length data input_size n) as Hl.
      rewrite E in Hl. change (len (@nil (list A))) with 0 in Hl. lia.
    + apply windows_shape; unfold n; lia.
  - replace (seqZ 0 n) with (@nil Z)
      by (unfold seqZ; replace (Z.to_nat n) with 0%nat by lia; reflexivity).
    cbn. rewrite drop_ge; [reflexivity |]. unfold n, len in *. lia.
Qed.

Lemma py_index_ok {B : Type} (a : list B) (k : Z) (x : B) :
  0 <= k -> a !! Z.to_nat k = Some x -> py_index a k = inr x.
Proof.
  intros Hk Hx. unfold py_index.
  destruct (Z.ltb_spec k 0); [lia |].
  destruct (Z.ltb_spec k 0); [lia |]. rewrite Hx. reflexivity.
Qed.

Lemma py_index_negative {B : Type} (a : list B) (k : Z) :
  - len a <= k < 0 -> py_index a k = py_index a (k + len a).
Proof.
  intros Hk. unfold py_index.
  destruct (Z.ltb_spec k 0); [| lia].
  destruct (Z.ltb_spec (k + len a) 0); [lia |].
  destruct (Z.ltb_spec (k + len a) 0); [lia | reflexivity].
Qed.

Lemma py_index_out {B : Type} (a : list B) (k : Z) :
  k < - len a \/ len a <= k -> py_index a k = inl IndexError.
Proof.
  intros Hk. unfold py_index.
  destruct (Z.ltb_spec k 0).
  - destruct (Z.ltb_spec (k + len a) 0); [reflexivity |].
    pose proof (len_nonneg a). lia.
  - destruct (Z.ltb_spec k 0); [lia |].
    rewrite (proj2 (lookup_ge_None a (Z.to_nat k))); [reflexivity |].
    unfold len in Hk. lia.
Qed.

(** What [__getitem__] gives on the data set of [dataset_init]. *)
Lemma dataset_getitem data input_size (idx : Z) :
  0 <= input_size ->
  let n := len data - input_size in
  let ds :=
    {| SinWaveDataset.input_size := input_size;
       SinWaveDataset.target_size := 1;
       SinWaveDataset.data := data;
       SinWaveDataset.X :=
         if 0 <? n then Array2 (windows data input_size n) else Array1 [];
       SinWaveDataset.y := Array1 (drop (Z.to_nat input_size) data) |} in
  (0 <= idx < n ->
   exists target : A,
     data !! Z.to_nat (idx + input_size) = Some target /\
     SinWaveDataset.__getitem__ ds idx
     = inr (Row (py_slice data idx (idx + input_size)), Scalar target)) /\
  (- n <= idx < 0 ->
   SinWaveDataset.__getitem__ ds idx = SinWaveDataset.__getitem__ ds (idx + n)) /\
  (idx < - n \/ n <= idx -> SinWaveDataset.__getitem__ ds idx = inl IndexError).
Proof.
  intros Hsize n ds.
  assert (Hy : len (drop (Z.to_nat input_size) data) = Z.max 0 n)
    by (unfold len, n; rewrite length_drop; unfold len; lia).
  unfold SinWaveDataset.__getitem__. cbn [SinWaveDataset.X SinWaveDataset.y ds].
  destruct (Z.ltb_spec 0 n) as [Hpos | Hneg]; cbn [np_getitem].
  - pose proof (windows_length data input_size n) as Hx.
    split; [| split].
    + intros Hidx.
      destruct (lookup_lt_is_Some_2 data (Z.to_nat (idx + input_size)))
        as [target Ht]; [unfold n, len in *; lia |].
      exists target. split; [exact Ht |].
      rewrite (py_index_ok (windows data input_size n) idx
                 (py_slice data idx (idx + input_size))); [| lia |].
      * cbn [bind_outcome].
        rewrite (py_index_ok _ idx target); [reflexivity | lia |].
        rewrite lookup_drop, <- Ht. f_equal. lia.
      * rewrite windows_lookup by lia. rewrite Z2Nat.id by lia. reflexivity.
    + intros Hidx.
      rewrite (py_index_negative (windows data input_size n)) by lia.
      rewrite (py_index_negative (drop _ data)) by lia.
      rewrite Hx, Hy. rewrite Z.max_r by lia. reflexivity.
    + intros Hidx. rewrite py_index_out by lia. reflexivity.
  - split; [lia |]. split; [lia |].
    intros _. rewrite py_index_out; [reflexivity |].
    unfold len. cbn [length]. lia.
Qed.

End DatasetFacts.

(** X10: [SinWaveDataset] with one target per window, for
    [input_size >= 0]: the data set is built, it has
    [max(0, len(data) - input_size)] samples, sample [idx] is the window
    [data[idx : idx + input_size]] with the value [data[idx + input_size]]
    that follows it, a negative index counts from the last sample, and an
    index outside the samples raises [IndexError]. *)
Theorem dataset_samples :
  forall (A : Type) (data : list A) (input_size : Z),
    0 <= input_size ->
    let n := len data - input_size in
    exists ds : SinWaveDataset.t A,
      SinWaveDataset.__init__ data input_size 1 = inr ds /\
      SinWaveDataset.__len__ ds = inr (Z.max 0 n) /\
      (forall idx : Z, 0 <= idx < n ->
         exists target : A,
           data !! Z.to_nat (idx + input_size) = Some target /\
           SinWaveDataset.__getitem__ ds idx
           = inr (Row (py_slice data idx (idx + input_size)), Scalar target)) /\
      (forall idx : Z, - n <= idx < 0 ->
         SinWaveDataset.__getitem__ ds idx
         = SinWaveDataset.__getitem__ ds (idx + n)) /\
      (forall idx : Z, idx < - n \/ n <= idx ->
         SinWaveDataset.__getitem__ ds idx = inl IndexError).
Proof.
  intros A data input_size Hsize n.
  eexists. split; [apply dataset_init; exact Hsize |].
  fold n. split.
  - unfold SinWaveDataset.__len__. cbn [SinWaveDataset.X].
    destruct (Z.ltb_spec 0 n); cbn [np_len].
    + rewrite windows_length. reflexivity.
    + change (len (@nil A)) with 0. f_equal. lia.
  - split; [| split]; intros idx;
      destruct (dataset_getitem data input_size idx Hsize) as (H1 & H2 & H3);
      assumption.
Qed.

Lemma dataset_samples_witness :
  exists ds : SinWaveDataset.t Z,
    SinWaveDataset.__init__ [10; 20; 30; 40; 50] 2 1 = inr ds /\
    SinWaveDataset.__len__ ds = inr 3 /\
    SinWaveDataset.__getitem__ ds 1 = inr (Row [20; 30], Scalar 40) /\
    SinWaveDataset.__getitem__ ds (-1) = inr (Row [30; 40], Scalar 50) /\
    SinWaveDataset.__getitem__ ds 3 = inl IndexError.
Proof.
  destruct (dataset_samples Z [10; 20; 30; 40; 50] 2 ltac:(lia))
    as (ds & Hinit & Hlen & _ & _ & Hout).
  exists ds. split; [exact Hinit |]. split; [exact Hlen |].
  cbv in Hinit. injection Hinit as <-.
  split; [reflexivity |]. split; [reflexivity |].
  apply Hout. right. vm_compute. discriminate.
Defined.

(** The next window of a series is the window before it, shifted by the
    value that follows it. *)
Lemma window_shift {A : Type} (l : list A) (i k : nat) (x : A) :
  (1 <= k)%nat -> l !! (i + k)%nat = Some x ->
  take k (drop (S i) l) = drop 1 (take k (drop i l)) ++ [x].
Proof.
  intros Hk Hx. destruct k as [| k]; [lia |].
  rewrite (take_S_r (drop (S i) l) k x).
  - f_equal. change (S k) with (1 + k)%nat.
    rewrite <- (take_drop_commute (drop i l) k 1).
    rewrite drop_drop. do 2 f_equal. lia.
  - rewrite lookup_drop, <- Hx. f_equal. lia.
Qed.

Lemma py_slice_window {A : Type} (l : list A) (i k : Z) :
  0 <= i -> 0 <= k ->
  py_slice l i (i + k) = take (Z.to_nat k) (drop (Z.to_nat i) l).
Proof.
  intros Hi Hk. rewrite py_slice_nonneg by lia. do 2 f_equal. lia.
Qed.

(** X11: consecutive samples of the data set overlap as the windows of a
    forecast do: for [input_size >= 1], the window of sample [idx + 1] is
    the window of sample [idx] without its first element and with the
    target of sample [idx] appended. *)
Theorem dataset_windows_shift :
  forall (A : Type) (data : list A) (input_size idx : Z)
         (ds : SinWaveDataset.t A) (w w' : list A) (t t' : A),
    1 <= input_size -> 0 <= idx ->
    SinWaveDataset.__init__ data input_size 1 = inr ds ->
    SinWaveDataset.__getitem__ ds idx = inr (Row w, Scalar t) ->
    SinWaveDataset.__getitem__ ds (idx + 1) = inr (Row w', Scalar t') ->
    w' = drop 1 w ++ [t].
Proof.
  intros A data input_size idx ds w w' t t' Hsize Hidx Hinit Hw Hw'.
  rewrite dataset_init in Hinit by lia. injection Hinit as <-.
  destruct (dataset_getitem data input_size idx ltac:(lia)) as (Hin & _ & _).
  destruct (dataset_getitem data input_size (idx + 1) ltac:(lia))
    as (Hin' & _ & Hout').
  cbv zeta in Hin, Hin', Hout'.
  destruct (Z_lt_ge_dec (idx + 1) (len data - input_size)) as [Hlt | Hge];
    [| rewrite Hout' in Hw' by lia; discriminate].
  destruct (Hin ltac:(lia)) as (x & Hx & Hget). rewrite Hget in Hw.
  destruct (Hin' ltac:(lia)) as (x' & Hx' & Hget'). rewrite Hget' in Hw'.
  injection Hw as <- <-. injection Hw' as <- <-.
  rewrite !py_slice_window by lia.
  replace (Z.to_nat (idx + 1)) with (S (Z.to_nat idx)) by lia.
  apply window_shift; [lia |].
  rewrite <- Hx. f_equal. lia.
Qed.

Lemma dataset_windows_shift_witness :
  exists ds : SinWaveDataset.t Z,
    SinWaveDataset.__init__ [10; 20; 30; 40; 50] 2 1 = inr ds /\
    SinWaveDataset.__getitem__ ds 0 = inr (Row [10; 20], Scalar 30) /\
    SinWaveDataset.__getitem__ ds (0 + 1) = inr (Row [20; 30], Scalar 40) /\
    [20; 30] = drop 1 [10; 20] ++ [30].
Proof.
  eexists. split; [reflexivity |]. split; [reflexivity |].
  split; [reflexivity |].
  apply (dataset_windows_shift Z [10; 20; 30; 40; 50] 2 0 _ [10; 20] [20; 30] 30 40
           ltac:(lia) ltac:(lia) eq_refl eq_refl eq_refl).
Defined.

(** ** The data set and the forecast in single precision *)

Lemma py_slice_map {A B : Type} (f : A -> B) (l : list A) (lo hi : Z) :
  0 <= lo -> 0 <= hi ->
  py_slice (map f l) lo hi = map f (py_slice l lo hi).
Proof.
  intros Hlo Hhi. rewrite !py_slice_nonneg by lia.
  rewrite skipn_map, firstn_map. reflexivity.
Qed.

Lemma len_map {A B : Type} (f : A -> B) (l : list A) : len (map f l) = len l.
Proof. unfold len. rewrite length_map. reflexivity. Qed.

(** The forecast of a network that answers the float32 window of every
    step with the float32 value that follows it in the series. *)
Lemma forecast_values_fit (net : list float -> float) (data : list float)
    (k : nat) :
  (1 <= k)%nat ->
  (forall w : list float, float32 (net w) = net w) ->
  forall (n i : nat) (w : list float),
    (i + k + n <= length data)%nat ->
    map float32 w = map float32 (take k (drop i data)) ->
    (forall (j : nat) (x : float),
       (i <= j < i + n)%nat -> data !! (j + k)%nat = Some x ->
       net (map float32 (take k (drop j data))) = float32 x) ->
    forecast_values (model_of_network net) n w
    = map float32 (take n (drop (i + k) data)).
Proof.
  intros Hk Hnet n. induction n as [| n IH]; intros i w Hlen Hw Hfit;
    [reflexivity |].
  destruct (lookup_lt_is_Some_2 data (i + k)) as [x Hx]; [lia |].
  pose proof (Hfit i x ltac:(lia) Hx) as Hi.
  assert (Hmodel : model_of_network net w = float32 x)
    by (unfold model_of_network; rewrite Hw; exact Hi).
  unfold forecast_values in *. cbn [forecast_windows map].
  unfold next_window. rewrite Hmodel.
  rewrite (IH (S i)).
  - rewrite (drop_S data x (i + k) Hx). reflexivity.
  - lia.
  - rewrite (window_shift data i k x Hk Hx).
    rewrite !map_app, <- !skipn_map, Hw. cbn [map].
    rewrite <- Hi at 1. rewrite Hnet, Hi. reflexivity.
  - intros j y Hj. apply Hfit. lia.
Qed.

(** X12: the samples the model is trained on are the first steps of the
    forecasts, in single precision.  For [input_size >= 1],
    [start_index >= 0] and one step or more, [predict_from_csv] raises the
    start-index error exactly when the data set made of the same values
    has no sample [start_index]; otherwise the window of that sample is
    the forecast's initial sequence converted to float32, which is the
    tensor [predict_single] makes of it, and the sample's target is the
    forecast's first actual value converted to float32. *)
Theorem dataset_matches_forecast :
  forall (model : Model) (config : ModelConfig) (data : list float)
         (start_index steps : Z) (ds : SinWaveDataset.t float),
    1 <= input_size config -> 0 <= start_index -> 1 <= steps ->
    SinWaveDataset.__init__ (SinWaveDataset._load_csv data)
      (input_size config) 1 = inr ds ->
    (returned (predict_from_csv model config data start_index steps)
       = Raise (ValueError StartIndexTooLarge)
     <-> SinWaveDataset.__getitem__ ds start_index = inl IndexError) /\
    (forall (w : list float) (t : float),
       SinWaveDataset.__getitem__ ds start_index = inr (Row w, Scalar t) ->
       exists (r : Forecast.t) (x : float),
         returned (predict_from_csv model config data start_index steps) = Ok r /\
         w = map float32 (Forecast.initial_sequence r) /\
         Forecast.actual_values r !! 0%nat = Some x /\
         t = float32 x).
Proof.
  intros model config data start_index steps ds Hsize Hstart Hsteps Hinit.
  unfold SinWaveDataset._load_csv in Hinit.
  rewrite dataset_init in Hinit by lia. injection Hinit as <-.
  destruct (dataset_getitem (map float32 data) (input_size config) start_index
              ltac:(lia)) as (Hin & _ & Hout).
  cbv zeta in Hin, Hout. rewrite len_map in Hin, Hout |- *.
  set (ds := {| SinWaveDataset.input_size := input_size config |}) in *.
  destruct (Z_lt_ge_dec (start_index + input_size config) (len data))
    as [Hlt | Hge].
  - destruct (Hin ltac:(lia)) as (x & Hx & Hget).
    assert (Hlen : len (py_slice data start_index
                          (start_index + input_size config))
                   = input_size config) by (rewrite len_py_slice; lia).
    pose proof (predict_from_csv_returns model config data start_index steps
                  Hlt Hlen ltac:(left; lia)) as Hrun.
    unfold returned. rewrite Hrun. cbn [fst]. split.
    + rewrite Hget. split; discriminate.
    + intros w t. rewrite Hget. intros [= <- <-].
      rewrite list_lookup_fmap in Hx.
      destruct (data !! Z.to_nat (start_index + input_size config))
        as [x0 |] eqn:Hx0; [| discriminate].
      injection Hx as <-.
      eexists. exists x0. split; [reflexivity |].
      cbn [Forecast.initial_sequence Forecast.actual_values].
      split; [apply py_slice_map; lia |].
      split; [| reflexivity].
      rewrite py_slice_nonneg by lia.
      rewrite lookup_take_lt by lia. rewrite lookup_drop, <- Hx0.
      f_equal. lia.
  - rewrite Hout by lia. split.
    + split; [reflexivity |]. intros _.
      unfold returned, run, predict_from_csv.
      destruct (Z.leb_spec (len data) (start_index + input_size config));
        [reflexivity | lia].
    + intros w t [=].
Qed.

Lemma dataset_matches_forecast_witness :
  let model : Model := fun _ => 0%float in
  let config := {| input_size := 2 |} in
  let data := [0.5; 0.1; 0.25; 0.3; 1]%float in
  exists (ds : SinWaveDataset.t float) (r : Forecast.t),
    SinWaveDataset.__init__ (SinWaveDataset._load_csv data) 2 1 = inr ds /\
    SinWaveDataset.__getitem__ ds 1
      = inr (Row [0.10000000149011612; 0.25]%float,
             Scalar 0.30000001192092896%float) /\
    returned (predict_from_csv model config data 1 2) = Ok r /\
    Forecast.initial_sequence r = [0.1; 0.25]%float /\
    Forecast.actual_values r !! 0%nat = Some 0.3%float /\
    float32 0.1 = 0.10000000149011612%float /\
    float32 0.3 = 0.30000001192092896%float.
Proof.
  intros model config data.
  eexists.
  destruct (proj2 (dataset_matches_forecast model config data 1 2 _
                     ltac:(vm_compute; discriminate) ltac:(lia) ltac:(lia) eq_refl)
              [0.10000000149011612; 0.25]%float 0.30000001192092896%float
              ltac:(vm_compute; reflexivity))
    as (r & x & Hr & Hw & Hx & Ht).
  exists r. split; [reflexivity |]. split; [vm_compute; reflexivity |].
  split; [exact Hr |].
  vm_compute in Hr. injection Hr as <-.
  repeat split; vm_compute; reflexivity.
Defined.

(** X13: a network that has learnt the samples reproduces the series in
    single precision.  If the network, whose answers are float32 numbers,
    answers the window of every sample from [start_index] to
    [start_index + steps - 1] with the sample's target, then
    [predict_from_csv] returns [steps] predictions, and they are its
    [actual_values] converted to float32, when that many values follow the
    window. *)
Theorem perfect_fit_forecast :
  forall (net : list float -> float) (config : ModelConfig)
         (data : list float) (start_index steps : Z)
         (ds : SinWaveDataset.t float),
    1 <= input_size config -> 0 <= start_index -> 0 <= steps ->
    start_index + input_size config < len data ->
    start_index + input_size config + steps <= len data ->
    (forall w : list float, float32 (net w) = net w) ->
    SinWaveDataset.__init__ (SinWaveDataset._load_csv data)
      (input_size config) 1 = inr ds ->
    (forall (idx : Z) (w : list float) (t : float),
       start_index <= idx < start_index + steps ->
       SinWaveDataset.__getitem__ ds idx = inr (Row w, Scalar t) ->
       net w = t) ->
    exists r : Forecast.t,
      returned (predict_from_csv (model_of_network net) config data
                  start_index steps) = Ok r /\
      len (Forecast.predictions r) = steps /\
      Forecast.predictions r = map float32 (Forecast.actual_values r).
Proof.
  intros net config data start_index steps ds Hsize Hstart Hsteps Hrange
         Hend Hnet Hinit Hfit.
  unfold SinWaveDataset._load_csv in Hinit.
  rewrite dataset_init in Hinit by lia. injection Hinit as <-.
  assert (Hlen : len (py_slice data start_index
                        (start_index + input_size config))
                 = input_size config) by (rewrite len_py_slice; lia).
  pose proof (predict_from_csv_returns (model_of_network net) config data
                start_index steps Hrange Hlen ltac:(left; lia)) as Hrun.
  unfold returned. rewrite Hrun. cbn [fst].
  eexists. split; [reflexivity |].
  cbn [Forecast.predictions Forecast.actual_values].
  split; [unfold len; rewrite forecast_values_length; lia |].
  rewrite py_slice_window by lia.
  rewrite Z.min_l by lia.
  rewrite (py_slice_nonneg data (start_index + input_size config)) by lia.
  rewrite (forecast_values_fit net data (Z.to_nat (input_size config))
             ltac:(lia) Hnet (Z.to_nat steps) (Z.to_nat start_index)).
  - do 2 f_equal; [lia |]. f_equal. lia.
  - unfold len in *. lia.
  - reflexivity.
  - intros j x Hj Hx.
    destruct (dataset_getitem (map float32 data) (input_size config)
                (Z.of_nat j) ltac:(lia)) as (Hin & _ & _).
    cbv zeta in Hin.
    destruct Hin as (x' & Hx' & Hget).
    { rewrite len_map. unfold len in *. lia. }
    rewrite py_slice_map, py_slice_window, Nat2Z.id in Hget by lia.
    rewrite (Hfit (Z.of_nat j) _ x' ltac:(lia) Hget).
    replace (Z.to_nat (Z.of_nat j + input_size config))
      with (j + Z.to_nat (input_size config))%nat in Hx' by lia.
    rewrite list_lookup_fmap, Hx in Hx'. cbn in Hx'. congruence.
Qed.

Lemma perfect_fit_forecast_witness :
  let net : list float -> float := fun w =>
    match w with
    | [_; b] =>
        if (b =? 0.30000001192092896)%float then 0.40000000596046448%float
        else 0.5%float
    | _ => 0%float
    end in
  let config := {| input_size := 2 |} in
  let data := [0.1; 0.2; 0.3; 0.4; 0.5]%float in
  exists r : Forecast.t,
    returned (predict_from_csv (model_of_network net) config data 1 2) = Ok r /\
    len (Forecast.predictions r) = 2 /\
    Forecast.predictions r = map float32 (Forecast.actual_values r) /\
    Forecast.actual_values r = [0.4; 0.5]%float /\
    Forecast.predictions r = [0.40000000596046448; 0.5]%float.
Proof.
  intros net config data.
  assert (Hnet : forall w : list float, float32 (net w) = net w).
  { intros w. unfold net.
    destruct w as [| a [| b [| c w]]]; try reflexivity.
    destruct (b =? _)%float; reflexivity. }
  destruct (perfect_fit_forecast net config data 1 2 _
              ltac:(vm_compute; discriminate) ltac:(lia) ltac:(lia)
              ltac:(reflexivity) ltac:(vm_compute; discriminate) Hnet eq_refl)
    as (r & Hr & Hlen & Heq).
  - intros idx w t Hidx.
    assert (Hcases : idx = 1 \/ idx = 2) by lia.
    destruct Hcases as [-> | ->]; vm_compute; intros [= <- <-]; reflexivity.
  - exists r. split; [exact Hr |]. split; [exact Hlen |].
    split; [exact Heq |].
    vm_compute in Hr. injection Hr as <-. split; reflexivity.
Defined.

(** ** Several targets per window, and [create_sequences] *)

Lemma create_sequences_loop_spec {A : Type} (input_size target_size : Z)
    (data : list A) (indices : list Z) :
  forall X y : list (item A),
    create_sequences_loop input_size target_size data indices X y =
    (X ++ map (fun i => Row (py_slice data i (i + input_size))) indices,
     y ++ map (fun i => Row (py_slice data (i + input_size)
                               (i + input_size + target_size))) indices).
Proof.
  induction indices as [| i indices IH]; intros X y; cbn.
  - rewrite !app_nil_r. reflexivity.
  - rewrite IH, <- !app_assoc. reflexivity.
Qed.

Lemma create_loop_rows {A : Type} (input_size target_size : Z)
    (data : list A) (indices : list Z) :
  target_size <> 1 ->
  forall X y : list (item A),
    SinWaveDataset.create_loop input_size target_size data indices X y =
    inr (create_sequences_loop input_size target_size data indices X y).
Proof.
  intros Ht. induction indices as [| i indices IH]; intros X y; cbn.
  - reflexivity.
  - rewrite (proj2 (Z.eqb_neq _ _) Ht). apply IH.
Qed.

(** The slices that follow the windows. *)
Lemma targets_shape {A : Type} (data : list A) (input_size target_size n : Z) :
  0 <= input_size -> 0 <= target_size ->
  n + input_size + target_size <= len data + 1 ->
  Forall (fun w => len w = target_size)
    (map (fun i => py_slice data (i + input_size)
                     (i + input_size + target_size)) (range n)).
Proof.
  intros Hsize Ht Hn. unfold range. rewrite Forall_fmap.
  apply Forall_forall. intros i Hi. apply elem_of_seqZ in Hi. cbn.
  rewrite len_py_slice; lia.
Qed.

(** X14: [SinWaveDataset] with [target_size] other than 1 (and not
    negative): the data set has
    [max(0, len(data) - input_size - target_size + 1)] samples, and sample
    [idx] is the window [data[idx : idx + input_size]], of [input_size]
    elements, with the slice of the [target_size] values that follow it. *)
Theorem dataset_samples_several_targets :
  forall (A : Type) (data : list A) (input_size target_size : Z),
    0 <= input_size -> 0 <= target_size -> target_size <> 1 ->
    let n := len data - input_size - target_size + 1 in
    exists ds : SinWaveDataset.t A,
      SinWaveDataset.__init__ data input_size target_size = inr ds /\
      SinWaveDataset.__len__ ds = inr (Z.max 0 n) /\
      forall idx : Z, 0 <= idx < n ->
        let w := py_slice data idx (idx + input_size) in
        let t := py_slice data (idx + input_size)
                   (idx + input_size + target_size) in
        SinWaveDataset.__getitem__ ds idx = inr (Row w, Row t) /\
        len w = input_size /\ len t = target_size.
Proof.
  intros A data input_size target_size Hsize Ht Hne n.
  set (rows := map (fun i => py_slice data (i + input_size)
                               (i + input_size + target_size)) (range n)).
  assert (Hrun : SinWaveDataset.create_loop input_size target_size data
                   (range n) [] []
                 = inr (map Row (windows data input_size n), map Row rows)).
  { rewrite create_loop_rows, create_sequences_loop_spec by assumption.
    cbn [app]. unfold windows, rows. rewrite !map_map. reflexivity. }
  assert (Hwl : len (windows data input_size n) = Z.max 0 n)
    by apply windows_length.
  assert (Hrl : len rows = Z.max 0 n)
    by (unfold rows, range, len; rewrite length_map, length_seqZ; lia).
  unfold SinWaveDataset.__init__, SinWaveDataset._create_sequences.
  fold n. rewrite Hrun. cbn [bind_outcome].
  destruct (Z.ltb_spec 0 n) as [Hpos | Hneg].
  - rewrite (np_array_rows (windows data input_size n) input_size);
      [| intros E; rewrite E in Hwl; unfold len in Hwl; cbn in Hwl; lia
       | apply windows_shape; unfold n; lia].
    cbn [bind_outcome].
    rewrite (np_array_rows rows target_size);
      [| intros E; rewrite E in Hrl; unfold len in Hrl; cbn in Hrl; lia
       | apply targets_shape; unfold n; lia].
    cbn [bind_outcome]. eexists. split; [reflexivity |].
    unfold SinWaveDataset.__len__, SinWaveDataset.__getitem__.
    cbn [SinWaveDataset.X SinWaveDataset.y np_len np_getitem].
    split; [rewrite Hwl; reflexivity |].
    intros idx Hidx. cbv zeta.
    set (w := py_slice data idx (idx + input_size)).
    set (t := py_slice data (idx + input_size) (idx + input_size + target_size)).
    rewrite (py_index_ok (windows data input_size n) idx w);
      [| lia | rewrite windows_lookup by lia; rewrite Z2Nat.id by lia;
               reflexivity].
    cbn [bind_outcome].
    rewrite (py_index_ok rows idx t); [| lia |].
    + cbn [bind_outcome]. split; [reflexivity |].
      unfold w, t. rewrite !len_py_slice by (unfold n in *; lia). lia.
    + unfold rows, range. rewrite list_lookup_fmap, lookup_seqZ_lt by lia.
      cbn. rewrite Z2Nat.id by lia. reflexivity.
  - assert (Hw0 : windows data input_size n = [])
      by (destruct (windows data input_size n);
          [reflexivity | unfold len in Hwl; cbn in Hwl; lia]).
    assert (Hr0 : rows = [])
      by (destruct rows; [reflexivity | unfold len in Hrl; cbn in Hrl; lia]).
    rewrite Hw0, Hr0. cbn [map np_array bind_outcome].
    eexists. split; [reflexivity |].
    split; [| intros idx Hidx; lia].
    unfold SinWaveDataset.__len__. cbn [SinWaveDataset.X np_len].
    unfold len. cbn [length]. rewrite Z.max_l by lia. reflexivity.
Qed.

Lemma dataset_samples_several_targets_witness :
  exists ds : SinWaveDataset.t Z,
    SinWaveDataset.__init__ [10; 20; 30; 40; 50] 2 2 = inr ds /\
    SinWaveDataset.__len__ ds = inr 2 /\
    SinWaveDataset.__getitem__ ds 1 = inr (Row [20; 30], Row [40; 50]).
Proof.
  destruct (dataset_samples_several_targets Z [10; 20; 30; 40; 50] 2 2
              ltac:(lia) ltac:(lia) ltac:(lia)) as (ds & Hinit & Hlen & Hget).
  exists ds. split; [exact Hinit |]. split; [exact Hlen |].
  exact (proj1 (Hget 1 ltac:(vm_compute; split; [discriminate | reflexivity]))).
Defined.

(** The one-element slices that follow the windows are the series after
    its first [input_size] values, one value per row. *)
Lemma single_targets {A : Type} (data : list A) (input_size : Z) (n : nat) :
  forall k : Z,
    0 <= k -> 0 <= input_size ->
    k + Z.of_nat n + input_size <= len data ->
    map (fun i => py_slice data (i + input_size) (i + input_size + 1))
        (seqZ k (Z.of_nat n))
    = map (fun x => [x]) (take n (drop (Z.to_nat (k + input_size)) data)).
Proof.
  induction n as [| n IH]; intros k Hk Hsize Hlen; [reflexivity |].
  rewrite range_cons by lia.
  replace (Z.of_nat (S n) - 1) with (Z.of_nat n) by lia.
  destruct (lookup_lt_is_Some_2 data (Z.to_nat (k + input_size)))
    as [x Hx]; [unfold len in Hlen; lia |].
  cbn [map]. rewrite IH by lia.
  replace (Z.to_nat (k + 1 + input_size))
    with (S (Z.to_nat (k + input_size))) by lia.
  rewrite (drop_S _ _ _ Hx). cbn [take map]. f_equal.
  rewrite py_slice_window by lia.
  rewrite (drop_S _ _ _ Hx). reflexivity.
Qed.

Lemma concat_singletons {A : Type} (l : list A) :
  concat (map (fun x => [x]) l) = l.
Proof. induction l as [| x l IH]; [reflexivity | cbn; rewrite IH; reflexivity]. Qed.

(** X15: [create_sequences] of simple_model.py and
    [SinWaveDataset._create_sequences], for one target per window and
    [input_size >= 0], build the same windows; their targets, the series
    after its first [input_size] values, are the same array too, except for
    a series with exactly one sample, where [squeeze] leaves
    [create_sequences] a scalar in place of the array of one element. *)
Theorem create_sequences_agrees :
  forall (A : Type) (data : list A) (input_size : Z),
    0 <= input_size ->
    let n := len data - input_size in
    exists X y : ndarray A,
      SinWaveDataset._create_sequences input_size 1 data = inr (X, y) /\
      create_sequences data input_size 1 = inr (X, squeeze y) /\
      y = Array1 (drop (Z.to_nat input_size) data) /\
      (n <> 1 -> squeeze y = y) /\
      (n = 1 -> exists x : A, y = Array1 [x] /\ squeeze y = Array0 x).
Proof.
  intros A data input_size Hsize n.
  pose proof (dataset_init data input_size Hsize) as Hinit.
  cbv zeta in Hinit. fold n in Hinit.
  unfold SinWaveDataset.__init__ in Hinit.
  destruct (SinWaveDataset._create_sequences input_size 1 data)
    as [e | [X y]]; [discriminate |].
  cbn [bind_outcome] in Hinit. injection Hinit as HX Hy.
  exists X, y. split; [reflexivity |].
  assert (Hlen : len (drop (Z.to_nat input_size) data) = Z.max 0 n)
    by (unfold len, n; rewrite length_drop; unfold len; lia).
  assert (Hsq : (n <> 1 -> squeeze y = y) /\
                (n = 1 -> exists x : A, y = Array1 [x] /\ squeeze y = Array0 x)).
  { rewrite Hy. destruct (drop (Z.to_nat input_size) data) as [| x [| x' l]].
    - split; [reflexivity |]. unfold len in Hlen; cbn in Hlen; lia.
    - split; [unfold len in Hlen; cbn in Hlen; lia |].
      intros _. exists x. split; reflexivity.
    - split; [reflexivity |].
      unfold len in Hlen; cbn [length] in Hlen; lia. }
  split; [| split; [exact Hy | exact Hsq]].
  unfold create_sequences. rewrite create_sequences_loop_spec. cbn [app].
  replace (len data - input_size - 1 + 1) with n by (unfold n; lia).
  rewrite <- (map_map (fun i => py_slice data i (i + input_size)) Row).
  rewrite <- (map_map (fun i => py_slice data (i + input_size)
                                  (i + input_size + 1)) Row).
  fold (windows data input_size n).
  destruct (Z.ltb_spec 0 n) as [Hpos | Hneg].
  - rewrite (np_array_rows (windows data input_size n) input_size);
      [| intros E; pose proof (windows_length data input_size n) as Hl;
         rewrite E in Hl; unfold len in Hl; cbn in Hl; lia
       | apply windows_shape; unfold n; lia].
    cbn [bind_outcome]. unfold range.
    rewrite <- (Z2Nat.id n) at 1 by lia.
    rewrite single_targets by (unfold n in *; lia).
    change (0 + input_size) with input_size.
    rewrite take_ge by (unfold len in Hlen; lia).
    rewrite (np_array_rows _ 1).
    + cbn [bind_outcome]. rewrite HX. do 2 f_equal.
      rewrite Hy.
      destruct (drop (Z.to_nat input_size) data) as [| x [| x' l]];
        [reflexivity | reflexivity |].
      cbn [map squeeze]. 
      replace (forallb _ _) with true.
      * cbn [concat app]. rewrite concat_singletons. reflexivity.
      * symmetry. apply forallb_forall. intros r Hr.
        change ([x] :: [x'] :: map (fun x => [x]) l)
          with (map (fun x : A => [x]) (x :: x' :: l)) in Hr.
        apply in_map_iff in Hr as (z & <- & _). reflexivity.
    + destruct (drop (Z.to_nat input_size) data);
        [unfold len in Hlen; cbn in Hlen; lia | discriminate].
    + rewrite Forall_fmap. apply Forall_forall. intros z _. reflexivity.
  - unfold windows, range.
    replace (seqZ 0 n) with (@nil Z)
      by (unfold seqZ; replace (Z.to_nat n) with 0%nat by lia; reflexivity).
    cbn [map np_array bind_outcome]. rewrite HX, Hy.
    rewrite drop_ge by (unfold n, len in *; lia). reflexivity.
Qed.

Lemma create_sequences_agrees_witness :
  exists X y : ndarray Z,
    SinWaveDataset._create_sequences 2 1 [10; 20; 30] = inr (X, y) /\
    create_sequences [10; 20; 30] 2 1 = inr (X, squeeze y) /\
    y = Array1 [30] /\
    squeeze y = Array0 30.
Proof.
  destruct (create_sequences_agrees Z [10; 20; 30] 2 ltac:(lia))
    as (X & y & Hds & Hcs & Hy & _ & _).
  exists X, y. split; [exact Hds |]. split; [exact Hcs |].
  split; [exact Hy |]. rewrite Hy. reflexivity.
Defined.

(** ** The prediction mode *)





(** ** The strict order of binary64 *)

Lemma SFltb_trans (x y z : spec_float) :
  SFltb x y = true -> SFltb y z = true -> SFltb x z = true.
Proof.
  unfold SFltb, SFcompare.
  destruct x as [sx | sx | | sx mx ex], y as [sy | sy | | sy my ey],
           z as [sz | sz | | sz mz ez];
    try discriminate; try reflexivity;
    try (destruct sx, sy; discriminate);
    try (destruct sy, sz; discriminate);
    try (destruct sx, sz; (reflexivity || discriminate));
    try (destruct sx, sy, sz; (reflexivity || discriminate)).
  replace (Pos.compare_cont Eq mx my) with (Pos.compare mx my) by reflexivity.
  replace (Pos.compare_cont Eq my mz) with (Pos.compare my mz) by reflexivity.
  replace (Pos.compare_cont Eq mx mz) with (Pos.compare mx mz) by reflexivity.
  destruct sx, sy, sz; try discriminate; try reflexivity;
    destruct (Z.compare_spec ex ey), (Z.compare_spec ey ez),
             (Z.compare_spec ex ez);
    try discriminate; try reflexivity; try lia;
    destruct (Pos.compare_spec mx my), (Pos.compare_spec my mz),
             (Pos.compare_spec mx mz);
    cbn; try discriminate; try reflexivity; lia.
Qed.

Lemma ltb_trans (x y z : float) :
  (x <? y)%float = true -> (y <? z)%float = true -> (x <? z)%float = true.
Proof. rewrite !FloatAxioms.ltb_spec. apply SFltb_trans. Qed.

Lemma ltb_irrefl (x : float) : (x <? x)%float = false.
Proof.
  rewrite FloatAxioms.ltb_spec. unfold SFltb.
  destruct (Prim2SF x) as [s | s | | s m e] eqn:Hx; [| | reflexivity |];
    rewrite SFcompare_refl by discriminate; reflexivity.
Qed.

Lemma ltb_infinity (x y : float) :
  (x <? y)%float = true -> (x <? infinity)%float = true.
Proof.
  rewrite !FloatAxioms.ltb_spec.
  change (Prim2SF infinity) with (S754_infinity false).
  unfold SFltb, SFcompare.
  destruct (Prim2SF x) as [sx | sx | | sx mx ex],
           (Prim2SF y) as [sy | sy | | sy my ey];
    try discriminate; try reflexivity;
    destruct sx; try reflexivity; destruct sy; discriminate.
Qed.

(** ** The training loop *)

Section TrainLoop.

Variable losses : Z -> float * float.
Variable early_stopping_patience : Z.
Variable h0 : TrainHistory.t.

Lemma history_after_step (k : Z) :
  0 <= k ->
  {| TrainHistory.epoch :=
       TrainHistory.epoch (history_after losses h0 k) ++ [k + 1];
     TrainHistory.train_loss :=
       TrainHistory.train_loss (history_after losses h0 k) ++ [fst (losses k)];
     TrainHistory.val_loss :=
       TrainHistory.val_loss (history_after losses h0 k) ++ [snd (losses k)] |}
  = history_after losses h0 (k + 1).
Proof.
  intros Hk. unfold history_after, range. cbn.
  rewrite (seqZ_app 0 k 1) by lia. cbn [Z.add].
  change (seqZ k 1) with [k]. rewrite !map_app, !app_assoc. reflexivity.
Qed.

(** One epoch keeps the invariant. *)
Lemma train_inv_step (k : Z) (st : TrainState.t) :
  0 <= k -> train_inv losses h0 k st ->
  let h' :=
    {| TrainHistory.epoch :=
         TrainHistory.epoch (TrainState.train_history st) ++ [k + 1];
       TrainHistory.train_loss :=
         TrainHistory.train_loss (TrainState.train_history st) ++ [fst (losses k)];
       TrainHistory.val_loss :=
         TrainHistory.val_loss (TrainState.train_history st) ++ [snd (losses k)] |} in
  let st' :=
    if (snd (losses k) <? TrainState.best_val_loss st)%float
    then {| TrainState.best_val_loss := snd (losses k);
            TrainState.patience_counter := 0;
            TrainState.best_model_state := Some k;
            TrainState.train_history := h' |}
    else {| TrainState.best_val_loss := TrainState.best_val_loss st;
            TrainState.patience_counter := TrainState.patience_counter st + 1;
            TrainState.best_model_state := TrainState.best_model_state st;
            TrainState.train_history := h' |} in
  train_inv losses h0 (k + 1) st' /\
  TrainState.patience_counter st' <= TrainState.patience_counter st + 1 /\
  0 <= TrainState.patience_counter st'.
Proof.
  intros Hk (Hh & Hbest & Hstate) h' st'.
  assert (Hh' : h' = history_after losses h0 (k + 1))
    by (unfold h'; rewrite Hh; apply history_after_step; exact Hk).
  assert (Hc0 : 0 <= TrainState.patience_counter st).
  { destruct (TrainState.best_model_state st) as [e |].
    - destruct Hstate as (He & Hc & _). lia.
    - destruct Hstate as (_ & Hc). lia. }
  unfold st'. destruct (snd (losses k) <? TrainState.best_val_loss st)%float eqn:Hlt.
  - split; [| cbn; split; lia].
    split; [exact Hh' |]. cbn. split.
    + intros j Hj. destruct (Z.eq_dec j k) as [-> | Hne]; [apply ltb_irrefl |].
      destruct (snd (losses j) <? snd (losses k))%float eqn:Hjk; [| reflexivity].
      rewrite <- (Hbest j ltac:(lia)). symmetry.
      exact (ltb_trans _ _ _ Hjk Hlt).
    + split; [lia |]. split; [lia |]. split; [reflexivity |].
      exact (ltb_infinity _ _ Hlt).
  - split; [| cbn; split; lia].
    split; [exact Hh' |]. cbn. split.
    + intros j Hj. destruct (Z.eq_dec j k) as [-> | Hne]; [exact Hlt |].
      apply Hbest. lia.
    + destruct (TrainState.best_model_state st) as [e |].
      * destruct Hstate as (He & Hc & Hb & Hinf).
        split; [lia |]. split; [lia |]. split; assumption.
      * destruct Hstate as (Hb & Hc). split; [assumption | lia].
Qed.

(** The loop over the epochs [k, ..., k + n - 1]: it runs the epochs up
    to some [k'], keeps the invariant, and stops before [k + n] only with
    the patience used up. *)
Lemma train_loop_spec (n : nat) :
  forall (k : Z) (st : TrainState.t),
    0 <= k -> train_inv losses h0 k st ->
    exists k' : Z,
      k <= k' <= k + Z.of_nat n /\
      ((1 <= n)%nat -> k + 1 <= k') /\
      train_inv losses h0 k'
        (train_loop losses early_stopping_patience (seqZ k (Z.of_nat n)) st) /\
      (k' < k + Z.of_nat n ->
       early_stopping_patience
       <= TrainState.patience_counter
            (train_loop losses early_stopping_patience (seqZ k (Z.of_nat n)) st)) /\
      (TrainState.patience_counter st < early_stopping_patience ->
       TrainState.patience_counter
         (train_loop losses early_stopping_patience (seqZ k (Z.of_nat n)) st)
       <= early_stopping_patience) /\
      (early_stopping_patience <= 0 -> (1 <= n)%nat -> k' = k + 1).
Proof.
  induction n as [| n IH]; intros k st Hk Hinv.
  - exists k. change (seqZ k (Z.of_nat 0)) with (@nil Z). cbn [train_loop].
    split; [lia |]. split; [lia |]. split; [exact Hinv |].
    split; [lia |]. split; [intros Hc |]; lia.
  - rewrite range_cons by lia.
    replace (Z.of_nat (S n) - 1) with (Z.of_nat n) by lia.
    cbn [train_loop].
    destruct (losses k) as [train_loss val_loss] eqn:Hl.
    pose proof (train_inv_step k st Hk Hinv) as Hstep.
    rewrite Hl in Hstep. cbn [fst snd] in Hstep. cbv zeta in Hstep.
    match type of Hstep with
    | train_inv _ _ _ ?s /\ _ => set (st' := s) in *
    end.
    destruct Hstep as (Hinv' & Hle & Hnonneg).
    destruct (Z.leb_spec early_stopping_patience
                (TrainState.patience_counter st')) as [Hstop | Hgo].
    + exists (k + 1). split; [lia |]. split; [lia |]. split; [exact Hinv' |].
      split; [intros _; exact Hstop |].
      split; [intros Hc |]; lia.
    + destruct (IH (k + 1) st' ltac:(lia) Hinv')
        as (k' & Hk' & Hone & Hinv'' & Hearly & Hcount & _).
      exists k'. split; [lia |]. split; [lia |]. split; [exact Hinv'' |].
      split; [intros Hlt; apply Hearly; lia |].
      split; [intros _; exact (Hcount Hgo) | lia].
Qed.

End TrainLoop.

Lemma py_index_last {B : Type} (l : list B) (x : B) :
  py_index (l ++ [x]) (-1) = inr x.
Proof.
  unfold py_index. cbn [Z.ltb Z.compare].
  rewrite len_app. change (len [x]) with 1.
  pose proof (len_nonneg l).
  destruct (Z.ltb_spec (-1 + (len l + 1)) 0); [lia |].
  rewrite (list_lookup_middle l [] x) by (unfold len; lia). reflexivity.
Qed.

Lemma range_snoc (k : Z) : 1 <= k -> range k = range (k - 1) ++ [k - 1].
Proof.
  intros Hk. unfold range.
  replace k with ((k - 1) + 1) at 1 by lia.
  rewrite (seqZ_app 0 (k - 1) 1) by lia. reflexivity.
Qed.

Lemma history_after_0 (losses : Z -> float * float) (h0 : TrainHistory.t) :
  history_after losses h0 0 = h0.
Proof.
  destruct h0. unfold history_after, range. cbn. rewrite !app_nil_r.
  reflexivity.
Qed.

(** [train], by the state its loop ends in. *)
Lemma train_spec (losses : Z -> float * float)
    (max_epochs early_stopping_patience : Z) (h0 : TrainHistory.t) :
  exists (k : Z) (st : TrainState.t),
    0 <= k <= Z.max 0 max_epochs /\
    (1 <= max_epochs -> 1 <= k) /\
    train_inv losses h0 k st /\
    (k < max_epochs ->
     early_stopping_patience <= TrainState.patience_counter st) /\
    (0 < early_stopping_patience ->
     TrainState.patience_counter st <= early_stopping_patience) /\
    (early_stopping_patience <= 0 -> 1 <= max_epochs -> k = 1) /\
    train losses max_epochs early_stopping_patience h0 =
    (match TrainState.best_model_state st with
     | None => inl UnboundLocalError
     | Some _ =>
         inr {| TrainResult.final_train_loss := fst (losses (k - 1));
                TrainResult.final_val_loss := snd (losses (k - 1));
                TrainResult.best_val_loss := TrainState.best_val_loss st;
                TrainResult.train_history := history_after losses h0 k |}
     end, history_after losses h0 k).
Proof.
  set (st0 := {| TrainState.best_val_loss := infinity;
                 TrainState.patience_counter := 0;
                 TrainState.best_model_state := None;
                 TrainState.train_history := h0 |}).
  assert (Hinv0 : train_inv losses h0 0 st0).
  { split; [symmetry; apply history_after_0 |].
    split; [intros j Hj; lia | split; reflexivity]. }
  destruct (train_loop_spec losses early_stopping_patience h0
              (Z.to_nat max_epochs) 0 st0 ltac:(lia) Hinv0)
    as (k & Hk & Hone & Hinv & Hearly & Hcount & Hzero).
  assert (Hrange : seqZ 0 (Z.of_nat (Z.to_nat max_epochs)) = range max_epochs).
  { unfold range. destruct (Z_le_gt_dec 0 max_epochs).
    - rewrite Z2Nat.id by lia. reflexivity.
    - replace (Z.to_nat max_epochs) with 0%nat by lia.
      unfold seqZ. replace (Z.to_nat max_epochs) with 0%nat by lia.
      reflexivity. }
  rewrite Hrange in Hinv, Hearly, Hcount.
  set (st := train_loop losses early_stopping_patience (range max_epochs) st0) in *.
  exists k, st.
  split; [lia |]. split; [intros; apply Hone; lia |]. split; [exact Hinv |].
  split; [intros; apply Hearly; lia |].
  split; [intros; apply Hcount; cbn; lia |].
  split; [intros; rewrite Hzero by lia; lia |].
  unfold train. fold st0. fold st.
  destruct Hinv as (Hh & _ & Hstate). rewrite Hh.
  destruct (TrainState.best_model_state st) as [e |]; [| reflexivity].
  destruct Hstate as (He & _).
  f_equal. unfold history_after at 1 2.
  cbn [TrainHistory.train_loss TrainHistory.val_loss].
  rewrite (range_snoc k) by lia. rewrite !map_app, !app_assoc. cbn [map].
  rewrite !py_index_last. reflexivity.
Qed.

(** X17: [train] never resets the history of its use case: after a run
    the history is the one before the run followed by one entry per epoch
    run, numbered from 1, with the losses of that epoch.  It runs at most
    [max_epochs] epochs, at least one when [max_epochs >= 1], exactly one
    when the patience is 0 or less, and all of them when the patience
    exceeds [max_epochs]. *)
Theorem train_history_grows :
  forall (losses : Z -> float * float)
         (max_epochs early_stopping_patience : Z) (h0 : TrainHistory.t),
    exists k : Z,
      snd (train losses max_epochs early_stopping_patience h0)
        = history_after losses h0 k /\
      0 <= k <= Z.max 0 max_epochs /\
      (1 <= max_epochs -> 1 <= k) /\
      (early_stopping_patience <= 0 -> 1 <= max_epochs -> k = 1) /\
      (max_epochs < early_stopping_patience -> k = Z.max 0 max_epochs).
Proof.
  intros losses max_epochs early_stopping_patience h0.
  destruct (train_spec losses max_epochs early_stopping_patience h0)
    as (k & st & Hk & Hone & Hinv & Hearly & _ & Hzero & Htrain).
  exists k. rewrite Htrain. split; [reflexivity |].
  split; [exact Hk |]. split; [exact Hone |]. split; [exact Hzero |].
  intros Hpatient.
  destruct (Z_lt_ge_dec k max_epochs) as [Hlt | Hge]; [| lia].
  specialize (Hearly Hlt). destruct Hinv as (_ & _ & Hstate).
  destruct (TrainState.best_model_state st) as [e |].
  - destruct Hstate as (He & Hc & _). lia.
  - destruct Hstate as (_ & Hc). lia.
Qed.

(** X18: when [train] returns, after [k] epochs, its [best_val_loss] is
    the validation loss of one of these epochs, it is below infinity, no
    validation loss of the run is below it, and the final losses are those
    of the last epoch run. *)
Theorem train_best_val_loss :
  forall (losses : Z -> float * float)
         (max_epochs early_stopping_patience : Z) (h0 : TrainHistory.t)
         (r : TrainResult.t),
    fst (train losses max_epochs early_stopping_patience h0) = inr r ->
    exists k e : Z,
      0 <= e < k /\ k <= max_epochs /\
      TrainResult.train_history r = history_after losses h0 k /\
      TrainResult.final_train_loss r = fst (losses (k - 1)) /\
      TrainResult.final_val_loss r = snd (losses (k - 1)) /\
      TrainResult.best_val_loss r = snd (losses e) /\
      (TrainResult.best_val_loss r <? infinity)%float = true /\
      (forall j : Z, 0 <= j < k ->
         (snd (losses j) <? TrainResult.best_val_loss r)%float = false).
Proof.
  intros losses max_epochs early_stopping_patience h0 r Hr.
  destruct (train_spec losses max_epochs early_stopping_patience h0)
    as (k & st & Hk & _ & Hinv & _ & _ & _ & Htrain).
  rewrite Htrain in Hr. cbn [fst] in Hr.
  destruct Hinv as (_ & Hbest & Hstate).
  destruct (TrainState.best_model_state st) as [e |]; [| discriminate].
  injection Hr as <-. destruct Hstate as (He & _ & Hval & Hinf).
  exists k, e. cbn.
  split; [exact He |]. split; [lia |].
  repeat (split; [reflexivity |]).
  split; [exact Hval |]. split; [exact Hinf | exact Hbest].
Qed.

Lemma train_best_val_loss_witness :
  let losses : Z -> float * float :=
    fun e => (1%float, if e =? 1 then 2%float else 3%float) in
  let h0 := {| TrainHistory.epoch := []; TrainHistory.train_loss := [];
               TrainHistory.val_loss := [] |} in
  exists (r : TrainResult.t) (k e : Z),
    fst (train losses 3 5 h0) = inr r /\
    0 <= e < k /\ k <= 3 /\
    TrainResult.train_history r = history_after losses h0 k /\
    TrainResult.best_val_loss r = 2%float /\
    TrainResult.best_val_loss r = snd (losses e).
Proof.
  intros losses h0.
  destruct (train_best_val_loss losses 3 5 h0 _ eq_refl)
    as (k & e & He & Hk & Hh & _ & _ & Hbest & _).
  eexists. exists k, e. split; [reflexivity |].
  split; [exact He |]. split; [exact Hk |]. split; [exact Hh |].
  split; [reflexivity | exact Hbest].
Defined.

(** X19: [train] raises exactly when no epoch it ran had a validation loss
    below infinity (there is then no [best_model_state] to restore): it
    raises [UnboundLocalError], and nothing else; in particular it raises,
    without running an epoch, when [max_epochs <= 0]. *)
Theorem train_unbound_model_state :
  forall (losses : Z -> float * float)
         (max_epochs early_stopping_patience : Z) (h0 : TrainHistory.t),
    exists k : Z,
      0 <= k /\
      snd (train losses max_epochs early_stopping_patience h0)
        = history_after losses h0 k /\
      (fst (train losses max_epochs early_stopping_patience h0)
         = inl UnboundLocalError
       <-> forall j : Z, 0 <= j < k ->
             (snd (losses j) <? infinity)%float = false) /\
      (forall e : exception,
         fst (train losses max_epochs early_stopping_patience h0) = inl e ->
         e = UnboundLocalError) /\
      (max_epochs <= 0 ->
       k = 0 /\
       fst (train losses max_epochs early_stopping_patience h0)
         = inl UnboundLocalError).
Proof.
  intros losses max_epochs early_stopping_patience h0.
  destruct (train_spec losses max_epochs early_stopping_patience h0)
    as (k & st & Hk & _ & Hinv & _ & _ & _ & Htrain).
  exists k. rewrite Htrain. cbn [fst snd].
  split; [lia |]. split; [reflexivity |].
  destruct Hinv as (_ & Hbest & Hstate).
  destruct (TrainState.best_model_state st) as [e |].
  - destruct Hstate as (He & _ & Hval & Hinf).
    split; [| split; [discriminate | lia]].
    split; [discriminate |].
    intros Hall. rewrite Hval, (Hall e He) in Hinf. discriminate.
  - destruct Hstate as (Hval & _). rewrite Hval in Hbest.
    split; [split; [intros _; exact Hbest | reflexivity] |].
    split; [intros e [= <-]; reflexivity |].
    intros Hnone. split; [lia | reflexivity].
Qed.

(** X20: early stopping, for a patience of 1 or more.  When [train]
    returns after [k] epochs, its [best_val_loss] is the validation loss of
    an epoch [e] after which no loss was lower, at most
    [early_stopping_patience] epochs lie after [e], and exactly that many
    when the run stopped before [max_epochs]. *)
Theorem train_early_stopping :
  forall (losses : Z -> float * float)
         (max_epochs early_stopping_patience : Z) (h0 : TrainHistory.t)
         (r : TrainResult.t),
    1 <= early_stopping_patience ->
    fst (train losses max_epochs early_stopping_patience h0) = inr r ->
    exists k e : Z,
      0 <= e < k /\ k <= max_epochs /\
      TrainResult.train_history r = history_after losses h0 k /\
      TrainResult.best_val_loss r = snd (losses e) /\
      (forall j : Z, e < j < k ->
         (snd (losses j) <? snd (losses e))%float = false) /\
      k - 1 - e <= early_stopping_patience /\
      (k < max_epochs -> k - 1 - e = early_stopping_patience).
Proof.
  intros losses max_epochs early_stopping_patience h0 r Hpatience Hr.
  destruct (train_spec losses max_epochs early_stopping_patience h0)
    as (k & st & Hk & _ & Hinv & Hearly & Hcount & _ & Htrain).
  rewrite Htrain in Hr. cbn [fst] in Hr.
  destruct Hinv as (_ & Hbest & Hstate).
  destruct (TrainState.best_model_state st) as [e |]; [| discriminate].
  injection Hr as <-. destruct Hstate as (He & Hc & Hval & _).
  exists k, e. cbn.
  split; [exact He |]. split; [lia |]. split; [reflexivity |].
  split; [exact Hval |].
  split; [intros j Hj; rewrite <- Hval; apply Hbest; lia |].
  specialize (Hcount ltac:(lia)).
  split; [lia |]. intros Hlt. specialize (Hearly Hlt). lia.
Qed.

Lemma train_early_stopping_witness :
  let losses : Z -> float * float :=
    fun e => (1%float, if e =? 1 then 2%float else 3%float) in
  let h0 := {| TrainHistory.epoch := []; TrainHistory.train_loss := [];
               TrainHistory.val_loss := [] |} in
  exists (r : TrainResult.t) (k e : Z),
    fst (train losses 10 2 h0) = inr r /\
    TrainResult.train_history r = history_after losses h0 k /\
    TrainResult.best_val_loss r = snd (losses e) /\
    TrainHistory.epoch (TrainResult.train_history r) = [1; 2; 3; 4] /\
    k - 1 - e <= 2.
Proof.
  intros losses h0.
  destruct (train_early_stopping losses 10 2 h0 _ ltac:(lia) eq_refl)
    as (k & e & _ & _ & Hh & Hbest & _ & Hle & _).
  eexists. exists k, e. split; [reflexivity |].
  split; [exact Hh |]. split; [exact Hbest |]. split; [reflexivity | exact Hle].
Defined.

(** ** Saving and restoring the configuration *)

Lemma restore_config_union (cuda_is_available : bool) (checkpoint : Checkpoint.t) :
  snd (load_trained_model cuda_is_available checkpoint)
  = Checkpoint.config checkpoint ∪ ModelConfig__init__ cuda_is_available.
Proof.
  unfold load_trained_model. cbn [snd].
  apply (map_fold_weak_ind
           (fun r m => r = m ∪ ModelConfig__init__ cuda_is_available)).
  - rewrite (left_id ∅ (∪)). reflexivity.
  - intros i x m r _ ->. unfold setattr. apply insert_union_l.
Qed.

Lemma ModelConfig_names (cuda_is_available : bool) :
  dom (ModelConfig__init__ cuda_is_available)
  =@{gset string} list_to_set ["input_size"; "hidden_size"; "output_size"; "num_layers";
                 "dropout"; "learning_rate"; "batch_size"; "max_epochs";
                 "device"; "use_improved_model";
                 "early_stopping_patience"]%string.
Proof.
  unfold ModelConfig__init__. cbn [foldl]. cbv beta iota. unfold setattr.
  rewrite !dom_insert_L, dom_empty_L. cbn [list_to_set]. set_solver.
Qed.

(** A checkpoint that holds every attribute of a fresh [ModelConfig] is
    restored as it was saved. *)
Lemma restore_config_complete (cuda_is_available : bool)
    (checkpoint : Checkpoint.t) :
  dom (ModelConfig__init__ cuda_is_available)
    ⊆ dom (Checkpoint.config checkpoint) ->
  snd (load_trained_model cuda_is_available checkpoint)
  = Checkpoint.config checkpoint.
Proof.
  intros Hdom. rewrite restore_config_union. apply map_eq. intros name.
  destruct (Checkpoint.config checkpoint !! name) as [v |] eqn:Hv.
  - apply lookup_union_Some_l. exact Hv.
  - rewrite lookup_union_r by exact Hv.
    apply not_elem_of_dom. apply not_elem_of_dom in Hv.
    intros Hin. apply Hv, Hdom, Hin.
Qed.

(** X21: [load_trained_model] restores every attribute the checkpoint's
    configuration holds, with its saved value; an attribute the checkpoint
    lacks keeps the default of a fresh [ModelConfig]; a checkpoint that
    holds all the attributes of [ModelConfig] is restored exactly as saved;
    and a checkpoint without [use_improved_model] is rebuilt as an
    [ImprovedSinPredictor]. *)
Theorem load_trained_model_restores_config :
  forall (cuda_is_available : bool) (checkpoint : Checkpoint.t),
    let saved := Checkpoint.config checkpoint in
    let restored := snd (load_trained_model cuda_is_available checkpoint) in
    (forall (name : string) (v : value),
       saved !! name = Some v -> restored !! name = Some v) /\
    (forall name : string,
       saved !! name = None ->
       restored !! name = ModelConfig__init__ cuda_is_available !! name) /\
    (dom (ModelConfig__init__ cuda_is_available) ⊆ dom saved ->
     restored = saved) /\
    (saved !! "use_improved_model"%string = None ->
     fst (load_trained_model cuda_is_available checkpoint)
     = ImprovedSinPredictor).
Proof.
  intros cuda_is_available checkpoint saved restored.
  assert (Hunion : restored = saved ∪ ModelConfig__init__ cuda_is_available)
    by apply restore_config_union.
  split; [| split; [| split]].
  - intros name v Hv. rewrite Hunion. apply lookup_union_Some_l. exact Hv.
  - intros name Hnone. rewrite Hunion. apply lookup_union_r. exact Hnone.
  - apply restore_config_complete.
  - intros Hnone.
    assert (Hflag : restored !! "use_improved_model"%string = Some (VBool true)).
    { rewrite Hunion, lookup_union_r by exact Hnone.
      destruct cuda_is_available; reflexivity. }
    unfold load_trained_model. cbn [fst].
    unfold restored, load_trained_model in Hflag. cbn [snd] in Hflag.
    unfold getattr. rewrite Hflag. reflexivity.
Qed.

Lemma load_trained_model_restores_config_witness :
  let checkpoint :=
    save_model (setattr (setattr ∅ "input_size" (VInt 10))
                  "use_improved_model" (VBool false))
      {| TrainHistory.epoch := []; TrainHistory.train_loss := [];
         TrainHistory.val_loss := [] |} in
  snd (load_trained_model false checkpoint) !! "input_size"%string
  = Some (VInt 10) /\
  snd (load_trained_model false checkpoint) !! "hidden_size"%string
  = Some (VInt 128) /\
  fst (load_trained_model false checkpoint) = SimpleSinPredictor.
Proof.
  intros checkpoint.
  pose proof (load_trained_model_restores_config false checkpoint)
    as (Hsaved & Hdefault & _ & _).
  split; [apply Hsaved; reflexivity |].
  split; [rewrite Hdefault; reflexivity | reflexivity].
Defined.

(** X22: the configuration [train_mode] trains with, saved by
    [save_model] and read by [load_trained_model], comes back unchanged,
    on whatever machine it is read: the prediction use case gets the
    [input_size] of the command line, the model is rebuilt as an
    [ImprovedSinPredictor], and [device] is the device of the machine that
    trained, not of the one that loads. *)
Theorem train_then_load_config :
  forall (trained_with_cuda loaded_with_cuda : bool) (args : Args.t)
         (train_history : TrainHistory.t),
    let config := train_mode_config trained_with_cuda args in
    let loaded :=
      load_trained_model loaded_with_cuda (save_model config train_history) in
    snd loaded = config /\
    fst loaded = ImprovedSinPredictor /\
    config_of (snd loaded) = Some {| input_size := Args.input_size args |} /\
    snd loaded !! "device"%string
    = Some (VStr (if trained_with_cuda then "cuda" else "cpu")).
Proof.
  intros trained_with_cuda loaded_with_cuda args train_history config loaded.
  assert (Hdom : dom (ModelConfig__init__ loaded_with_cuda) ⊆ dom config).
  { unfold config, train_mode_config, setattr. cbv zeta.
    rewrite !dom_insert_L, !ModelConfig_names. cbn [list_to_set].
    intros name Hname. do 5 apply elem_of_union_r. exact Hname. }
  assert (Hcfg : snd loaded = config)
    by (apply restore_config_complete; exact Hdom).
  split; [exact Hcfg |].
  split; [| split].
  - unfold loaded, load_trained_model. cbn [fst].
    unfold loaded, load_trained_model in Hcfg. cbn [snd] in Hcfg.
    rewrite Hcfg. destruct trained_with_cuda; reflexivity.
  - rewrite Hcfg. destruct trained_with_cuda; reflexivity.
  - rewrite Hcfg. destruct trained_with_cuda; reflexivity.
Qed.
